(** * SwiftMind: a shallow embedding of the client-side logic

    The development follows the TypeScript sources module by module:

    - [Js]          the few [String.prototype] primitives the code relies on,
                    over UTF-16 code units;
    - [Formatter]   [renderTable], [renderInlineFormat] and [formatText] of
                    [components/ChatMessage.tsx];
    - [Wav]         [addWavHeader] of [services/geminiService.ts];
    - [Title]       [generateChatTitle] of [services/geminiService.ts];
    - [UserService] [services/userService.ts] over a model of [localStorage];
    - [App]         the session and message state of the [App] component,
                    its handlers and its effects;
    - [Gemini]      the requests [sendMessageStream] and [initializeChat]
                    of [services/geminiService.ts] build, and the file name
                    [convertWithILovePDF] returns.

    External collaborators (the generative backend, the conversion backend,
    [uuidv4], [Date.now]) are inputs of the embedded functions. *)

From Stdlib Require Import String Ascii DecimalString.
From Stdlib Require Import List NArith ZArith Lia Bool.
From coqutil Require Byte Word.LittleEndianList.
From stdpp Require gmap.
Import ListNotations.

(* ===================================================================== *)
(** ** JavaScript strings *)
(* ===================================================================== *)

Module Js.

(** A JavaScript string is a sequence of UTF-16 code units. *)
Definition jsstring := list N.

(** Literals of the sources are written [js "..."]; only ASCII literals
    occur. *)
Definition js (s : String.string) : jsstring :=
  map N_of_ascii (String.list_ascii_of_string s).
Arguments js s%_string.

Definition LF : N := 10.

Fixpoint eqb (a b : jsstring) : bool :=
  match a, b with
  | [], [] => true
  | x :: a', y :: b' => N.eqb x y && eqb a' b'
  | _, _ => false
  end.

(** [LineTerminator] of ECMAScript: LF, CR, LS, PS. *)
Definition isLineTerminator (c : N) : bool :=
  (c =? 10)%N || (c =? 13)%N || (c =? 8232)%N || (c =? 8233)%N.

(** What [trim] strips and what [\s] matches: [WhiteSpace] and
    [LineTerminator]. *)
Definition isWhiteSpace (c : N) : bool :=
  (c =? 9)%N || (c =? 11)%N || (c =? 12)%N || (c =? 32)%N || (c =? 160)%N
  || (c =? 5760)%N || ((8192 <=? c)%N && (c <=? 8202)%N)
  || (c =? 8239)%N || (c =? 8287)%N || (c =? 12288)%N || (c =? 65279)%N
  || isLineTerminator c.

Fixpoint trimStart (s : jsstring) : jsstring :=
  match s with
  | c :: s' => if isWhiteSpace c then trimStart s' else s
  | [] => []
  end.

Definition trimEnd (s : jsstring) : jsstring := rev (trimStart (rev s)).

Definition trim (s : jsstring) : jsstring := trimEnd (trimStart s).

Fixpoint startsWith (s p : jsstring) : bool :=
  match p, s with
  | [], _ => true
  | x :: p', y :: s' => N.eqb x y && startsWith s' p'
  | _ :: _, [] => false
  end.

Definition endsWith (s p : jsstring) : bool := startsWith (rev s) (rev p).

(** [s.includes(c)] for a one-unit needle. *)
Definition includes1 (s : jsstring) (c : N) : bool := existsb (N.eqb c) s.

(** [s.split(sep)] for a one-unit separator: always at least one piece. *)
Fixpoint split1 (sep : N) (s : jsstring) : list jsstring :=
  match s with
  | [] => [[]]
  | c :: s' =>
      if N.eqb c sep then [] :: split1 sep s'
      else match split1 sep s' with
           | piece :: pieces => (c :: piece) :: pieces
           | [] => [[c]]
           end
  end.

(** [s.slice(0, n)] and [s.substring(n)] for [n] within the literal uses of
    the sources. *)
Definition slice0 (n : nat) (s : jsstring) : jsstring := firstn n s.
Definition substring (n : nat) (s : jsstring) : jsstring := skipn n s.

(** [s.slice(2, -2)]: from index 2 up to [length - 2], empty when the
    bounds cross. *)
Definition slice2m2 (s : jsstring) : jsstring :=
  firstn (length s - 2 - 2) (skipn 2 s).

(** [s.replace(/\*\*/g, '')]: every non-overlapping pair of stars, left to
    right, is removed. *)
Fixpoint removeStarPairs (s : jsstring) : jsstring :=
  match s with
  | 42%N :: s1 =>
      match s1 with
      | 42%N :: s2 => removeStarPairs s2
      | _ => 42%N :: removeStarPairs s1
      end
  | c :: s1 => c :: removeStarPairs s1
  | [] => []
  end.

(** [s.replace(/^P\s+/, '')] for a literal prefix [P]: the prefix and the
    white space after it go when at least one white-space unit follows,
    otherwise the string is returned as it is. *)
Definition stripPrefixSpaces (p s : jsstring) : jsstring :=
  if startsWith s p then
    match skipn (length p) s with
    | c :: rest => if isWhiteSpace c then trimStart rest else s
    | [] => s
    end
  else s.

Lemma eqb_eq (a b : jsstring) : eqb a b = true <-> a = b.
Proof.
  revert b. induction a as [|x a IH]; intros [|y b]; simpl;
    try (split; [discriminate | congruence]); [tauto|].
  rewrite andb_true_iff, N.eqb_eq, IH. split.
  - intros [-> ->]. reflexivity.
  - intros H. injection H as -> ->. auto.
Qed.

Lemma eqb_refl (a : jsstring) : eqb a a = true.
Proof. now apply eqb_eq. Qed.

Definition QUOTE : N := 34.
Definition DOT : N := 46.
Definition SLASH : N := 47.

(** The lazy [.*?] followed by two units [d]: the shortest run of units
    other than line terminators that is followed by [d d]. The result is
    the run and what follows the pair. *)
Fixpoint lazyUntilPair (d : N) (s : jsstring) : option (jsstring * jsstring) :=
  match s with
  | [] => None
  | c :: s' =>
      match s' with
      | c' :: rest =>
          if N.eqb c d && N.eqb c' d then Some ([], rest)
          else if isLineTerminator c then None
          else match lazyUntilPair d s' with
               | Some (inner, after) => Some (c :: inner, after)
               | None => None
               end
      | [] => None
      end
  end.

(** [s.replace(/P/g, '')] for a non-empty literal [P]: the occurrences are
    taken left to right without overlap. [skip] counts the units of the
    occurrence being dropped. *)
Fixpoint removeAllFrom (p s : jsstring) (skip : nat) : jsstring :=
  match s with
  | [] => []
  | c :: s' =>
      match skip with
      | S k => removeAllFrom p s' k
      | O => if startsWith s p then removeAllFrom p s' (length p - 1)
             else c :: removeAllFrom p s' 0
      end
  end.

Definition removeAll (p s : jsstring) : jsstring := removeAllFrom p s 0.

Fixpoint takeWhile (f : N -> bool) (s : jsstring) : jsstring :=
  match s with
  | c :: s' => if f c then c :: takeWhile f s' else []
  | [] => []
  end.

(** [s.replace(/\.[^/.]+$/, '')]: a final dot followed by at least one
    unit, none of them a dot or a slash, is removed with what follows. *)
Definition stripExtension (s : jsstring) : jsstring :=
  let r := rev s in
  let ext := takeWhile (fun c => negb (N.eqb c DOT) && negb (N.eqb c SLASH)) r in
  match skipn (length ext) r with
  | c :: rest => if N.eqb c DOT && negb (eqb ext []) then rev rest else s
  | [] => s
  end.

(** A non-negative integer as a template literal prints it. *)
Definition decimal (n : nat) : jsstring :=
  js (NilZero.string_of_uint (Nat.to_uint n)).

(** JavaScript truthiness of a string. *)
Definition truthy (s : jsstring) : bool :=
  match s with [] => false | _ => true end.

(** [a || b] on strings. *)
Definition or_else (a b : jsstring) : jsstring := if truthy a then a else b.

(** [s.includes(p)] *)
Fixpoint includes (s p : jsstring) : bool :=
  startsWith s p
  || match s with
     | [] => false
     | _ :: s' => includes s' p
     end.

End Js.

(* ===================================================================== *)
(** ** The message formatter (components/ChatMessage.tsx) *)
(* ===================================================================== *)

Module Formatter.
Import Js.

Definition PIPE : N := 124.
Definition STAR : N := 42.
Definition COLON : N := 58.
Definition DASH : N := 45.

(** The display blocks [formatText] pushes on [elements]. React keys and
    class names carry no content and are left out. *)
Inductive inline : Type :=
| Plain (text : jsstring)
| Strong (text : jsstring).

Inductive block : Type :=
| Spacer
| H3 (text : jsstring)
| H2 (text : jsstring)
| BoldLine (text : jsstring)
| Hr
| ListItem (content : list inline)
| Paragraph (content : list inline)
| Table (headers : option (list jsstring)) (bodyRows : list (list jsstring)).

(** An element of the result: [renderTable] may return [null]. *)
Definition node := option block.

(** [Array.prototype.filter] with the index passed to the callback. *)
Fixpoint filteri {A : Type} (f : nat -> A -> bool) (i : nat) (l : list A)
  : list A :=
  match l with
  | [] => []
  | x :: l' => if f i x then x :: filteri f (S i) l' else filteri f (S i) l'
  end.

(** [Array.prototype.findIndex]: the first index whose element passes, or
    [-1]. *)
Fixpoint findIndex {A : Type} (p : A -> bool) (l : list A) : Z :=
  match l with
  | [] => (-1)%Z
  | x :: l' =>
      if p x then 0%Z
      else let k := findIndex p l' in
           if (k =? -1)%Z then (-1)%Z else (k + 1)%Z
  end.

(** [/^[-:]+$/.test(cell)] *)
Definition isDashColon (cell : jsstring) : bool :=
  truthy cell && forallb (fun c => N.eqb c DASH || N.eqb c COLON) cell.

(** The callback of [tableLines.map] in [renderTable]. *)
Definition keepCell (len : nat) (i : nat) (cell : jsstring) : bool :=
  if Nat.eqb i 0 && eqb (trim cell) [] then false
  else if Nat.eqb i (len - 1) && eqb (trim cell) [] then false
  else true.

Definition splitRow (row : jsstring) : list jsstring :=
  let arr := split1 PIPE row in
  map trim (filteri (keepCell (length arr)) 0 arr).

Definition isSeparatorRow (row : list jsstring) : bool :=
  existsb isDashColon row.

Definition renderTable (tableLines : list jsstring) : node :=
  let rows := map splitRow tableLines in
  if Nat.eqb (length rows) 0 then None
  else
    let separatorIndex := findIndex isSeparatorRow rows in
    if negb (separatorIndex =? -1)%Z then
      if (separatorIndex =? 1)%Z then
        Some (Table (Some (nth 0 rows [])) (skipn 2 rows))
      else
        Some (Table None
                (filteri (fun idx _ => negb (Z.of_nat idx =? separatorIndex)%Z)
                         0 rows))
    else Some (Table None rows).

(** One attempt of [/\*\*.*?\*\*/] after the opening stars: the shortest
    run of units other than line terminators that is followed by two
    stars. The result is the run and what follows the closing stars. *)
Definition matchClose (s : jsstring) : option (jsstring * jsstring) :=
  lazyUntilPair STAR s.

(** The text matched by [/\*\*.*?\*\*/] at the start of [s], if any. *)
Definition matchBold (s : jsstring) : option jsstring :=
  match s with
  | c :: d :: s' =>
      if N.eqb c STAR && N.eqb d STAR then
        match matchClose s' with
        | Some (inner, _) => Some (c :: d :: inner ++ [STAR; STAR])
        | None => None
        end
      else None
  | _ => None
  end.

(** [text.split] on the same expression inside a capture group, with the
    [g] flag: the pieces between matches and, for the capture group, the
    matches themselves. [skip] counts the units of the
    last match still to pass over. *)
Fixpoint splitBold (s : jsstring) (skip : nat) (pending : jsstring)
  : list jsstring :=
  match s with
  | [] => [pending]
  | c :: s' =>
      match skip with
      | S k => splitBold s' k pending
      | O =>
          match matchBold s with
          | Some m => pending :: m :: splitBold s' (length m - 1) []
          | None => splitBold s' 0 (pending ++ [c])
          end
      end
  end.

Definition renderInlineFormat (text : jsstring) : list inline :=
  map (fun part =>
         if startsWith part (js "**") && endsWith part (js "**")
         then Strong (slice2m2 part)
         else Plain part)
      (splitBold text 0 []).

(** The chain of tests [formatText] applies to a line that is not a table
    line. *)
Definition lineBlock (line trimmed : jsstring) : block :=
  if eqb trimmed [] then Spacer
  else if startsWith trimmed (js "###") then
    H3 (stripPrefixSpaces (js "###") trimmed)
  else if startsWith trimmed (js "##") then
    H2 (stripPrefixSpaces (js "##") trimmed)
  else if startsWith trimmed (js "**") && endsWith trimmed (js "**")
          && Nat.ltb (length trimmed) 60 && negb (includes1 trimmed COLON)
  then BoldLine (removeStarPairs trimmed)
  else if startsWith trimmed (js "---") || startsWith trimmed (js "___") then Hr
  else if startsWith trimmed (js "- ") || startsWith trimmed (js "* ") then
    ListItem (renderInlineFormat (substring 2 trimmed))
  else Paragraph (renderInlineFormat line).

(** The loop of [formatText] over the lines from index [i] on, with the
    loop's two mutable variables. The last line is the one with nothing
    after it. *)
Fixpoint formatLines (lines : list jsstring) (tableBuffer : list jsstring)
         (elements : list node) : list node :=
  match lines with
  | [] => elements
  | line :: rest =>
      let trimmed := trim line in
      if startsWith trimmed (js "|") then
        let tableBuffer := tableBuffer ++ [trimmed] in
        match rest with
        | [] => formatLines rest [] (elements ++ [renderTable tableBuffer])
        | _ :: _ => formatLines rest tableBuffer elements
        end
      else
        let elements :=
          if Nat.ltb 0 (length tableBuffer)
          then elements ++ [renderTable tableBuffer]
          else elements in
        formatLines rest [] (elements ++ [Some (lineBlock line trimmed)])
  end.

Definition formatText (text : jsstring) : list node :=
  formatLines (split1 LF text) [] [].

Definition sample_table : jsstring :=
  js "| a | b |" ++ [LF] ++ js "|---|---|" ++ [LF] ++ js "| 1 | 2 |".

(** *** Facts about the primitives *)

Lemma split1_nonempty (sep : N) (s : jsstring) : split1 sep s <> [].
Proof.
  destruct s as [|c s]; simpl; [discriminate|].
  destruct (N.eqb c sep); [discriminate|].
  destruct (split1 sep s); discriminate.
Qed.

Lemma split1_piece (sep : N) (c rest : jsstring) :
  includes1 c sep = false ->
  split1 sep (c ++ sep :: rest) = c :: split1 sep rest.
Proof.
  unfold includes1. induction c as [|x c IH]; simpl; intros H.
  - now rewrite N.eqb_refl.
  - apply orb_false_iff in H. destruct H as [Hx Hc].
    rewrite N.eqb_sym in Hx. rewrite Hx, (IH Hc). reflexivity.
Qed.

(** The line written for a list of cells: a pipe, then every cell followed
    by a pipe. *)
Definition rowLine (cells : list jsstring) : jsstring :=
  PIPE :: concat (map (fun c => c ++ [PIPE]) cells).

Lemma split1_cells (cells : list jsstring) :
  forallb (fun c => negb (includes1 c PIPE)) cells = true ->
  split1 PIPE (concat (map (fun c => c ++ [PIPE]) cells)) = cells ++ [[]].
Proof.
  induction cells as [|c cells IH]; simpl; intros H; [reflexivity|].
  apply andb_true_iff in H. destruct H as [Hc Hcells].
  apply negb_true_iff in Hc.
  rewrite <- app_assoc. simpl.
  rewrite (split1_piece _ _ _ Hc), (IH Hcells). reflexivity.
Qed.

Lemma filteri_inner_cells (len i : nat) (cells : list jsstring) :
  0 < i -> i + length cells = len - 1 ->
  filteri (keepCell len) i (cells ++ [[]]) = cells.
Proof.
  revert i. induction cells as [|c cells IH]; simpl; intros i Hi Hlen.
  - unfold keepCell. replace (Nat.eqb i 0) with false
      by (symmetry; apply Nat.eqb_neq; lia).
    replace (Nat.eqb i (len - 1)) with true
      by (symmetry; apply Nat.eqb_eq; lia).
    reflexivity.
  - unfold keepCell at 1.
    replace (Nat.eqb i 0) with false by (symmetry; apply Nat.eqb_neq; lia).
    replace (Nat.eqb i (len - 1)) with false
      by (symmetry; apply Nat.eqb_neq; lia).
    simpl. f_equal. apply IH; lia.
Qed.

Lemma splitRow_rowLine (cells : list jsstring) :
  forallb (fun c => negb (includes1 c PIPE)) cells = true ->
  splitRow (rowLine cells) = map trim cells.
Proof.
  intros H. unfold splitRow, rowLine.
  change (split1 PIPE (PIPE :: ?s)) with ([] :: split1 PIPE s).
  rewrite (split1_cells _ H). cbn [filteri length].
  unfold keepCell at 1. cbn [Nat.eqb andb trim trimStart trimEnd rev eqb].
  rewrite filteri_inner_cells; [reflexivity | lia |].
  rewrite length_app. simpl. lia.
Qed.

Lemma findIndex_first (A : Type) (p : A -> bool) (pre : list A) (x : A)
      (post : list A) :
  forallb (fun y => negb (p y)) pre = true -> p x = true ->
  findIndex p (pre ++ x :: post) = Z.of_nat (length pre).
Proof.
  intros Hpre Hx. induction pre as [|y pre IH]; simpl in *.
  - now rewrite Hx.
  - apply andb_true_iff in Hpre. destruct Hpre as [Hy Hpre].
    apply negb_true_iff in Hy. rewrite Hy, (IH Hpre).
    destruct (Z.eqb_spec (Z.of_nat (length pre)) (-1)); lia.
Qed.

Lemma findIndex_none (A : Type) (p : A -> bool) (l : list A) :
  forallb (fun y => negb (p y)) l = true -> findIndex p l = (-1)%Z.
Proof.
  induction l as [|y l IH]; simpl; intros H; [reflexivity|].
  apply andb_true_iff in H. destruct H as [Hy Hl].
  apply negb_true_iff in Hy. now rewrite Hy, (IH Hl).
Qed.

Lemma filteri_drop_index (A : Type) (i : nat) (pre : list A) (x : A)
      (post : list A) :
  filteri (fun idx _ => negb (Z.of_nat idx =? Z.of_nat (i + length pre))%Z)
          i (pre ++ x :: post) = pre ++ post.
Proof.
  assert (Hall : forall (l : list A) j k, k < j ->
            filteri (fun idx _ => negb (Z.of_nat idx =? Z.of_nat k)%Z) j l = l).
  { induction l as [|y l IH]; simpl; intros j k Hjk; [reflexivity|].
    destruct (Z.eqb_spec (Z.of_nat j) (Z.of_nat k)); [lia|].
    simpl. f_equal. apply IH. lia. }
  revert i. induction pre as [|y pre IH]; simpl; intros i.
  - rewrite Nat.add_0_r, Z.eqb_refl. simpl. apply Hall. lia.
  - destruct (Z.eqb_spec (Z.of_nat i) (Z.of_nat (i + S (length pre)))); [lia|].
    simpl. f_equal. rewrite <- Nat.add_succ_comm. apply IH.
Qed.

(** What the test of a cell and of a row amount to. *)
Lemma isDashColon_spec (cell : jsstring) :
  isDashColon cell = true <->
  cell <> [] /\ (forall c, In c cell -> c = DASH \/ c = COLON).
Proof.
  unfold isDashColon. rewrite andb_true_iff, forallb_forall. split.
  - intros [Hne Hall]. split.
    + destruct cell; [discriminate | discriminate].
    + intros c Hc. specialize (Hall c Hc).
      apply orb_true_iff in Hall. destruct Hall as [H|H];
        apply N.eqb_eq in H; auto.
  - intros [Hne Hall]. split.
    + destruct cell; [congruence | reflexivity].
    + intros c Hc. destruct (Hall c Hc) as [->| ->]; reflexivity.
Qed.

Lemma isSeparatorRow_spec (row : list jsstring) :
  isSeparatorRow row = true <->
  exists cell, In cell row /\ isDashColon cell = true.
Proof. unfold isSeparatorRow. apply existsb_exists. Qed.

(** *** The table rules *)

(** C7. [formatText] on the three-line sample yields exactly one table
    block with header [a, b] and the single body row [1, 2]; and in
    general a line made of a boundary pipe and of cells each closed by a
    pipe is split into exactly those cells, each trimmed, the two empty
    pieces at the boundaries being dropped. *)
Theorem formatText_sample_table :
  formatText sample_table
  = [Some (Table (Some [js "a"; js "b"]) [[js "1"; js "2"]])]
  /\ (forall cells : list jsstring,
        forallb (fun c => negb (includes1 c PIPE)) cells = true ->
        splitRow (rowLine cells) = map trim cells).
Proof.
  split.
  - vm_compute. reflexivity.
  - exact splitRow_rowLine.
Qed.

Lemma formatText_sample_table_witness :
  formatText sample_table
  = [Some (Table (Some [js "a"; js "b"]) [[js "1"; js "2"]])]
  /\ splitRow (rowLine [js " a "; []; js "b c"])
     = [js "a"; []; js "b c"].
Proof.
  split.
  - exact (proj1 formatText_sample_table).
  - exact (proj2 formatText_sample_table [js " a "; []; js "b c"]
             eq_refl).
Defined.

(** The rule as C2 words it: the row taken as header separator behind
    row 0 has only dash/colon cells. *)
Definition separator_only_if_all_cells : Prop :=
  forall (tableLines : list jsstring) (r0 sep : list jsstring)
         (rest : list (list jsstring)),
    map splitRow tableLines = r0 :: sep :: rest ->
    renderTable tableLines = Some (Table (Some r0) rest) ->
    forallb isDashColon sep = true.

(** C2, as stated, fails: in the two-line buffer below the second row has
    the cells [x] and [-]; it is dropped as the separator and the first row
    becomes the header, although [x] is no dash/colon sequence. *)
Lemma separator_only_if_all_cells_fails : ~ separator_only_if_all_cells.
Proof.
  intros H.
  specialize (H [js "| a | b |"; js "| x | - |"]
                [js "a"; js "b"] [js "x"; js "-"] [] eq_refl eq_refl).
  vm_compute in H. discriminate H.
Qed.

(** C2, amended. The separator row is the first row with at least one cell
    made only of dashes and colons (so a row made solely of such cells
    qualifies). If it sits right behind row 0, row 0 is the header and the
    body is what follows the separator; if it sits elsewhere, it alone is
    dropped and there is no header; if there is none, every row is a body
    row and there is no header. *)
Theorem renderTable_separator_rule (tableLines : list jsstring) :
  (forall row : list jsstring,
      isSeparatorRow row = true <->
      exists cell, In cell row /\ cell <> [] /\
                   forall c, In c cell -> c = DASH \/ c = COLON)
  /\ (forall r0 sep rest,
        map splitRow tableLines = r0 :: sep :: rest ->
        isSeparatorRow r0 = false -> isSeparatorRow sep = true ->
        renderTable tableLines = Some (Table (Some r0) rest))
  /\ (forall pre sep post,
        map splitRow tableLines = pre ++ sep :: post ->
        forallb (fun r => negb (isSeparatorRow r)) pre = true ->
        isSeparatorRow sep = true -> length pre <> 1 ->
        renderTable tableLines = Some (Table None (pre ++ post)))
  /\ (tableLines <> [] ->
      forallb (fun r => negb (isSeparatorRow r)) (map splitRow tableLines)
      = true ->
      renderTable tableLines = Some (Table None (map splitRow tableLines))).
Proof.
  split; [|split; [|split]].
  - intros row. rewrite isSeparatorRow_spec. split.
    + intros [cell [Hin Hd]]. exists cell. split; [exact Hin|].
      now apply isDashColon_spec.
    + intros [cell [Hin Hd]]. exists cell. split; [exact Hin|].
      now apply isDashColon_spec.
  - intros r0 sep rest Hrows H0 Hsep. unfold renderTable.
    rewrite Hrows. cbn [length Nat.eqb findIndex].
    rewrite H0, Hsep. reflexivity.
  - intros pre sep post Hrows Hpre Hsep Hlen. unfold renderTable.
    rewrite Hrows, (findIndex_first _ _ _ _ _ Hpre Hsep).
    replace (Nat.eqb (length (pre ++ sep :: post)) 0) with false
      by (symmetry; apply Nat.eqb_neq; rewrite length_app; simpl; lia).
    destruct (Z.eqb_spec (Z.of_nat (length pre)) (-1)); [lia|].
    destruct (Z.eqb_spec (Z.of_nat (length pre)) 1); [lia|].
    cbn [negb]. do 3 f_equal.
    exact (filteri_drop_index _ 0 pre sep post).
  - intros Hne Hall. unfold renderTable.
    rewrite (findIndex_none _ _ _ Hall).
    destruct tableLines; [congruence | reflexivity].
Qed.

Lemma renderTable_separator_rule_witness :
  renderTable [js "| a | b |"; js "| x | - |"; js "| 1 | 2 |"]
  = Some (Table (Some [js "a"; js "b"]) [[js "1"; js "2"]])
  /\ renderTable [js "| a | b |"; js "| 1 | 2 |"; js "|:--|--:|"; js "| 3 | 4 |"]
     = Some (Table None [[js "a"; js "b"]; [js "1"; js "2"]; [js "3"; js "4"]])
  /\ renderTable [js "| a | b |"; js "| 1 | 2 |"]
     = Some (Table None [[js "a"; js "b"]; [js "1"; js "2"]]).
Proof.
  split; [|split].
  - apply (proj1 (proj2 (renderTable_separator_rule
             [js "| a | b |"; js "| x | - |"; js "| 1 | 2 |"]))
             [js "a"; js "b"] [js "x"; js "-"] [[js "1"; js "2"]]);
      reflexivity.
  - apply (proj1 (proj2 (proj2 (renderTable_separator_rule
             [js "| a | b |"; js "| 1 | 2 |"; js "|:--|--:|"; js "| 3 | 4 |"])))
             [[js "a"; js "b"]; [js "1"; js "2"]] [js ":--"; js "--:"]
             [[js "3"; js "4"]]);
      [reflexivity | reflexivity | reflexivity | simpl; lia].
  - apply (proj2 (proj2 (proj2 (renderTable_separator_rule
             [js "| a | b |"; js "| 1 | 2 |"]))));
      [discriminate | reflexivity].
Defined.

(** *** Inline formatting *)

Lemma lazyUntilPair_some (d : N) (s inner after : jsstring) :
  lazyUntilPair d s = Some (inner, after) -> s = inner ++ d :: d :: after.
Proof.
  revert inner. induction s as [|c s IH]; intros inner; [discriminate|].
  cbn [lazyUntilPair]. destruct s as [|c' rest]; [discriminate|].
  destruct (N.eqb c d && N.eqb c' d) eqn:E.
  - intros H. injection H as <- <-. apply andb_prop in E.
    destruct E as [E1 E2]. apply N.eqb_eq in E1, E2. subst. reflexivity.
  - destruct (isLineTerminator c); [discriminate|].
    destruct (lazyUntilPair d (c' :: rest)) as [[i a]|] eqn:El;
      [|discriminate].
    intros H. injection H as <- <-. cbn [app]. f_equal. now apply IH.
Qed.

Lemma lazyUntilPair_found (d : N) (inner after : jsstring) :
  includes1 inner d = false ->
  forallb (fun c => negb (isLineTerminator c)) inner = true ->
  lazyUntilPair d (inner ++ d :: d :: after) = Some (inner, after).
Proof.
  unfold includes1. induction inner as [|c inner IH]; intros Hd Hlt.
  - cbn. now rewrite N.eqb_refl.
  - cbn [existsb forallb] in Hd, Hlt.
    apply orb_false_iff in Hd. destruct Hd as [Hc Hd].
    apply andb_prop in Hlt. destruct Hlt as [Hl Hlt].
    apply negb_true_iff in Hl. rewrite N.eqb_sym in Hc.
    specialize (IH Hd Hlt). cbn [app lazyUntilPair].
    destruct (inner ++ d :: d :: after) as [|c' rest] eqn:E;
      [destruct inner; discriminate E|].
    rewrite Hc, Hl, IH. reflexivity.
Qed.

Lemma matchBold_prefix (s m : jsstring) :
  matchBold s = Some m -> exists rest, s = m ++ rest /\ 4 <= length m.
Proof.
  unfold matchBold, matchClose. destruct s as [|c [|d s]]; try discriminate.
  destruct (N.eqb c STAR && N.eqb d STAR); [|discriminate].
  destruct (lazyUntilPair STAR s) as [[inner after]|] eqn:E; [|discriminate].
  intros H. injection H as <-. apply lazyUntilPair_some in E. subst s.
  exists after. split.
  - cbn [app]. do 2 f_equal. rewrite <- app_assoc. reflexivity.
  - cbn [length]. rewrite length_app. cbn. lia.
Qed.

Lemma matchBold_no_star (c : N) (s : jsstring) :
  N.eqb c STAR = false -> matchBold (c :: s) = None.
Proof. intros H. unfold matchBold. destruct s; [reflexivity|]. now rewrite H. Qed.

Lemma splitBold_skip (a b pending : jsstring) :
  splitBold (a ++ b) (length a) pending = splitBold b 0 pending.
Proof.
  induction a as [|c a IH]; [reflexivity|]. cbn [app length splitBold].
  exact IH.
Qed.

Lemma splitBold_plain (s pending : jsstring) :
  includes1 s STAR = false -> splitBold s 0 pending = [pending ++ s].
Proof.
  unfold includes1. revert pending.
  induction s as [|c s IH]; intros pending H.
  - cbn. now rewrite app_nil_r.
  - cbn [existsb] in H. apply orb_false_iff in H. destruct H as [Hc H].
    rewrite N.eqb_sym in Hc. cbn [splitBold].
    rewrite (matchBold_no_star _ _ Hc), (IH _ H), <- app_assoc.
    reflexivity.
Qed.

(** X5. [text.split] on the bold expression loses nothing: the pieces
    [renderInlineFormat] maps over, the matches among them, are the text
    when put together again. *)
Theorem splitBold_concat (text : jsstring) :
  concat (splitBold text 0 []) = text.
Proof.
  assert (H : forall s skip pending,
             skip <= length s ->
             concat (splitBold s skip pending) = pending ++ skipn skip s).
  { induction s as [|c s IH]; intros skip pending Hskip.
    - cbn in Hskip. replace skip with 0 by lia. cbn.
      now rewrite app_nil_r.
    - destruct skip as [|k]; cbn [splitBold skipn].
      + destruct (matchBold (c :: s)) as [m|] eqn:Hm.
        * destruct (matchBold_prefix _ _ Hm) as (rest & Hs & Hlen).
          destruct m as [|x m]; [cbn in Hlen; lia|].
          cbn [app] in Hs. injection Hs as <- ->.
          cbn [concat length]. rewrite Nat.sub_succ, Nat.sub_0_r.
          rewrite IH by (rewrite length_app; lia).
          rewrite skipn_app, Nat.sub_diag, skipn_all. cbn [app skipn].
          reflexivity.
        * rewrite IH by lia. cbn [skipn]. rewrite <- app_assoc.
          reflexivity.
      + apply IH. cbn in Hskip. lia. }
  rewrite H by lia. reflexivity.
Qed.

Lemma startsWith_nil (s : jsstring) : startsWith s [] = true.
Proof. destruct s; reflexivity. Qed.

Lemma plain_piece (s : jsstring) :
  includes1 s STAR = false ->
  startsWith s (js "**") && endsWith s (js "**") = false.
Proof.
  unfold includes1. destruct s as [|c s]; [reflexivity|].
  cbn [existsb]. intros H. apply orb_false_iff in H. destruct H as [Hc _].
  change (js "**") with [STAR; STAR]. cbn [startsWith].
  now rewrite Hc.
Qed.

(** X6. A text with one bold span, [pre**inner**post] where none of the
    three parts has a star and [inner] has no line terminator, is rendered
    as plain [pre], strong [inner], plain [post]; the plain parts are
    there also when they are empty. A text without a star is rendered as
    it is. *)
Theorem renderInlineFormat_one_bold (pre inner post : jsstring) :
  includes1 pre STAR = false -> includes1 inner STAR = false ->
  includes1 post STAR = false ->
  forallb (fun c => negb (isLineTerminator c)) inner = true ->
  renderInlineFormat (pre ++ js "**" ++ inner ++ js "**" ++ post)
  = [Plain pre; Strong inner; Plain post]
  /\ renderInlineFormat pre = [Plain pre].
Proof.
  intros Hpre Hinner Hpost Hlt.
  assert (Hsplit : forall pending,
            splitBold (pre ++ js "**" ++ inner ++ js "**" ++ post) 0 pending
            = [pending ++ pre; js "**" ++ inner ++ js "**"; post]).
  { assert (Hm : matchBold (js "**" ++ inner ++ js "**" ++ post)
                 = Some (js "**" ++ inner ++ js "**")).
    { change (js "**") with [STAR; STAR]. cbn [app matchBold].
      rewrite N.eqb_refl. cbn [andb]. unfold matchClose.
      rewrite lazyUntilPair_found by assumption. reflexivity. }
    revert Hpre. unfold includes1.
    induction pre as [|c pre IH]; intros Hpre pending.
    - cbn [app]. rewrite app_nil_r.
      remember (js "**" ++ inner ++ js "**" ++ post) as s eqn:Es.
      destruct s as [|x s]; [discriminate Es|].
      cbn [splitBold]. rewrite Hm. do 2 f_equal.
      change (js "**") with [STAR; STAR] in Es |- *.
      cbn [app] in Es. injection Es as -> ->.
      replace (length (STAR :: STAR :: inner ++ [STAR; STAR]) - 1)
        with (length (STAR :: inner ++ [STAR; STAR])) by (cbn; lia).
      replace (STAR :: inner ++ STAR :: STAR :: post)
        with ((STAR :: inner ++ [STAR; STAR]) ++ post)
        by (cbn [app]; rewrite <- app_assoc; reflexivity).
      rewrite splitBold_skip. apply (splitBold_plain post [] Hpost).
    - cbn [existsb] in Hpre. apply orb_false_iff in Hpre.
      destruct Hpre as [Hc Hpre]. rewrite N.eqb_sym in Hc.
      cbn [app splitBold]. rewrite (matchBold_no_star _ _ Hc).
      rewrite (IH Hpre), <- app_assoc. reflexivity. }
  split.
  - unfold renderInlineFormat. rewrite (Hsplit []). cbn [app map].
    rewrite (plain_piece pre Hpre), (plain_piece post Hpost).
    do 2 f_equal.
    change (js "**") with [STAR; STAR].
    cbn [app startsWith]. rewrite !N.eqb_refl. cbn [andb].
    unfold endsWith. cbn [rev]. rewrite !rev_app_distr. cbn [rev app].
    cbn [startsWith]. rewrite !N.eqb_refl. cbn [andb].
    f_equal. unfold slice2m2. cbn [length skipn].
    rewrite length_app. cbn [length].
    replace (S (S (length inner + 2)) - 2 - 2) with (length inner) by lia.
    rewrite !startsWith_nil. cbn [andb]. rewrite skipn_O.
    rewrite firstn_app, Nat.sub_diag, firstn_all. cbn [firstn].
    now rewrite app_nil_r.
  - unfold renderInlineFormat. rewrite (splitBold_plain pre [] Hpre).
    cbn [app map]. now rewrite (plain_piece pre Hpre).
Qed.

Lemma renderInlineFormat_one_bold_witness :
  renderInlineFormat (js "Total: **42** units")
  = [Plain (js "Total: "); Strong (js "42"); Plain (js " units")]
  /\ renderInlineFormat (js "**42**")
     = [Plain []; Strong (js "42"); Plain []].
Proof.
  split.
  - apply (renderInlineFormat_one_bold (js "Total: ") (js "42")
             (js " units")); reflexivity.
  - apply (renderInlineFormat_one_bold [] (js "42") []); reflexivity.
Defined.

(** *** Lines and blocks *)

(** A line [formatText] puts into the table buffer. *)
Definition isTableLine (line : jsstring) : bool :=
  startsWith (trim line) (js "|").

(** The element pushed for a line that is not a table line. *)
Definition blockOf (line : jsstring) : node :=
  Some (lineBlock line (trim line)).

Lemma renderTable_some (tableLines : list jsstring) :
  tableLines <> [] -> renderTable tableLines <> None.
Proof.
  intros Hne. unfold renderTable. rewrite length_map.
  destruct tableLines as [|l ls]; [congruence|]. cbn [length Nat.eqb].
  destruct (negb _); [destruct (_ =? 1)%Z|]; discriminate.
Qed.

(** X7. No element of the result of [formatText] is [null]: [renderTable]
    returns [null] for an empty buffer only, and the loop never calls it
    with one. *)
Theorem formatText_no_null (text : jsstring) : ~ In None (formatText text).
Proof.
  unfold formatText.
  assert (H : forall lines buf els,
             ~ In None els -> ~ In None (formatLines lines buf els)).
  { induction lines as [|line rest IH]; intros buf els Hels; [exact Hels|].
    cbn [formatLines].
    destruct (startsWith (trim line) (js "|")).
    - destruct rest as [|next rest]; [|now apply IH].
      cbn [formatLines]. intros Hin. apply in_app_or in Hin.
      destruct Hin as [Hin|[Hin|[]]]; [now apply Hels|].
      revert Hin. apply renderTable_some.
      destruct buf; discriminate.
    - apply IH. intros Hin. apply in_app_or in Hin.
      destruct Hin as [Hin|[Hin|[]]]; [|discriminate Hin].
      destruct (Nat.ltb 0 (length buf)) eqn:Hlen; [|now apply Hels].
      apply in_app_or in Hin. destruct Hin as [Hin|[Hin|[]]];
        [now apply Hels|].
      revert Hin. apply renderTable_some.
      destruct buf; [discriminate Hlen | discriminate]. }
  apply H. intros [].
Qed.

Lemma formatLines_plain (lines : list jsstring) :
  forallb (fun l => negb (isTableLine l)) lines = true ->
  forall els, formatLines lines [] els = els ++ map blockOf lines.
Proof.
  induction lines as [|line rest IH]; intros H els.
  - cbn. now rewrite app_nil_r.
  - cbn [forallb] in H. apply andb_prop in H. destruct H as [Hl H].
    apply negb_true_iff in Hl. unfold isTableLine in Hl.
    cbn [formatLines map]. rewrite Hl. cbn [length Nat.ltb Nat.leb].
    rewrite (IH H), <- app_assoc. reflexivity.
Qed.

Lemma formatLines_cons_table (line next : jsstring) (rest buf : list jsstring)
      (els : list node) :
  isTableLine line = true ->
  formatLines (line :: next :: rest) buf els
  = formatLines (next :: rest) (buf ++ [trim line]) els.
Proof.
  intros H. unfold isTableLine in H.
  change (formatLines (line :: next :: rest) buf els)
    with (if startsWith (trim line) (js "|")
          then formatLines (next :: rest) (buf ++ [trim line]) els
          else formatLines (next :: rest) []
                 ((if Nat.ltb 0 (length buf)
                   then els ++ [renderTable buf] else els)
                  ++ [Some (lineBlock line (trim line))])).
  now rewrite H.
Qed.

Lemma formatLines_table (tbl after : list jsstring) :
  forallb isTableLine tbl = true ->
  forallb (fun l => negb (isTableLine l)) after = true ->
  forall line buf els,
    isTableLine line = true ->
    formatLines (line :: tbl ++ after) buf els
    = els ++ [renderTable (buf ++ map trim (line :: tbl))]
          ++ map blockOf after.
Proof.
  intros Htbl Hafter. induction tbl as [|l tbl IH]; intros line buf els Hl.
  - unfold isTableLine in Hl. cbn [app formatLines map]. rewrite Hl.
    destruct after as [|a after]; [reflexivity|].
    cbn [forallb] in Hafter. apply andb_prop in Hafter.
    destruct Hafter as [Ha Hafter]. apply negb_true_iff in Ha.
    unfold isTableLine in Ha. cbn [formatLines]. rewrite Ha.
    replace (Nat.ltb 0 (length (buf ++ [trim line]))) with true
      by (symmetry; apply Nat.ltb_lt; rewrite length_app; cbn; lia).
    rewrite (formatLines_plain _ Hafter). cbn [map app].
    rewrite <- !app_assoc. reflexivity.
  - cbn [forallb] in Htbl. apply andb_prop in Htbl.
    destruct Htbl as [Hl' Htbl].
    cbn [app]. rewrite (formatLines_cons_table _ _ _ _ _ Hl).
    rewrite (IH Htbl l (buf ++ [trim line]) els Hl').
    cbn [map]. rewrite <- app_assoc. reflexivity.
Qed.

(** X8. The lines before a run of table lines and after it give one
    element each, in order, and the run gives one table, built from its
    trimmed lines: when the next line is not a table line, and also when
    the text ends with the run. A text without table lines gives one
    element per line. *)
Theorem formatText_table_run (text : jsstring)
        (before tbl after : list jsstring) :
  forallb (fun l => negb (isTableLine l)) before = true ->
  forallb isTableLine tbl = true ->
  forallb (fun l => negb (isTableLine l)) after = true ->
  split1 LF text = before ++ tbl ++ after ->
  formatText text
  = map blockOf before
    ++ match tbl with
       | [] => []
       | _ :: _ => [renderTable (map trim tbl)]
       end
    ++ map blockOf after.
Proof.
  intros Hb Ht Ha Hsplit. unfold formatText. rewrite Hsplit. clear Hsplit.
  assert (H : forall els,
             formatLines (before ++ tbl ++ after) [] els
             = els ++ map blockOf before
                   ++ match tbl with
                      | [] => []
                      | _ :: _ => [renderTable (map trim tbl)]
                      end
                   ++ map blockOf after).
  { induction before as [|line before IH]; intros els.
    - cbn [app map]. destruct tbl as [|l tbl].
      + cbn [app]. now apply formatLines_plain.
      + cbn [forallb] in Ht. apply andb_prop in Ht. destruct Ht as [Hl Ht].
        cbn [app].
        now rewrite (formatLines_table tbl after Ht Ha l [] els Hl).
    - cbn [forallb] in Hb. apply andb_prop in Hb. destruct Hb as [Hl Hb].
      apply negb_true_iff in Hl. unfold isTableLine in Hl.
      cbn [app formatLines map]. rewrite Hl. cbn [length Nat.ltb Nat.leb].
      rewrite (IH Hb), <- app_assoc. reflexivity. }
  apply (H []).
Qed.

Lemma formatText_table_run_witness :
  formatText (js "Prices" ++ [LF] ++ js "| a | 1 |" ++ [LF] ++ js "| b | 2 |")
  = [Some (Paragraph [Plain (js "Prices")]);
     Some (Table None [[js "a"; js "1"]; [js "b"; js "2"]])].
Proof.
  apply (formatText_table_run _ [js "Prices"] [js "| a | 1 |"; js "| b | 2 |"]
                              []); reflexivity.
Defined.

Lemma trimStart_spaces (ws s : jsstring) :
  forallb isWhiteSpace ws = true -> trimStart (ws ++ s) = trimStart s.
Proof.
  induction ws as [|c ws IH]; intros H; [reflexivity|].
  cbn [forallb] in H. apply andb_prop in H. destruct H as [Hc H].
  cbn [app trimStart]. rewrite Hc. now apply IH.
Qed.

Definition HASH : N := 35.

Lemma lineBlock_H3 (line trimmed : jsstring) :
  startsWith trimmed (js "###") = true ->
  lineBlock line trimmed = H3 (stripPrefixSpaces (js "###") trimmed).
Proof.
  intros H. unfold lineBlock. destruct trimmed as [|c t]; [discriminate H|].
  cbn [eqb]. now rewrite H.
Qed.

Lemma lineBlock_H2 (line trimmed : jsstring) :
  startsWith trimmed (js "###") = false ->
  startsWith trimmed (js "##") = true ->
  lineBlock line trimmed = H2 (stripPrefixSpaces (js "##") trimmed).
Proof.
  intros H3 H2. unfold lineBlock.
  destruct trimmed as [|c t]; [discriminate H2|].
  cbn [eqb]. now rewrite H3, H2.
Qed.

Lemma startsWith_app (p s : jsstring) : startsWith (p ++ s) p = true.
Proof.
  induction p as [|c p IH]; [apply startsWith_nil|].
  cbn [app startsWith]. now rewrite N.eqb_refl.
Qed.

Lemma stripPrefixSpaces_spaces (p ws title : jsstring) :
  ws <> [] -> forallb isWhiteSpace ws = true -> trimStart title = title ->
  stripPrefixSpaces p (p ++ ws ++ title) = title.
Proof.
  intros Hne Hws Htitle. unfold stripPrefixSpaces.
  rewrite startsWith_app, skipn_app, Nat.sub_diag, skipn_all.
  destruct ws as [|w ws]; [congruence|].
  cbn [forallb] in Hws. apply andb_prop in Hws. destruct Hws as [Hw Hws].
  cbn [app skipn]. rewrite Hw, (trimStart_spaces _ _ Hws). exact Htitle.
Qed.

Lemma stripPrefixSpaces_none (p rest : jsstring) (c : N) :
  isWhiteSpace c = false ->
  stripPrefixSpaces p (p ++ c :: rest) = p ++ c :: rest.
Proof.
  intros Hc. unfold stripPrefixSpaces.
  rewrite startsWith_app, skipn_app, Nat.sub_diag, skipn_all.
  cbn [app skipn]. now rewrite Hc.
Qed.

(** X9. A heading line is shown without its marks only when white space
    follows them: for [###] (or [##]), white space and a title, the
    heading is the title; when another unit follows the marks directly,
    the heading keeps the marks. *)
Theorem heading_marks (line ws title rest : jsstring) (c : N) :
  (ws <> [] -> forallb isWhiteSpace ws = true -> trimStart title = title ->
   lineBlock line (js "###" ++ ws ++ title) = H3 title
   /\ lineBlock line (js "##" ++ ws ++ title) = H2 title)
  /\ (isWhiteSpace c = false ->
      lineBlock line (js "###" ++ c :: rest) = H3 (js "###" ++ c :: rest))
  /\ (isWhiteSpace c = false -> c <> HASH ->
      lineBlock line (js "##" ++ c :: rest) = H2 (js "##" ++ c :: rest)).
Proof.
  split; [|split].
  - intros Hne Hws Htitle. split.
    + rewrite lineBlock_H3 by apply startsWith_app.
      now rewrite stripPrefixSpaces_spaces.
    + rewrite lineBlock_H2.
      * now rewrite stripPrefixSpaces_spaces.
      * destruct ws as [|w ws]; [congruence|].
        cbn [forallb] in Hws. apply andb_prop in Hws.
        destruct Hws as [Hw _].
        change (js "###") with [HASH; HASH; HASH].
        change (js "##") with [HASH; HASH]. cbn [app startsWith].
        destruct (N.eqb_spec HASH w) as [<-|]; [discriminate Hw|].
        now rewrite !N.eqb_refl.
      * apply startsWith_app.
  - intros Hc. rewrite lineBlock_H3 by apply startsWith_app.
    now rewrite stripPrefixSpaces_none.
  - intros Hc Hne. rewrite lineBlock_H2.
    + now rewrite stripPrefixSpaces_none.
    + change (js "###") with [HASH; HASH; HASH].
      change (js "##") with [HASH; HASH]. cbn [app startsWith].
      destruct (N.eqb_spec HASH c) as [<-|]; [congruence|].
      now rewrite !N.eqb_refl.
    + apply startsWith_app.
Qed.

Lemma heading_marks_witness :
  lineBlock (js " ### Plan") (js "### Plan") = H3 (js "Plan")
  /\ lineBlock (js "###Plan") (js "###Plan") = H3 (js "###Plan").
Proof.
  destruct (heading_marks (js " ### Plan") (js " ") (js "Plan") (js "lan")
                          80%N) as (H1 & _ & _).
  destruct (heading_marks (js "###Plan") (js " ") (js "Plan") (js "lan")
                          80%N) as (_ & H2 & _).
  split.
  - apply H1; [discriminate | reflexivity | reflexivity].
  - apply H2. reflexivity.
Defined.

Lemma removeStarPairs_other (c : N) (s : jsstring) :
  c <> STAR -> removeStarPairs (c :: s) = c :: removeStarPairs s.
Proof.
  intros Hc. destruct c as [|p]; [reflexivity|].
  do 6 (try (destruct p as [p|p|]; try reflexivity)).
  exfalso. apply Hc. reflexivity.
Qed.

Lemma removeStarPairs_wrapped (inner : jsstring) :
  includes1 inner STAR = false ->
  removeStarPairs (js "**" ++ inner ++ js "**") = inner.
Proof.
  change (js "**") with [STAR; STAR]. unfold includes1. intros H.
  change (removeStarPairs ([STAR; STAR] ++ inner ++ [STAR; STAR]))
    with (removeStarPairs (inner ++ [STAR; STAR])).
  induction inner as [|c inner IH]; [reflexivity|].
  cbn [existsb] in H. apply orb_false_iff in H. destruct H as [Hc H].
  cbn [app]. rewrite removeStarPairs_other, (IH H); [reflexivity|].
  intros ->. discriminate Hc.
Qed.

Lemma endsWith_app (s p : jsstring) : endsWith (s ++ p) p = true.
Proof. unfold endsWith. rewrite rev_app_distr. apply startsWith_app. Qed.

(** X10. A line that is one bold span, [**inner**] with no star in
    [inner], is a bold block with the text [inner] when it has fewer than
    60 units and no colon; with a colon, or from 60 units on, it is a
    paragraph, and the paragraph is made of the line as it was before
    trimming. *)
Theorem bold_line (line inner : jsstring) :
  includes1 inner STAR = false ->
  let trimmed := js "**" ++ inner ++ js "**" in
  (length inner < 56 -> includes1 inner COLON = false ->
   lineBlock line trimmed = BoldLine inner)
  /\ (56 <= length inner \/ includes1 inner COLON = true ->
      lineBlock line trimmed = Paragraph (renderInlineFormat line)).
Proof.
  intros Hstar trimmed.
  assert (Est : startsWith trimmed (js "**") = true) by apply startsWith_app.
  assert (Een : endsWith trimmed (js "**") = true)
    by (unfold trimmed; rewrite app_assoc; apply endsWith_app).
  assert (Elen : length trimmed = length inner + 4)
    by (unfold trimmed; rewrite !length_app; cbn; lia).
  assert (Ecol : includes1 trimmed COLON = includes1 inner COLON).
  { unfold trimmed, includes1. rewrite !existsb_app.
    change (existsb (N.eqb COLON) (js "**")) with false.
    cbn [orb]. apply orb_false_r. }
  assert (E0 : eqb trimmed [] = false) by reflexivity.
  assert (E1 : startsWith trimmed (js "###") = false) by reflexivity.
  assert (E2 : startsWith trimmed (js "##") = false) by reflexivity.
  assert (E3 : startsWith trimmed (js "---") = false) by reflexivity.
  assert (E4 : startsWith trimmed (js "___") = false) by reflexivity.
  assert (E5 : startsWith trimmed (js "- ") = false) by reflexivity.
  assert (E6 : startsWith trimmed (js "* ") = false) by reflexivity.
  assert (Erm : removeStarPairs trimmed = inner)
    by now apply removeStarPairs_wrapped.
  unfold lineBlock.
  rewrite E0, E1, E2, E3, E4, E5, E6, Est, Een, Elen, Ecol, Erm.
  cbn [andb orb]. split.
  - intros Hlen Hcol. rewrite Hcol.
    replace (Nat.ltb (length inner + 4) 60) with true
      by (symmetry; apply Nat.ltb_lt; lia).
    reflexivity.
  - intros [Hlen|Hcol].
    + replace (Nat.ltb (length inner + 4) 60) with false
        by (symmetry; apply Nat.ltb_ge; lia).
      reflexivity.
    + rewrite Hcol. now rewrite andb_false_r.
Qed.

Lemma bold_line_witness :
  lineBlock (js "  **Note**") (js "**Note**") = BoldLine (js "Note")
  /\ lineBlock (js "  **Note: x**") (js "**Note: x**")
     = Paragraph [Plain (js "  "); Strong (js "Note: x"); Plain []].
Proof.
  split.
  - apply (proj1 (bold_line (js "  **Note**") (js "Note") eq_refl));
      [cbn; lia | reflexivity].
  - apply (proj2 (bold_line (js "  **Note: x**") (js "Note: x") eq_refl)).
    right. reflexivity.
Defined.

End Formatter.

(* ===================================================================== *)
(** ** The WAV container (services/geminiService.ts) *)
(* ===================================================================== *)

Module Wav.
Import Js.

Abbreviation byte := Init.Byte.byte.
Abbreviation le_split := LittleEndianList.le_split.
Abbreviation le_combine := LittleEndianList.le_combine.

(** An [ArrayBuffer] with the views on it; a write that does not fit raises
    [RangeError], which is [None] here. *)
Definition buffer := list byte.

Definition newArrayBuffer (len : nat) : buffer := repeat Byte.x00 len.

Definition overwrite (off : nat) (bs : list byte) (buf : buffer)
  : option buffer :=
  if Nat.leb (off + length bs) (length buf)
  then Some (firstn off buf ++ bs ++ skipn (off + length bs) buf)
  else None.

Definition bind {A B : Type} (m : option A) (k : A -> option B) : option B :=
  match m with
  | Some a => k a
  | None => None
  end.

Notation "x <- m ;; k" := (bind m (fun x => k))
  (at level 61, m at next level, right associativity).

(** [DataView.prototype.setUint8/16/32], the latter two little-endian (the
    sources always pass [true]); the value is reduced modulo the width. *)
Definition setUint8 (view : buffer) (off : nat) (v : Z) : option buffer :=
  overwrite off (le_split 1 v) view.
Definition setUint16 (view : buffer) (off : nat) (v : Z) : option buffer :=
  overwrite off (le_split 2 v) view.
Definition setUint32 (view : buffer) (off : nat) (v : Z) : option buffer :=
  overwrite off (le_split 4 v) view.

(** [new Uint8Array(buffer, off).set(samples)] *)
Definition uint8Array_set (view : buffer) (off : nat) (samples : list byte)
  : option buffer :=
  overwrite off samples view.

(** The local [writeString]: one [setUint8] per code unit. *)
Fixpoint writeString (view : buffer) (offset : nat) (s : jsstring)
  : option buffer :=
  match s with
  | [] => Some view
  | c :: s' =>
      view' <- setUint8 view offset (Z.of_N c) ;;
      writeString view' (S offset) s'
  end.

(** [addWavHeader]. The two numbers are taken to be integers, and the
    products are the exact ones: those of the code for the rate and the
    channel count [generateSpeech] passes, and for all numbers within the
    bounds of [exactNumber] below. *)
Definition addWavHeader (samples : list byte) (sampleRate numChannels : Z)
  : option buffer :=
  let n := Z.of_nat (length samples) in
  let view := newArrayBuffer (44 + length samples) in
  view <- writeString view 0 (js "RIFF") ;;
  view <- setUint32 view 4 (36 + n) ;;
  view <- writeString view 8 (js "WAVE") ;;
  view <- writeString view 12 (js "fmt ") ;;
  view <- setUint32 view 16 16 ;;
  view <- setUint16 view 20 1 ;;
  view <- setUint16 view 22 numChannels ;;
  view <- setUint32 view 24 sampleRate ;;
  view <- setUint32 view 28 (sampleRate * numChannels * 2) ;;
  view <- setUint16 view 32 (numChannels * 2) ;;
  view <- setUint16 view 34 16 ;;
  view <- writeString view 36 (js "data") ;;
  view <- setUint32 view 40 n ;;
  uint8Array_set view 44 samples.

(** The call in [generateSpeech]. *)
Definition generateSpeech_wavBytes (bytes : list byte) : option buffer :=
  addWavHeader bytes 24000 1.

(** Reading the result back. *)
Definition bytesAt (buf : buffer) (off len : nat) : list byte :=
  firstn len (skipn off buf).
Definition getUint16 (buf : buffer) (off : nat) : Z :=
  le_combine (bytesAt buf off 2).
Definition getUint32 (buf : buffer) (off : nat) : Z :=
  le_combine (bytesAt buf off 4).
Definition ascii_tag (s : jsstring) : list byte :=
  map (fun c => coqutil.Byte.byte.of_Z (Z.of_N c)) s.

(** The 44 header bytes for [n] bytes of samples. *)
Definition headerBytes (n sampleRate numChannels : Z) : list byte :=
  ascii_tag (js "RIFF") ++ le_split 4 (36 + n)
  ++ ascii_tag (js "WAVE") ++ ascii_tag (js "fmt ")
  ++ le_split 4 16 ++ le_split 2 1 ++ le_split 2 numChannels
  ++ le_split 4 sampleRate ++ le_split 4 (sampleRate * numChannels * 2)
  ++ le_split 2 (numChannels * 2) ++ le_split 2 16
  ++ ascii_tag (js "data") ++ le_split 4 n.

Lemma uint8Array_set_44 (view : buffer) (samples : list byte) :
  length view = 44 + length samples ->
  uint8Array_set view 44 samples = Some (firstn 44 view ++ samples).
Proof.
  intros Hlen. unfold uint8Array_set, overwrite.
  rewrite Hlen, Nat.leb_refl. do 2 f_equal.
  rewrite skipn_all2; [apply app_nil_r | lia].
Qed.

Lemma le_split_2 (v : Z) : exists a b, le_split 2 v = [a; b].
Proof. cbn [LittleEndianList.le_split]. eauto. Qed.

Lemma le_split_4 (v : Z) : exists a b c d, le_split 4 v = [a; b; c; d].
Proof. cbn [LittleEndianList.le_split]. eauto 6. Qed.

Lemma addWavHeader_bytes (samples : list byte) (sampleRate numChannels : Z) :
  addWavHeader samples sampleRate numChannels
  = Some (headerBytes (Z.of_nat (length samples)) sampleRate numChannels
            ++ samples).
Proof.
  unfold addWavHeader, headerBytes, newArrayBuffer, setUint32, setUint16.
  rewrite repeat_app.
  generalize (Z.of_nat (length samples)); intros n.
  destruct (le_split_4 (36 + n)) as (r0 & r1 & r2 & r3 & ->).
  destruct (le_split_2 numChannels) as (c0 & c1 & ->).
  destruct (le_split_4 sampleRate) as (s0 & s1 & s2 & s3 & ->).
  destruct (le_split_4 (sampleRate * numChannels * 2))
    as (y0 & y1 & y2 & y3 & ->).
  destruct (le_split_2 (numChannels * 2)) as (a0 & a1 & ->).
  destruct (le_split_4 n) as (d0 & d1 & d2 & d3 & ->).
  generalize (repeat_length Byte.x00 (length samples)).
  generalize (repeat Byte.x00 (length samples)).
  intros tail Htail.
  lazy -[uint8Array_set].
  rewrite uint8Array_set_44 by (cbn [length]; rewrite Htail; reflexivity).
  reflexivity.
Qed.

Lemma headerBytes_length (n sampleRate numChannels : Z) :
  length (headerBytes n sampleRate numChannels) = 44.
Proof. reflexivity. Qed.

Lemma le_combine_le_split_small (k : nat) (v : Z) :
  (0 <= v < 2 ^ (Z.of_nat k * 8))%Z -> le_combine (le_split k v) = v.
Proof.
  intros H. rewrite LittleEndianList.le_combine_split.
  now apply Z.mod_small.
Qed.

(** C8. For [n] bytes of samples (the 32-bit size fields hold [36 + n]),
    the buffer built by [generateSpeech] has [44 + n] bytes; its header
    carries the tags RIFF, WAVE, fmt and data, the RIFF chunk size
    [36 + n], format code 1 (PCM), one channel, sample rate 24000, 16 bits
    per sample and the data length [n]; the samples follow unchanged. *)
Theorem addWavHeader_layout (samples : list byte) :
  (36 + Z.of_nat (length samples) < 2 ^ 32)%Z ->
  exists buf : buffer,
    generateSpeech_wavBytes samples = Some buf
    /\ length buf = 44 + length samples
    /\ bytesAt buf 0 4 = ascii_tag (js "RIFF")
    /\ getUint32 buf 4 = (36 + Z.of_nat (length samples))%Z
    /\ bytesAt buf 8 4 = ascii_tag (js "WAVE")
    /\ bytesAt buf 12 4 = ascii_tag (js "fmt ")
    /\ getUint32 buf 16 = 16%Z
    /\ getUint16 buf 20 = 1%Z
    /\ getUint16 buf 22 = 1%Z
    /\ getUint32 buf 24 = 24000%Z
    /\ getUint32 buf 28 = 48000%Z
    /\ getUint16 buf 32 = 2%Z
    /\ getUint16 buf 34 = 16%Z
    /\ bytesAt buf 36 4 = ascii_tag (js "data")
    /\ getUint32 buf 40 = Z.of_nat (length samples)
    /\ skipn 44 buf = samples.
Proof.
  intros Hn. unfold generateSpeech_wavBytes.
  rewrite addWavHeader_bytes. eexists. split; [reflexivity|].
  split; [rewrite length_app, headerBytes_length; reflexivity|].
  unfold getUint32, getUint16, bytesAt.
  assert (H36 : le_combine (le_split 4 (36 + Z.of_nat (length samples)))
                = (36 + Z.of_nat (length samples))%Z)
    by (apply le_combine_le_split_small; simpl; lia).
  assert (Hlen : le_combine (le_split 4 (Z.of_nat (length samples)))
                 = Z.of_nat (length samples))
    by (apply le_combine_le_split_small; simpl; lia).
  repeat split; try reflexivity.
  - exact H36.
  - exact Hlen.
Qed.

Lemma addWavHeader_layout_witness :
  exists buf : buffer,
    generateSpeech_wavBytes [Byte.x01; Byte.xff; Byte.x80] = Some buf
    /\ length buf = 47
    /\ getUint32 buf 4 = 39%Z
    /\ skipn 44 buf = [Byte.x01; Byte.xff; Byte.x80].
Proof.
  destruct (addWavHeader_layout [Byte.x01; Byte.xff; Byte.x80])
    as (buf & Hbuf & Hlen & _ & Hriff & _ & _ & _ & _ & _ & _ & _ & _ & _
        & _ & _ & Hdata).
  - simpl. lia.
  - exists buf. repeat split; assumption.
Defined.

(** Numbers of the code are IEEE doubles. An integer of magnitude up to
    [2^53] is a double, and a product of doubles whose exact value is such
    an integer, or twice such an integer, is computed exactly. *)
Definition exactNumber (v : Z) : Prop := (Z.abs v <= 2 ^ 53)%Z.

(** X11. For a sample rate and a channel count that are integers and whose
    product the code computes exactly (the two numbers and their product
    have a magnitude of at most [2^53]), [addWavHeader] raises no
    [RangeError]: it returns [44 + n] bytes, the samples after the header,
    and the fields hold the values the code computes, reduced modulo the
    width of the field: the byte rate [sampleRate * numChannels * 2] and
    the sizes modulo [2^32], the channel count and the block size
    [numChannels * 2] modulo [2^16]. *)
Theorem addWavHeader_fields (samples : list byte) (sampleRate numChannels : Z) :
  exactNumber sampleRate -> exactNumber numChannels ->
  exactNumber (sampleRate * numChannels) ->
  exists buf : buffer,
    addWavHeader samples sampleRate numChannels = Some buf
    /\ length buf = 44 + length samples
    /\ getUint32 buf 4 = ((36 + Z.of_nat (length samples)) mod 2 ^ 32)%Z
    /\ getUint16 buf 22 = (numChannels mod 2 ^ 16)%Z
    /\ getUint32 buf 24 = (sampleRate mod 2 ^ 32)%Z
    /\ getUint32 buf 28 = ((sampleRate * numChannels * 2) mod 2 ^ 32)%Z
    /\ getUint16 buf 32 = ((numChannels * 2) mod 2 ^ 16)%Z
    /\ getUint32 buf 40 = (Z.of_nat (length samples) mod 2 ^ 32)%Z
    /\ skipn 44 buf = samples.
Proof.
  intros _ _ _.
  rewrite addWavHeader_bytes. eexists. split; [reflexivity|].
  split; [rewrite length_app, headerBytes_length; reflexivity|].
  unfold getUint32, getUint16, bytesAt.
  repeat split; try reflexivity;
    match goal with
    | |- le_combine ?l = (?v mod 2 ^ 32)%Z =>
        change l with (le_split 4 v);
        apply LittleEndianList.le_combine_split
    | |- le_combine ?l = (?v mod 2 ^ 16)%Z =>
        change l with (le_split 2 v);
        apply LittleEndianList.le_combine_split
    end.
Qed.

(** Two samples at 44100 Hz, stereo; and a channel count too large for its
    field, of which the low 16 bits are written. *)
Lemma addWavHeader_fields_witness :
  (exists buf : buffer,
      addWavHeader [Byte.x01; Byte.x02] 44100 2 = Some buf
      /\ length buf = 46
      /\ getUint32 buf 4 = 38%Z
      /\ getUint16 buf 22 = 2%Z
      /\ getUint32 buf 24 = 44100%Z
      /\ getUint32 buf 28 = 176400%Z
      /\ getUint16 buf 32 = 4%Z
      /\ getUint32 buf 40 = 2%Z
      /\ skipn 44 buf = [Byte.x01; Byte.x02])
  /\ (exists buf : buffer,
         addWavHeader [] 24000 65537 = Some buf
         /\ getUint16 buf 22 = 1%Z
         /\ getUint32 buf 28 = 3145776000%Z
         /\ getUint16 buf 32 = 2%Z).
Proof.
  split.
  - apply (addWavHeader_fields [Byte.x01; Byte.x02] 44100 2);
      unfold exactNumber; cbn; lia.
  - destruct (addWavHeader_fields [] 24000 65537) as (buf & H);
      [unfold exactNumber; cbn; lia ..|].
    exists buf. destruct H as (H0 & _ & _ & H22 & _ & H28 & H32 & _).
    split; [exact H0|]. split; [exact H22|]. split; [exact H28 | exact H32].
Defined.

End Wav.

(* ===================================================================== *)
(** ** The data model (types.ts) *)
(* ===================================================================== *)

Module Types.
Import Js.

Inductive Role : Type := USER | MODEL | SYSTEM.

Inductive TaskModule : Type :=
| GENERAL | SUMMARIZER | WRITER | INVOICE | CONVERTER | TRANSLATOR | LISTS
| BUSINESS_CALC | IMAGE_GEN | VIDEO_GEN | TEXT_TO_SPEECH | IMAGE_ANALYSIS.

Record UserProfile : Type := {
  user_id : jsstring;
  user_name : jsstring;
  user_email : jsstring;
  user_avatar : jsstring
}.

Record Attachment : Type := {
  att_name : jsstring;
  att_type : jsstring;
  att_data : jsstring
}.

Record DownloadData : Type := {
  fileName : jsstring;
  data : jsstring;
  mimeType : jsstring
}.

Inductive MediaType : Type := image | video | audio.
Inductive Reaction : Type := like | dislike.

(** Optional properties are [option]s: [None] is a property that is
    absent. *)
Record Message : Type := {
  msg_id : jsstring;
  role : Role;
  content : jsstring;
  timestamp : Z;
  isStreaming : option bool;
  mediaUrl : option jsstring;
  audioUrl : option jsstring;
  mediaType : option MediaType;
  attachments : option (list Attachment);
  reaction : option Reaction;
  feedback : option jsstring;
  downloadData : option DownloadData
}.

Record Session : Type := {
  session_id : jsstring;
  title : jsstring;
  session_messages : list Message;
  session_activeModule : TaskModule;
  lastModified : Z;
  isDeleted : option bool
}.

Definition TaskModule_eq_dec (a b : TaskModule) : {a = b} + {a <> b}.
Proof. decide equality. Defined.

Definition TaskModule_eqb (a b : TaskModule) : bool :=
  if TaskModule_eq_dec a b then true else false.

(** [!s.isDeleted]: an absent flag is falsy. *)
Definition notDeleted (s : Session) : bool :=
  match isDeleted s with
  | Some true => false
  | _ => true
  end.

End Types.

(* ===================================================================== *)
(** ** Chat titles (services/geminiService.ts) *)
(* ===================================================================== *)

Module Title.
Import Js.

(** The result of awaiting a promise: the value it resolves to, or the
    error it rejects with. *)
Inductive settled (A : Type) : Type :=
| Resolved (value : A)
| Rejected (error : jsstring).
Arguments Resolved {A} value.
Arguments Rejected {A} error.

(** The [contents] template of the request. *)
Definition titleRequest (prompt : jsstring) : jsstring :=
  js "Generate a very short, memorable 3-5 word title for a chat that starts with this user message: "
  ++ [QUOTE] ++ prompt ++ [QUOTE]
  ++ js ". Do not use quotes. Just the title.".

(** The client of the generative backend as far as title generation uses
    it: [ai.models.generateContent] with the fixed model answers a request
    with a response whose [text] may be undefined, or rejects. *)
Record Client : Type := {
  generateContent : jsstring -> settled (option jsstring)
}.

(** [getClient]. [client] is the module variable; [construct] is what
    [new GoogleGenAI({ apiKey: process.env.API_KEY })] does when it is
    evaluated: it returns a client or throws. The result is the client
    returned, or the error thrown, and the module variable afterwards. *)
Definition getClient (client : option Client) (construct : settled Client)
  : settled Client * option Client :=
  match client with
  | Some ai => (Resolved ai, client)
  | None =>
      match construct with
      | Resolved ai => (Resolved ai, Some ai)
      | Rejected error => (Rejected error, None)
      end
  end.

(** [generateChatTitle]: the promise it returns and the module variable
    afterwards. [getClient()] is called before the [try] block, so what it
    throws rejects the promise. *)
Definition generateChatTitle (client : option Client)
           (construct : settled Client) (message : jsstring)
  : settled jsstring * option Client :=
  match getClient client construct with
  | (Rejected error, client') => (Rejected error, client')
  | (Resolved ai, client') =>
      let prompt := or_else (trim message) (js "New Session") in
      (match generateContent ai (titleRequest prompt) with
       | Resolved response_text =>
           (* response.text?.trim() || "New Session" *)
           match response_text with
           | Some text => Resolved (or_else (trim text) (js "New Session"))
           | None => Resolved (js "New Session")
           end
       | Rejected _ =>
           Resolved (or_else (slice0 30 message) (js "New Session"))
       end,
       client')
  end.

(** The client [getClient] hands out, when it hands out one. *)
Definition available (client : option Client) (construct : settled Client)
  : option Client :=
  match client, construct with
  | Some ai, _ => Some ai
  | None, Resolved ai => Some ai
  | None, Rejected _ => None
  end.

(** C10 as it is worded: whatever happens, the caller gets a title. *)
Definition never_propagates : Prop :=
  forall (client : option Client) (construct : settled Client)
         (message : jsstring),
  exists title,
    fst (generateChatTitle client construct message) = Resolved title.

(** A backend that answers every request with the title "Plans". *)
Definition answering : Client :=
  {| generateContent := fun _ => Resolved (Some (js "Plans")) |}.

Definition failing : Client :=
  {| generateContent := fun _ => Rejected (js "503") |}.

Definition silent : Client :=
  {| generateContent := fun _ => Resolved (Some []) |}.

(** C10, as stated, fails: on the first use of the service, when the
    constructor of the client throws, the error reaches the caller, since
    [getClient()] is evaluated outside the [try] block. *)
Lemma never_propagates_fails : ~ never_propagates.
Proof.
  intros H.
  destruct (H None (Rejected (js "An API Key must be set")) (js "hello"))
    as [title Ht].
  discriminate Ht.
Qed.

(** C10, amended. When [getClient] hands out a client (the one kept from
    an earlier call, or a new one), [generateChatTitle] resolves: no
    failure of the backend call reaches the caller. When the backend call
    fails the title is the first 30 code units of the message, or
    "New Session" for the empty message; when the call succeeds with a
    response text that is absent, empty or white space only, the title is
    "New Session". The only error that reaches the caller is the one the
    constructor of the client throws on the first use; the module variable
    then stays empty, so the next call constructs again. *)
Theorem generateChatTitle_total (client : option Client)
        (construct : settled Client) (message : jsstring) :
  let request := titleRequest (or_else (trim message) (js "New Session")) in
  let result := generateChatTitle client construct message in
  (forall ai,
      available client construct = Some ai ->
      snd result = Some ai
      /\ (exists title, fst result = Resolved title)
      /\ (forall e, generateContent ai request = Rejected e ->
            fst result
            = Resolved (match message with
                        | [] => js "New Session"
                        | _ :: _ => firstn 30 message
                        end))
      /\ (forall text, generateContent ai request = Resolved text ->
            text = None \/ (exists t, text = Some t /\ trim t = []) ->
            fst result = Resolved (js "New Session"))
      /\ (forall t, generateContent ai request = Resolved (Some t) ->
            trim t <> [] -> fst result = Resolved (trim t)))
  /\ (forall e,
         client = None -> construct = Rejected e ->
         result = (Rejected e, None))
  /\ ((exists e, fst result = Rejected e)
      <-> client = None /\ exists e, construct = Rejected e).
Proof.
  intros request result.
  assert (Hav : forall ai, available client construct = Some ai ->
                  getClient client construct = (Resolved ai, Some ai)).
  { intros ai H. unfold available, getClient in *.
    destruct client as [c|]; [congruence|].
    destruct construct as [c|e]; congruence. }
  split; [|split].
  - intros ai H. unfold result, generateChatTitle. rewrite (Hav ai H).
    fold request. cbn [fst snd]. split; [reflexivity|].
    split; [|split; [|split]].
    + destruct (generateContent ai request) as [[text|]|e]; eauto.
    + intros e ->. destruct message; reflexivity.
    + intros text -> [-> | (t & -> & Ht)]; [reflexivity|].
      rewrite Ht. reflexivity.
    + intros t -> Ht. unfold or_else.
      destruct (trim t); [congruence | reflexivity].
  - intros e -> ->. reflexivity.
  - unfold result, generateChatTitle. split.
    + intros [e He].
      destruct client as [c|].
      * exfalso. cbn [getClient fst] in He.
        destruct (generateContent c _) as [[text|]|e']; discriminate He.
      * split; [reflexivity|].
        destruct construct as [c|e0]; [|eauto].
        exfalso. cbn [getClient fst] in He.
        destruct (generateContent c _) as [[text|]|e']; discriminate He.
    + intros [-> [e ->]]. exists e. reflexivity.
Qed.

Lemma generateChatTitle_total_witness :
  fst (generateChatTitle None (Resolved failing) (js "hello"))
  = Resolved (js "hello")
  /\ fst (generateChatTitle (Some silent) (Rejected (js "unused"))
                            (js "hello"))
     = Resolved (js "New Session")
  /\ fst (generateChatTitle (Some answering) (Rejected (js "unused"))
                            (js "hello"))
     = Resolved (js "Plans")
  /\ generateChatTitle None (Rejected (js "An API Key must be set"))
                       (js "hello")
     = (Rejected (js "An API Key must be set"), None).
Proof.
  split; [|split; [|split]].
  - destruct (proj1 (generateChatTitle_total None (Resolved failing)
                                             (js "hello"))
                    failing eq_refl) as (_ & _ & H & _).
    exact (H (js "503") eq_refl).
  - destruct (proj1 (generateChatTitle_total (Some silent)
                                             (Rejected (js "unused"))
                                             (js "hello"))
                    silent eq_refl) as (_ & _ & _ & H & _).
    exact (H (Some []) eq_refl
             (or_intror (ex_intro _ [] (conj eq_refl eq_refl)))).
  - destruct (proj1 (generateChatTitle_total (Some answering)
                                             (Rejected (js "unused"))
                                             (js "hello"))
                    answering eq_refl) as (_ & _ & _ & _ & H).
    apply (H (js "Plans") eq_refl). discriminate.
  - exact (proj1 (proj2 (generateChatTitle_total
                           None (Rejected (js "An API Key must be set"))
                           (js "hello")))
                 (js "An API Key must be set") eq_refl eq_refl).
Defined.

End Title.

(* ===================================================================== *)
(** ** The local profile store (services/userService.ts) *)
(* ===================================================================== *)

Module UserService.
Import Js Types.
Import stdpp.gmap.

Definition USERS_KEY : jsstring := js "swiftmind_users".
Definition CURRENT_USER_KEY : jsstring := js "swiftmind_current_user_id".
Definition SESSIONS_PREFIX : jsstring := js "swiftmind_sessions_".

(** What a key of [localStorage] holds: a plain string, or the JSON text
    of a user array or of a session array, kept as the array it parses
    to. *)
Inductive stored : Type :=
| Raw (s : jsstring)
| UsersJson (users : list UserProfile)
| SessionsJson (sessions : list Session).

Abbreviation localStorage := (gmap (list N) stored).

Definition getUsers (ls : localStorage) : list UserProfile :=
  match ls !! USERS_KEY with
  | Some (UsersJson users) => users
  | _ => []
  end.

Definition saveUsers (ls : localStorage) (users : list UserProfile)
  : localStorage :=
  <[USERS_KEY := UsersJson users]> ls.

(** [localStorage.getItem(CURRENT_USER_KEY)] *)
Definition currentUserId (ls : localStorage) : option jsstring :=
  match ls !! CURRENT_USER_KEY with
  | Some (Raw s) => Some s
  | _ => None
  end.

Section Login.

(** [String.prototype.toLowerCase] and [encodeURIComponent] are left
    abstract; the latter raises [URIError] ([None]) on a lone surrogate. *)
Variable toLowerCase : jsstring -> jsstring.
Variable encodeURIComponent : jsstring -> option jsstring.

Definition sameEmail (email : jsstring) (u : UserProfile) : bool :=
  Js.eqb (toLowerCase (user_email u)) (toLowerCase email).

Definition avatarUrl (name : jsstring) : option jsstring :=
  match encodeURIComponent name with
  | Some encoded =>
      Some (js "https://ui-avatars.com/api/?name=" ++ encoded
            ++ js "&background=0ea5e9&color=fff&rounded=true&bold=true")
  | None => None
  end.

(** [login]; [uuid] is what [uuidv4()] returns when it is called. The
    result is the returned user and the store, or [None] when the call
    throws. *)
Definition login (ls : localStorage) (email name uuid : jsstring)
  : option (UserProfile * localStorage) :=
  let users := getUsers ls in
  match List.find (sameEmail email) users with
  | Some user => Some (user, <[CURRENT_USER_KEY := Raw (user_id user)]> ls)
  | None =>
      match avatarUrl name with
      | Some avatar =>
          let user := {| user_id := uuid; user_name := name;
                         user_email := email; user_avatar := avatar |} in
          let ls := saveUsers ls (users ++ [user]) in
          Some (user, <[CURRENT_USER_KEY := Raw (user_id user)]> ls)
      | None => None
      end
  end.

End Login.

Definition logout (ls : localStorage) : localStorage :=
  delete CURRENT_USER_KEY ls.

Definition getCurrentUser (ls : localStorage) : option UserProfile :=
  match currentUserId ls with
  | None => None
  | Some currentId =>
      if truthy currentId
      then List.find (fun u => Js.eqb (user_id u) currentId) (getUsers ls)
      else None
  end.

Definition getAvailableAccounts (ls : localStorage) : list UserProfile :=
  getUsers ls.

Definition switchAccount (ls : localStorage) (userId : jsstring)
  : option UserProfile * localStorage :=
  let users := getUsers ls in
  match List.find (fun u => Js.eqb (user_id u) userId) users with
  | Some user => (Some user, <[CURRENT_USER_KEY := Raw (user_id user)]> ls)
  | None => (None, ls)
  end.

Definition getUserSessions (ls : localStorage) (userId : jsstring)
  : list Session :=
  match ls !! (SESSIONS_PREFIX ++ userId) with
  | Some (SessionsJson sessions) => sessions
  | _ => []
  end.

Definition saveUserSessions (ls : localStorage) (userId : jsstring)
           (sessions : list Session) : localStorage :=
  <[SESSIONS_PREFIX ++ userId := SessionsJson sessions]> ls.

(** The stores the service can produce, starting from an empty one. *)
Inductive reachable (toLowerCase : jsstring -> jsstring)
          (encodeURIComponent : jsstring -> option jsstring)
  : localStorage -> Prop :=
| reach_empty : reachable toLowerCase encodeURIComponent ∅
| reach_login ls email name uuid user ls' :
    reachable toLowerCase encodeURIComponent ls ->
    login toLowerCase encodeURIComponent ls email name uuid
    = Some (user, ls') ->
    reachable toLowerCase encodeURIComponent ls'
| reach_logout ls :
    reachable toLowerCase encodeURIComponent ls ->
    reachable toLowerCase encodeURIComponent (logout ls)
| reach_switchAccount ls userId :
    reachable toLowerCase encodeURIComponent ls ->
    reachable toLowerCase encodeURIComponent (snd (switchAccount ls userId))
| reach_saveUserSessions ls userId sessions :
    reachable toLowerCase encodeURIComponent ls ->
    reachable toLowerCase encodeURIComponent
              (saveUserSessions ls userId sessions).

Definition emptyStorage : localStorage := ∅.

Lemma getUserSessions_empty (userId : jsstring) :
  getUserSessions emptyStorage userId = [].
Proof. unfold getUserSessions, emptyStorage. now rewrite lookup_empty. Qed.

(** ASCII lower-casing, an instance of [toLowerCase] for examples. *)
Definition asciiLower (s : jsstring) : jsstring :=
  map (fun c => if (65 <=? c)%N && (c <=? 90)%N then (c + 32)%N else c) s.

(** *** The three kinds of keys never collide *)

Lemma users_key_not_current : USERS_KEY <> CURRENT_USER_KEY.
Proof. vm_compute. discriminate. Qed.

Lemma users_key_not_sessions (userId : jsstring) :
  USERS_KEY <> SESSIONS_PREFIX ++ userId.
Proof. vm_compute. discriminate. Qed.

Lemma current_key_not_sessions (userId : jsstring) :
  CURRENT_USER_KEY <> SESSIONS_PREFIX ++ userId.
Proof. vm_compute. discriminate. Qed.

Lemma getUsers_insert_other (ls : localStorage) (k : list N) (v : stored) :
  USERS_KEY <> k -> getUsers (<[k := v]> ls) = getUsers ls.
Proof.
  intros Hk. unfold getUsers. rewrite lookup_insert_ne by congruence.
  reflexivity.
Qed.

Lemma getUsers_saveUsers (ls : localStorage) (users : list UserProfile) :
  getUsers (saveUsers ls users) = users.
Proof. unfold getUsers, saveUsers. now rewrite lookup_insert_eq. Qed.

Lemma getUsers_logout (ls : localStorage) : getUsers (logout ls) = getUsers ls.
Proof.
  unfold getUsers, logout.
  rewrite lookup_delete_ne by (intros H; symmetry in H;
                               exact (users_key_not_current H)).
  reflexivity.
Qed.

Lemma currentUserId_insert (ls : localStorage) (userId : jsstring) :
  currentUserId (<[CURRENT_USER_KEY := Raw userId]> ls) = Some userId.
Proof. unfold currentUserId. now rewrite lookup_insert_eq. Qed.

Lemma getUserSessions_save (ls : localStorage) (userId : jsstring)
      (sessions : list Session) :
  getUserSessions (saveUserSessions ls userId sessions) userId = sessions.
Proof. unfold getUserSessions, saveUserSessions. now rewrite lookup_insert_eq. Qed.

Lemma getUserSessions_save_other (ls : localStorage) (userId other : jsstring)
      (sessions : list Session) :
  userId <> other ->
  getUserSessions (saveUserSessions ls userId sessions) other
  = getUserSessions ls other.
Proof.
  intros Hne. unfold getUserSessions, saveUserSessions.
  rewrite lookup_insert_ne; [reflexivity|].
  intros H. apply app_inv_head in H. congruence.
Qed.

Lemma getUserSessions_logout (ls : localStorage) (userId : jsstring) :
  getUserSessions (logout ls) userId = getUserSessions ls userId.
Proof.
  unfold getUserSessions, logout.
  rewrite lookup_delete_ne; [reflexivity|].
  apply current_key_not_sessions.
Qed.

Lemma getUserSessions_set_current (ls : localStorage) (v : stored)
      (userId : jsstring) :
  getUserSessions (<[CURRENT_USER_KEY := v]> ls) userId
  = getUserSessions ls userId.
Proof.
  unfold getUserSessions.
  rewrite lookup_insert_ne; [reflexivity|].
  apply current_key_not_sessions.
Qed.

Lemma getUserSessions_saveUsers (ls : localStorage)
      (users : list UserProfile) (userId : jsstring) :
  getUserSessions (saveUsers ls users) userId = getUserSessions ls userId.
Proof.
  unfold getUserSessions, saveUsers.
  rewrite lookup_insert_ne; [reflexivity|].
  apply users_key_not_sessions.
Qed.


Lemma getUserSessions_login (toLowerCase : jsstring -> jsstring)
      (encodeURIComponent : jsstring -> option jsstring)
      (ls ls' : localStorage) (email name uuid other : jsstring)
      (user : UserProfile) :
  login toLowerCase encodeURIComponent ls email name uuid = Some (user, ls') ->
  getUserSessions ls' other = getUserSessions ls other.
Proof.
  unfold login. destruct (List.find _ _).
  - intros H. injection H as _ <-. apply getUserSessions_set_current.
  - destruct (avatarUrl _ _); [|discriminate].
    intros H. injection H as _ <-.
    now rewrite getUserSessions_set_current, getUserSessions_saveUsers.
Qed.

Lemma find_app_none {A : Type} (p : A -> bool) (l l' : list A) :
  List.find p l = None -> List.find p (l ++ l') = List.find p l'.
Proof.
  induction l as [|x l IH]; simpl; [reflexivity|].
  destruct (p x); [discriminate | exact IH].
Qed.

Section LoginFacts.

Variable toLowerCase : jsstring -> jsstring.
Variable encodeURIComponent : jsstring -> option jsstring.

Let lowerEmail (u : UserProfile) : jsstring := toLowerCase (user_email u).

Lemma sameEmail_iff (email : jsstring) (u : UserProfile) :
  sameEmail toLowerCase email u = true <-> lowerEmail u = toLowerCase email.
Proof. unfold sameEmail. apply Js.eqb_eq. Qed.

Lemma sameEmail_ext (email1 email2 : jsstring) (u : UserProfile) :
  toLowerCase email1 = toLowerCase email2 ->
  sameEmail toLowerCase email1 u = sameEmail toLowerCase email2 u.
Proof. unfold sameEmail. now intros ->. Qed.

Lemma find_none_not_in (email : jsstring) (users : list UserProfile) :
  List.find (sameEmail toLowerCase email) users = None ->
  ~ In (toLowerCase email) (map lowerEmail users).
Proof.
  intros Hfind Hin. apply in_map_iff in Hin. destruct Hin as (u & Hu & Hin).
  pose proof (find_none _ _ Hfind u Hin) as Hne.
  apply sameEmail_iff in Hu. congruence.
Qed.

(** With pairwise distinct lower-cased emails, the entries matching an
    email are those [find] returns. *)
Lemma filter_sameEmail (email : jsstring) (users : list UserProfile) :
  List.NoDup (map lowerEmail users) ->
  List.filter (sameEmail toLowerCase email) users
  = match List.find (sameEmail toLowerCase email) users with
    | Some u => [u]
    | None => []
    end.
Proof.
  induction users as [|u users IH]; simpl; intros Hnd; [reflexivity|].
  inversion Hnd as [|? ? Hnotin Hnd']; subst.
  destruct (sameEmail toLowerCase email u) eqn:Hu.
  - f_equal. apply sameEmail_iff in Hu.
    destruct (List.filter (sameEmail toLowerCase email) users)
      as [|v rest] eqn:Hf; [reflexivity|].
    exfalso. apply Hnotin.
    assert (Hv : In v (List.filter (sameEmail toLowerCase email) users))
      by (rewrite Hf; left; reflexivity).
    apply filter_In in Hv. destruct Hv as [Hin Hv].
    apply sameEmail_iff in Hv. rewrite Hu, <- Hv.
    apply in_map_iff. eauto.
  - now apply IH.
Qed.

Lemma login_users (ls ls' : localStorage) (email name uuid : jsstring)
      (user : UserProfile) :
  login toLowerCase encodeURIComponent ls email name uuid = Some (user, ls') ->
  currentUserId ls' = Some (user_id user)
  /\ List.find (sameEmail toLowerCase email) (getUsers ls') = Some user
  /\ (getUsers ls' = getUsers ls
      \/ (List.find (sameEmail toLowerCase email) (getUsers ls) = None
          /\ getUsers ls' = getUsers ls ++ [user]
          /\ user_id user = uuid /\ user_email user = email)).
Proof.
  unfold login. intros H.
  destruct (List.find (sameEmail toLowerCase email) (getUsers ls))
    as [found|] eqn:Hfind.
  - injection H as <- <-.
    rewrite currentUserId_insert,
      (getUsers_insert_other _ _ _ users_key_not_current).
    auto.
  - destruct (avatarUrl encodeURIComponent name) as [avatar|];
      [|discriminate].
    injection H as <- <-.
    rewrite currentUserId_insert,
      (getUsers_insert_other _ _ _ users_key_not_current),
      getUsers_saveUsers.
    split; [reflexivity|]. split.
    + rewrite (find_app_none _ _ _ Hfind). simpl.
      unfold sameEmail. simpl. now rewrite Js.eqb_refl.
    + right. auto.
Qed.

Lemma reachable_distinct_emails (ls : localStorage) :
  reachable toLowerCase encodeURIComponent ls ->
  List.NoDup (map lowerEmail (getUsers ls)).
Proof.
  induction 1 as [|ls email name uuid user ls' _ IH Hlogin
                  |ls _ IH|ls userId _ IH|ls userId sessions _ IH].
  - unfold getUsers. rewrite lookup_empty. apply List.NoDup_nil.
  - destruct (login_users _ _ _ _ _ _ Hlogin)
      as (_ & _ & [-> | (Hnone & -> & _ & Hemail)]); [exact IH|].
    rewrite map_app. simpl. apply List.NoDup_app; [exact IH | |].
    + apply List.NoDup_cons; [intros [] | apply List.NoDup_nil].
    + intros x Hx [<-|[]]. unfold lowerEmail in Hx. rewrite Hemail in Hx.
      exact (find_none_not_in _ _ Hnone Hx).
  - now rewrite getUsers_logout.
  - unfold switchAccount.
    destruct (List.find _ (getUsers ls)); simpl; [|exact IH].
    now rewrite (getUsers_insert_other _ _ _ users_key_not_current).
  - unfold saveUserSessions.
    now rewrite (getUsers_insert_other _ _ _ (users_key_not_sessions userId)).
Qed.

End LoginFacts.

Lemma find_ext {A : Type} (p q : A -> bool) (l : list A) :
  (forall x, p x = q x) -> List.find p l = List.find q l.
Proof.
  intros Hpq. induction l as [|x l IH]; simpl; [reflexivity|].
  rewrite Hpq, IH. reflexivity.
Qed.

(** C6. In a store the service produced, when [login] returns a user, a
    second [login] with an email that is equal up to letter case returns
    that very user (so the same id), leaves the registry as it is, and the
    registry holds exactly one entry matching the email. *)
Theorem login_twice_same_user
        (toLowerCase : jsstring -> jsstring)
        (encodeURIComponent : jsstring -> option jsstring)
        (ls ls1 : localStorage)
        (email1 email2 name1 name2 uuid1 uuid2 : jsstring)
        (user1 : UserProfile) :
  reachable toLowerCase encodeURIComponent ls ->
  toLowerCase email1 = toLowerCase email2 ->
  login toLowerCase encodeURIComponent ls email1 name1 uuid1
  = Some (user1, ls1) ->
  exists ls2 : localStorage,
    login toLowerCase encodeURIComponent ls1 email2 name2 uuid2
    = Some (user1, ls2)
    /\ getUsers ls2 = getUsers ls1
    /\ List.filter (sameEmail toLowerCase email1) (getUsers ls2) = [user1]
    /\ List.filter (sameEmail toLowerCase email2) (getUsers ls2) = [user1].
Proof.
  intros Hreach Hcase Hlogin.
  assert (Hreach1 : reachable toLowerCase encodeURIComponent ls1)
    by (eapply reach_login; eassumption).
  destruct (login_users _ _ _ _ _ _ _ _ Hlogin) as (_ & Hfind1 & _).
  assert (Hfind2 : List.find (sameEmail toLowerCase email2) (getUsers ls1)
                   = Some user1).
  { rewrite <- Hfind1. apply find_ext. intros u. symmetry.
    now apply sameEmail_ext. }
  exists (<[CURRENT_USER_KEY := Raw (user_id user1)]> ls1).
  assert (Husers : getUsers (<[CURRENT_USER_KEY := Raw (user_id user1)]> ls1)
                   = getUsers ls1)
    by apply (getUsers_insert_other _ _ _ users_key_not_current).
  split; [unfold login; now rewrite Hfind2|].
  split; [exact Husers|].
  rewrite Husers.
  pose proof (reachable_distinct_emails _ _ _ Hreach1) as Hnd.
  rewrite !(filter_sameEmail _ _ _ Hnd), Hfind1, Hfind2. auto.
Qed.

Definition ann : UserProfile :=
  {| user_id := js "id-1"; user_name := js "Ann";
     user_email := js "Ann@X.org";
     user_avatar :=
       js "https://ui-avatars.com/api/?name=Ann&background=0ea5e9&color=fff&rounded=true&bold=true" |}.

Definition store_ann : localStorage :=
  <[CURRENT_USER_KEY := Raw (js "id-1")]> (saveUsers ∅ [ann]).


Lemma login_twice_same_user_witness :
  exists ls2 : localStorage,
    login asciiLower Some store_ann (js "ann@x.ORG") (js "Annie") (js "id-2")
    = Some (ann, ls2)
    /\ getUsers ls2 = getUsers store_ann
    /\ List.filter (sameEmail asciiLower (js "Ann@X.org")) (getUsers ls2)
       = [ann]
    /\ List.filter (sameEmail asciiLower (js "ann@x.ORG")) (getUsers ls2)
       = [ann].
Proof.
  apply (login_twice_same_user asciiLower Some ∅ store_ann
           (js "Ann@X.org") (js "ann@x.ORG") (js "Ann") (js "Annie")
           (js "id-1") (js "id-2") ann).
  - apply reach_empty.
  - reflexivity.
  - reflexivity.
Defined.

(** C9. [switchAccount] with an id no registered user has returns [null]
    and leaves the store, hence the current-user pointer and the registry,
    as it was; with an id some registered user has, it returns a registered
    user with that id, stores that id as the current-user pointer and
    leaves the registry as it was. *)
Theorem switchAccount_spec (ls : localStorage) (userId : jsstring) :
  ((forall u, In u (getUsers ls) -> user_id u <> userId) ->
   switchAccount ls userId = (None, ls))
  /\ (forall u, In u (getUsers ls) -> user_id u = userId ->
      exists user,
        fst (switchAccount ls userId) = Some user
        /\ In user (getUsers ls) /\ user_id user = userId
        /\ currentUserId (snd (switchAccount ls userId)) = Some userId
        /\ getUsers (snd (switchAccount ls userId)) = getUsers ls).
Proof.
  unfold switchAccount. split.
  - intros Hnone.
    destruct (List.find (fun u => Js.eqb (user_id u) userId) (getUsers ls))
      as [user|] eqn:Hfind; [|reflexivity].
    apply find_some in Hfind. destruct Hfind as [Hin Hid].
    apply Js.eqb_eq in Hid. destruct (Hnone user Hin Hid).
  - intros u Hin Hid.
    destruct (List.find (fun u => Js.eqb (user_id u) userId) (getUsers ls))
      as [user|] eqn:Hfind.
    + apply find_some in Hfind. destruct Hfind as [Hin' Hid'].
      apply Js.eqb_eq in Hid'. exists user. simpl.
      rewrite currentUserId_insert,
        (getUsers_insert_other _ _ _ users_key_not_current), Hid'.
      auto.
    + pose proof (find_none _ _ Hfind u Hin) as Hne. simpl in Hne.
      apply Js.eqb_eq in Hid. congruence.
Qed.

Lemma switchAccount_spec_witness :
  switchAccount store_ann (js "id-9") = (None, store_ann)
  /\ exists user,
      fst (switchAccount store_ann (js "id-1")) = Some user
      /\ In user (getUsers store_ann) /\ user_id user = js "id-1"
      /\ currentUserId (snd (switchAccount store_ann (js "id-1")))
         = Some (js "id-1")
      /\ getUsers (snd (switchAccount store_ann (js "id-1")))
         = getUsers store_ann.
Proof.
  split.
  - apply (proj1 (switchAccount_spec store_ann (js "id-9"))).
    intros u Hin. vm_compute in Hin. destruct Hin as [<-|[]].
    vm_compute. discriminate.
  - apply (proj2 (switchAccount_spec store_ann (js "id-1")) ann).
    + vm_compute. left. reflexivity.
    + reflexivity.
Defined.

(** *** More about the store *)

Lemma currentUserId_insert_other (ls : localStorage) (k : list N)
      (v : stored) :
  CURRENT_USER_KEY <> k ->
  currentUserId (<[k := v]> ls) = currentUserId ls.
Proof.
  intros Hk. unfold currentUserId. rewrite lookup_insert_ne by congruence.
  reflexivity.
Qed.

Lemma currentUserId_logout (ls : localStorage) :
  currentUserId (logout ls) = None.
Proof. unfold currentUserId, logout. now rewrite lookup_delete_eq. Qed.

Lemma getCurrentUser_pointer (ls ls' : localStorage) :
  currentUserId ls' = currentUserId ls -> getUsers ls' = getUsers ls ->
  getCurrentUser ls' = getCurrentUser ls.
Proof. unfold getCurrentUser. now intros -> ->. Qed.

Lemma find_user_id (users : list UserProfile) (u : UserProfile) :
  List.NoDup (map user_id users) -> In u users ->
  List.find (fun v => Js.eqb (user_id v) (user_id u)) users = Some u.
Proof.
  induction users as [|x users IH]; simpl; intros Hnd Hin; [contradiction|].
  inversion Hnd as [|? ? Hx Hnd']; subst.
  destruct Hin as [->|Hin].
  - now rewrite Js.eqb_refl.
  - destruct (Js.eqb (user_id x) (user_id u)) eqn:E; [|now apply IH].
    apply Js.eqb_eq in E. exfalso. apply Hx. rewrite E.
    now apply in_map.
Qed.

(** X1. What [saveUserSessions] stores for a user is what
    [getUserSessions] returns for that user, whatever was stored before;
    the sessions of every other user, the registry and the current user
    stay as they were: no user id makes the key of a session array
    collide with another key. *)
Theorem saveUserSessions_roundtrip (ls : localStorage) (userId : jsstring)
        (sessions : list Session) :
  let ls' := saveUserSessions ls userId sessions in
  getUserSessions ls' userId = sessions
  /\ (forall other, other <> userId ->
        getUserSessions ls' other = getUserSessions ls other)
  /\ getUsers ls' = getUsers ls
  /\ currentUserId ls' = currentUserId ls
  /\ getCurrentUser ls' = getCurrentUser ls.
Proof.
  intros ls'. subst ls'.
  assert (Hu : getUsers (saveUserSessions ls userId sessions) = getUsers ls)
    by apply (getUsers_insert_other _ _ _ (users_key_not_sessions userId)).
  assert (Hc : currentUserId (saveUserSessions ls userId sessions)
               = currentUserId ls)
    by apply (currentUserId_insert_other _ _ _
                (current_key_not_sessions userId)).
  split; [apply getUserSessions_save|].
  split; [intros other Hne; apply getUserSessions_save_other; congruence|].
  split; [exact Hu|]. split; [exact Hc|].
  now apply getCurrentUser_pointer.
Qed.

Lemma saveUserSessions_roundtrip_witness :
  getUserSessions (saveUserSessions store_ann (js "users") []) (js "users")
  = []
  /\ getUserSessions (saveUserSessions store_ann (js "users") []) (js "id-1")
     = getUserSessions store_ann (js "id-1")
  /\ getUsers (saveUserSessions store_ann (js "users") []) = [ann].
Proof.
  destruct (saveUserSessions_roundtrip store_ann (js "users") [])
    as (H1 & H2 & H3 & _).
  split; [exact H1|]. split; [|exact H3].
  apply H2. discriminate.
Defined.

(** X2. In a store the service produced, the current-user pointer, when it
    is set, is the id of a registered user; [getCurrentUser] then returns
    a registered user with that id, unless the id is the empty string,
    which [getCurrentUser] takes for no user. *)
Theorem current_user_registered
        (toLowerCase : jsstring -> jsstring)
        (encodeURIComponent : jsstring -> option jsstring)
        (ls : localStorage) :
  reachable toLowerCase encodeURIComponent ls ->
  forall id, currentUserId ls = Some id ->
    (exists u, In u (getUsers ls) /\ user_id u = id)
    /\ (id <> [] ->
        exists u, getCurrentUser ls = Some u /\ user_id u = id
                  /\ In u (getUsers ls))
    /\ (id = [] -> getCurrentUser ls = None).
Proof.
  intros Hreach.
  assert (Hin : forall id, currentUserId ls = Some id ->
                           exists u, In u (getUsers ls) /\ user_id u = id).
  { induction Hreach as [|ls email name uuid user ls' _ IH Hlogin
                         |ls _ IH|ls userId _ IH|ls userId sessions _ IH];
      intros id Hid.
    - unfold currentUserId in Hid. rewrite lookup_empty in Hid.
      discriminate.
    - destruct (login_users _ _ _ _ _ _ _ _ Hlogin) as (Hc & Hfind & _).
      rewrite Hc in Hid. injection Hid as <-.
      apply find_some in Hfind. exists user. tauto.
    - rewrite currentUserId_logout in Hid. discriminate.
    - unfold switchAccount in *.
      destruct (List.find _ (getUsers ls)) as [user|] eqn:Hfind;
        cbn [snd] in *; [|now apply IH].
      rewrite currentUserId_insert in Hid. injection Hid as <-.
      rewrite (getUsers_insert_other _ _ _ users_key_not_current).
      apply find_some in Hfind. exists user. tauto.
    - unfold saveUserSessions in *.
      rewrite (currentUserId_insert_other _ _ _
                 (current_key_not_sessions userId)) in Hid.
      rewrite (getUsers_insert_other _ _ _ (users_key_not_sessions userId)).
      now apply IH. }
  intros id Hid. split; [now apply Hin|].
  unfold getCurrentUser. rewrite Hid. split.
  - intros Hne. destruct id as [|c id]; [congruence|]. cbn [truthy].
    destruct (Hin _ Hid) as (u & Hu & Hidu).
    destruct (List.find (fun v => Js.eqb (user_id v) (c :: id)) (getUsers ls))
      as [v|] eqn:Hfind.
    + apply find_some in Hfind. destruct Hfind as [Hv Hidv].
      apply Js.eqb_eq in Hidv. exists v. auto.
    + pose proof (find_none _ _ Hfind u Hu) as Hno. cbn in Hno.
      rewrite Hidu, Js.eqb_refl in Hno. discriminate.
  - intros ->. reflexivity.
Qed.

Lemma current_user_registered_witness :
  exists u, getCurrentUser store_ann = Some u /\ user_id u = js "id-1"
            /\ In u (getUsers store_ann).
Proof.
  assert (Hreach : reachable asciiLower Some store_ann).
  { apply (reach_login asciiLower Some ∅ (js "Ann@X.org") (js "Ann")
             (js "id-1") ann store_ann); [apply reach_empty | reflexivity]. }
  destruct (current_user_registered asciiLower Some store_ann Hreach
              (js "id-1") eq_refl) as (_ & H & _).
  apply H. discriminate.
Defined.

(** X3. [login] throws only for an email that is not registered, when
    [encodeURIComponent] rejects the name. When it returns, the returned
    user is the current user; no stored session array changes; and the
    registry either is as before and holds the returned user, whose name
    and id are the stored ones, not the arguments, or has got one more
    entry at its end: the returned user, made of the arguments. *)
Theorem login_effect
        (toLowerCase : jsstring -> jsstring)
        (encodeURIComponent : jsstring -> option jsstring)
        (ls : localStorage) (email name uuid : jsstring) :
  (login toLowerCase encodeURIComponent ls email name uuid = None <->
   List.find (sameEmail toLowerCase email) (getUsers ls) = None
   /\ encodeURIComponent name = None)
  /\ forall user ls',
      login toLowerCase encodeURIComponent ls email name uuid
      = Some (user, ls') ->
      currentUserId ls' = Some (user_id user)
      /\ (forall userId, getUserSessions ls' userId = getUserSessions ls userId)
      /\ ((getUsers ls' = getUsers ls
           /\ List.find (sameEmail toLowerCase email) (getUsers ls)
              = Some user)
          \/ (getUsers ls' = getUsers ls ++ [user]
              /\ List.find (sameEmail toLowerCase email) (getUsers ls) = None
              /\ user_id user = uuid /\ user_name user = name
              /\ user_email user = email
              /\ avatarUrl encodeURIComponent name = Some (user_avatar user))).
Proof.
  split.
  - unfold login, avatarUrl.
    destruct (List.find (sameEmail toLowerCase email) (getUsers ls)).
    + split; [discriminate | intros [H _]; discriminate].
    + destruct (encodeURIComponent name);
        split; try discriminate; try tauto.
      intros [_ H]. discriminate.
  - intros user ls' Hlogin.
    split; [exact (proj1 (login_users _ _ _ _ _ _ _ _ Hlogin))|].
    split; [intros userId; exact (getUserSessions_login _ _ _ _ _ _ _ _ _
                                    Hlogin)|].
    unfold login in Hlogin.
    destruct (List.find (sameEmail toLowerCase email) (getUsers ls))
      as [found|] eqn:Hfind.
    + injection Hlogin as <- <-. left.
      rewrite (getUsers_insert_other _ _ _ users_key_not_current). auto.
    + destruct (avatarUrl encodeURIComponent name) as [avatar|] eqn:Hav;
        [|discriminate].
      injection Hlogin as <- <-. right.
      rewrite (getUsers_insert_other _ _ _ users_key_not_current),
        getUsers_saveUsers.
      repeat split; reflexivity.
Qed.

Definition bob : UserProfile :=
  {| user_id := js "id-2"; user_name := js "Bob";
     user_email := js "bob@x.org";
     user_avatar :=
       js "https://ui-avatars.com/api/?name=Bob&background=0ea5e9&color=fff&rounded=true&bold=true" |}.

Definition store_bob : localStorage :=
  <[CURRENT_USER_KEY := Raw (js "id-2")]> (saveUsers store_ann [ann; bob]).

Lemma login_effect_witness :
  login asciiLower Some store_ann (js "bob@x.org") (js "Bob") (js "id-2")
  = Some (bob, store_bob)
  /\ currentUserId store_bob = Some (js "id-2")
  /\ (forall userId,
        getUserSessions store_bob userId = getUserSessions store_ann userId).
Proof.
  assert (E : login asciiLower Some store_ann (js "bob@x.org") (js "Bob")
                    (js "id-2") = Some (bob, store_bob)) by reflexivity.
  split; [exact E|].
  destruct (proj2 (login_effect asciiLower Some store_ann (js "bob@x.org")
                     (js "Bob") (js "id-2")) bob store_bob E)
    as (Hc & Hs & _).
  split; [exact Hc | exact Hs].
Defined.

(** X4. [logout] clears the current user and nothing else: the registry
    and every stored session array stay. With pairwise distinct ids in the
    registry, [switchAccount] with the id of a registered user then makes
    that user the current one again. *)
Theorem logout_then_switchAccount (ls : localStorage) (u : UserProfile) :
  In u (getUsers ls) -> user_id u <> [] ->
  List.NoDup (map user_id (getUsers ls)) ->
  getCurrentUser (logout ls) = None
  /\ getUsers (logout ls) = getUsers ls
  /\ (forall userId,
        getUserSessions (logout ls) userId = getUserSessions ls userId)
  /\ fst (switchAccount (logout ls) (user_id u)) = Some u
  /\ getCurrentUser (snd (switchAccount (logout ls) (user_id u))) = Some u.
Proof.
  intros Hin Hid Hnd.
  split; [unfold getCurrentUser; now rewrite currentUserId_logout|].
  split; [apply getUsers_logout|].
  split; [intros userId; apply getUserSessions_logout|].
  unfold switchAccount. rewrite getUsers_logout.
  rewrite (find_user_id _ _ Hnd Hin). cbn [fst snd].
  split; [reflexivity|].
  unfold getCurrentUser. rewrite currentUserId_insert.
  destruct (user_id u) as [|c id] eqn:E; [congruence|]. cbn [truthy].
  rewrite (getUsers_insert_other _ _ _ users_key_not_current),
    getUsers_logout, <- E.
  now apply find_user_id.
Qed.

Lemma logout_then_switchAccount_witness :
  getCurrentUser (logout store_ann) = None
  /\ getCurrentUser (snd (switchAccount (logout store_ann) (js "id-1")))
     = Some ann.
Proof.
  destruct (logout_then_switchAccount store_ann ann) as (H1 & _ & _ & _ & H5).
  - vm_compute. left. reflexivity.
  - discriminate.
  - vm_compute. repeat constructor; intros [].
  - split; [exact H1 | exact H5].
Defined.

End UserService.


(* ===================================================================== *)
(** ** The [App] component: state, effects and handlers *)
(* ===================================================================== *)

Module App.
Import Js Types.


Definition Message_eq_dec (a b : Message) : {a = b} + {a <> b}.
Proof. repeat decide equality. Defined.

Definition messages_eq_dec : forall a b : list Message, {a = b} + {a <> b} :=
  list_eq_dec Message_eq_dec.

Record Keys : Type := { public : jsstring; secret : jsstring }.

(** Which of the state variables the effects depend on have received a new
    value since the last render. *)
Record Dirty : Type := {
  d_user : bool;
  d_sessions : bool;
  d_currentSessionId : bool;
  d_activeModule : bool;
  d_messages : bool
}.

Definition clean : Dirty :=
  {| d_user := false; d_sessions := false; d_currentSessionId := false;
     d_activeModule := false; d_messages := false |}.

Inductive ImageSize : Type := size1K | size2K | size4K.
Inductive AspectRatio : Type := ratio16x9 | ratio9x16.

(** The [useState] variables of [App] that carry data, together with what
    the component acts on: [localStorage], and the identifiers [uuidv4]
    has handed out so far. *)
Record State : Type := {
  user : option UserProfile;
  sessions : list Session;
  currentSessionId : option jsstring;
  activeModule : TaskModule;
  messages : list Message;
  inputValue : jsstring;
  isLoading : bool;
  imageSize : ImageSize;
  videoAspectRatio : AspectRatio;
  selectedFiles : list Attachment;
  toastMsg : option jsstring;
  feedbackModal : bool * option jsstring;
  ilovePdfKeys : Keys;
  storage : UserService.localStorage;
  issued : list jsstring;
  dirty : Dirty
}.

Definition with_user (v : option UserProfile) (st : State) : State :=
  {| user := v;
     sessions := sessions st;
     currentSessionId := currentSessionId st;
     activeModule := activeModule st;
     messages := messages st;
     inputValue := inputValue st;
     isLoading := isLoading st;
     imageSize := imageSize st;
     videoAspectRatio := videoAspectRatio st;
     selectedFiles := selectedFiles st;
     toastMsg := toastMsg st;
     feedbackModal := feedbackModal st;
     ilovePdfKeys := ilovePdfKeys st;
     storage := storage st;
     issued := issued st;
     dirty := dirty st |}.

Definition with_sessions (v : list Session) (st : State) : State :=
  {| user := user st;
     sessions := v;
     currentSessionId := currentSessionId st;
     activeModule := activeModule st;
     messages := messages st;
     inputValue := inputValue st;
     isLoading := isLoading st;
     imageSize := imageSize st;
     videoAspectRatio := videoAspectRatio st;
     selectedFiles := selectedFiles st;
     toastMsg := toastMsg st;
     feedbackModal := feedbackModal st;
     ilovePdfKeys := ilovePdfKeys st;
     storage := storage st;
     issued := issued st;
     dirty := dirty st |}.

Definition with_currentSessionId (v : option jsstring) (st : State) : State :=
  {| user := user st;
     sessions := sessions st;
     currentSessionId := v;
     activeModule := activeModule st;
     messages := messages st;
     inputValue := inputValue st;
     isLoading := isLoading st;
     imageSize := imageSize st;
     videoAspectRatio := videoAspectRatio st;
     selectedFiles := selectedFiles st;
     toastMsg := toastMsg st;
     feedbackModal := feedbackModal st;
     ilovePdfKeys := ilovePdfKeys st;
     storage := storage st;
     issued := issued st;
     dirty := dirty st |}.

Definition with_activeModule (v : TaskModule) (st : State) : State :=
  {| user := user st;
     sessions := sessions st;
     currentSessionId := currentSessionId st;
     activeModule := v;
     messages := messages st;
     inputValue := inputValue st;
     isLoading := isLoading st;
     imageSize := imageSize st;
     videoAspectRatio := videoAspectRatio st;
     selectedFiles := selectedFiles st;
     toastMsg := toastMsg st;
     feedbackModal := feedbackModal st;
     ilovePdfKeys := ilovePdfKeys st;
     storage := storage st;
     issued := issued st;
     dirty := dirty st |}.

Definition with_messages (v : list Message) (st : State) : State :=
  {| user := user st;
     sessions := sessions st;
     currentSessionId := currentSessionId st;
     activeModule := activeModule st;
     messages := v;
     inputValue := inputValue st;
     isLoading := isLoading st;
     imageSize := imageSize st;
     videoAspectRatio := videoAspectRatio st;
     selectedFiles := selectedFiles st;
     toastMsg := toastMsg st;
     feedbackModal := feedbackModal st;
     ilovePdfKeys := ilovePdfKeys st;
     storage := storage st;
     issued := issued st;
     dirty := dirty st |}.

Definition with_inputValue (v : jsstring) (st : State) : State :=
  {| user := user st;
     sessions := sessions st;
     currentSessionId := currentSessionId st;
     activeModule := activeModule st;
     messages := messages st;
     inputValue := v;
     isLoading := isLoading st;
     imageSize := imageSize st;
     videoAspectRatio := videoAspectRatio st;
     selectedFiles := selectedFiles st;
     toastMsg := toastMsg st;
     feedbackModal := feedbackModal st;
     ilovePdfKeys := ilovePdfKeys st;
     storage := storage st;
     issued := issued st;
     dirty := dirty st |}.

Definition with_isLoading (v : bool) (st : State) : State :=
  {| user := user st;
     sessions := sessions st;
     currentSessionId := currentSessionId st;
     activeModule := activeModule st;
     messages := messages st;
     inputValue := inputValue st;
     isLoading := v;
     imageSize := imageSize st;
     videoAspectRatio := videoAspectRatio st;
     selectedFiles := selectedFiles st;
     toastMsg := toastMsg st;
     feedbackModal := feedbackModal st;
     ilovePdfKeys := ilovePdfKeys st;
     storage := storage st;
     issued := issued st;
     dirty := dirty st |}.

Definition with_imageSize (v : ImageSize) (st : State) : State :=
  {| user := user st;
     sessions := sessions st;
     currentSessionId := currentSessionId st;
     activeModule := activeModule st;
     messages := messages st;
     inputValue := inputValue st;
     isLoading := isLoading st;
     imageSize := v;
     videoAspectRatio := videoAspectRatio st;
     selectedFiles := selectedFiles st;
     toastMsg := toastMsg st;
     feedbackModal := feedbackModal st;
     ilovePdfKeys := ilovePdfKeys st;
     storage := storage st;
     issued := issued st;
     dirty := dirty st |}.

Definition with_videoAspectRatio (v : AspectRatio) (st : State) : State :=
  {| user := user st;
     sessions := sessions st;
     currentSessionId := currentSessionId st;
     activeModule := activeModule st;
     messages := messages st;
     inputValue := inputValue st;
     isLoading := isLoading st;
     imageSize := imageSize st;
     videoAspectRatio := v;
     selectedFiles := selectedFiles st;
     toastMsg := toastMsg st;
     feedbackModal := feedbackModal st;
     ilovePdfKeys := ilovePdfKeys st;
     storage := storage st;
     issued := issued st;
     dirty := dirty st |}.

Definition with_selectedFiles (v : list Attachment) (st : State) : State :=
  {| user := user st;
     sessions := sessions st;
     currentSessionId := currentSessionId st;
     activeModule := activeModule st;
     messages := messages st;
     inputValue := inputValue st;
     isLoading := isLoading st;
     imageSize := imageSize st;
     videoAspectRatio := videoAspectRatio st;
     selectedFiles := v;
     toastMsg := toastMsg st;
     feedbackModal := feedbackModal st;
     ilovePdfKeys := ilovePdfKeys st;
     storage := storage st;
     issued := issued st;
     dirty := dirty st |}.

Definition with_toastMsg (v : option jsstring) (st : State) : State :=
  {| user := user st;
     sessions := sessions st;
     currentSessionId := currentSessionId st;
     activeModule := activeModule st;
     messages := messages st;
     inputValue := inputValue st;
     isLoading := isLoading st;
     imageSize := imageSize st;
     videoAspectRatio := videoAspectRatio st;
     selectedFiles := selectedFiles st;
     toastMsg := v;
     feedbackModal := feedbackModal st;
     ilovePdfKeys := ilovePdfKeys st;
     storage := storage st;
     issued := issued st;
     dirty := dirty st |}.

Definition with_feedbackModal (v : bool * option jsstring) (st : State) : State :=
  {| user := user st;
     sessions := sessions st;
     currentSessionId := currentSessionId st;
     activeModule := activeModule st;
     messages := messages st;
     inputValue := inputValue st;
     isLoading := isLoading st;
     imageSize := imageSize st;
     videoAspectRatio := videoAspectRatio st;
     selectedFiles := selectedFiles st;
     toastMsg := toastMsg st;
     feedbackModal := v;
     ilovePdfKeys := ilovePdfKeys st;
     storage := storage st;
     issued := issued st;
     dirty := dirty st |}.

Definition with_ilovePdfKeys (v : Keys) (st : State) : State :=
  {| user := user st;
     sessions := sessions st;
     currentSessionId := currentSessionId st;
     activeModule := activeModule st;
     messages := messages st;
     inputValue := inputValue st;
     isLoading := isLoading st;
     imageSize := imageSize st;
     videoAspectRatio := videoAspectRatio st;
     selectedFiles := selectedFiles st;
     toastMsg := toastMsg st;
     feedbackModal := feedbackModal st;
     ilovePdfKeys := v;
     storage := storage st;
     issued := issued st;
     dirty := dirty st |}.

Definition with_storage (v : UserService.localStorage) (st : State) : State :=
  {| user := user st;
     sessions := sessions st;
     currentSessionId := currentSessionId st;
     activeModule := activeModule st;
     messages := messages st;
     inputValue := inputValue st;
     isLoading := isLoading st;
     imageSize := imageSize st;
     videoAspectRatio := videoAspectRatio st;
     selectedFiles := selectedFiles st;
     toastMsg := toastMsg st;
     feedbackModal := feedbackModal st;
     ilovePdfKeys := ilovePdfKeys st;
     storage := v;
     issued := issued st;
     dirty := dirty st |}.

Definition with_issued (v : list jsstring) (st : State) : State :=
  {| user := user st;
     sessions := sessions st;
     currentSessionId := currentSessionId st;
     activeModule := activeModule st;
     messages := messages st;
     inputValue := inputValue st;
     isLoading := isLoading st;
     imageSize := imageSize st;
     videoAspectRatio := videoAspectRatio st;
     selectedFiles := selectedFiles st;
     toastMsg := toastMsg st;
     feedbackModal := feedbackModal st;
     ilovePdfKeys := ilovePdfKeys st;
     storage := storage st;
     issued := v;
     dirty := dirty st |}.

Definition with_dirty (v : Dirty) (st : State) : State :=
  {| user := user st;
     sessions := sessions st;
     currentSessionId := currentSessionId st;
     activeModule := activeModule st;
     messages := messages st;
     inputValue := inputValue st;
     isLoading := isLoading st;
     imageSize := imageSize st;
     videoAspectRatio := videoAspectRatio st;
     selectedFiles := selectedFiles st;
     toastMsg := toastMsg st;
     feedbackModal := feedbackModal st;
     ilovePdfKeys := ilovePdfKeys st;
     storage := storage st;
     issued := issued st;
     dirty := v |}.

(** *** The [useState] setters

    A setter stores the value and marks its variable as changed, unless
    the value is the old one (React bails out). Arrays built by the caller
    are always new values; strings and enum members are compared by
    value. *)

Definition mark_user (d : Dirty) : Dirty :=
  {| d_user := true; d_sessions := d_sessions d;
     d_currentSessionId := d_currentSessionId d;
     d_activeModule := d_activeModule d; d_messages := d_messages d |}.
Definition mark_sessions (d : Dirty) : Dirty :=
  {| d_user := d_user d; d_sessions := true;
     d_currentSessionId := d_currentSessionId d;
     d_activeModule := d_activeModule d; d_messages := d_messages d |}.
Definition mark_currentSessionId (d : Dirty) : Dirty :=
  {| d_user := d_user d; d_sessions := d_sessions d;
     d_currentSessionId := true;
     d_activeModule := d_activeModule d; d_messages := d_messages d |}.
Definition mark_activeModule (d : Dirty) : Dirty :=
  {| d_user := d_user d; d_sessions := d_sessions d;
     d_currentSessionId := d_currentSessionId d;
     d_activeModule := true; d_messages := d_messages d |}.
Definition mark_messages (d : Dirty) : Dirty :=
  {| d_user := d_user d; d_sessions := d_sessions d;
     d_currentSessionId := d_currentSessionId d;
     d_activeModule := d_activeModule d; d_messages := true |}.

Definition mark (f : Dirty -> Dirty) (st : State) : State :=
  with_dirty (f (dirty st)) st.

(** [a === b] for [string | null]. *)
Definition sameId (a b : option jsstring) : bool :=
  match a, b with
  | Some x, Some y => eqb x y
  | None, None => true
  | _, _ => false
  end.

Definition setUser (v : option UserProfile) (st : State) : State :=
  mark mark_user (with_user v st).
Definition setSessions (v : list Session) (st : State) : State :=
  mark mark_sessions (with_sessions v st).
Definition setCurrentSessionId (v : option jsstring) (st : State) : State :=
  with_dirty (if sameId v (currentSessionId st) then dirty st
              else mark_currentSessionId (dirty st))
             (with_currentSessionId v st).
Definition setActiveModule (v : TaskModule) (st : State) : State :=
  with_dirty (if TaskModule_eqb v (activeModule st) then dirty st
              else mark_activeModule (dirty st))
             (with_activeModule v st).
Definition setMessages (v : list Message) (st : State) : State :=
  mark mark_messages (with_messages v st).
(** [setMessages(session.messages)] in [switchSession]: the array a session
    of the state already holds, which is the current [messages] array
    exactly when it has the same content, empty arrays apart. *)
Definition setMessagesTo (v : list Message) (st : State) : State :=
  with_dirty (if messages_eq_dec v (messages st) then dirty st
              else mark_messages (dirty st))
             (with_messages v st).
Definition setInputValue := with_inputValue.
Definition setIsLoading := with_isLoading.
Definition setSelectedFiles := with_selectedFiles.
Definition setImageSize := with_imageSize.
Definition setVideoAspectRatio := with_videoAspectRatio.
Definition setToastMsg := with_toastMsg.
Definition setFeedbackModal := with_feedbackModal.
Definition setIlovePdfKeys := with_ilovePdfKeys.

(** A call of [uuidv4] that returned [id]. *)
Definition issue (id : jsstring) (st : State) : State :=
  with_issued (id :: issued st) st.

(** What one step of the component gets from its environment: the value of
    [Date.now()], the value [uuidv4()] returns if the component calls it,
    and the value it returns if [login] calls it (the step of a first
    login has both calls). *)
Record Env : Type := { now : Z; newId : jsstring; loginId : jsstring }.

(** The environment of a handler of the login screen: [uuidv4()] is the
    call made by [login]. *)
Definition forLogin (env : Env) : Env :=
  {| now := now env; newId := loginId env; loginId := loginId env |}.

(** *** Session objects *)

Definition newChat (id : jsstring) (t : Z) : Session :=
  {| session_id := id; title := js "New Chat"; session_messages := [];
     session_activeModule := GENERAL; lastModified := t; isDeleted := None |}.

(** [{ ...s, isDeleted: true }] *)
Definition markDeleted (s : Session) : Session :=
  {| session_id := session_id s; title := title s;
     session_messages := session_messages s;
     session_activeModule := session_activeModule s;
     lastModified := lastModified s; isDeleted := Some true |}.

(** [{ ...s, title: newTitle }] *)
Definition retitle (newTitle : jsstring) (s : Session) : Session :=
  {| session_id := session_id s; title := newTitle;
     session_messages := session_messages s;
     session_activeModule := session_activeModule s;
     lastModified := lastModified s; isDeleted := isDeleted s |}.

(** [{ ...s, messages, activeModule, lastModified: Date.now() }] *)
Definition resync (msgs : list Message) (m : TaskModule) (t : Z) (s : Session)
  : Session :=
  {| session_id := session_id s; title := title s;
     session_messages := msgs; session_activeModule := m;
     lastModified := t; isDeleted := isDeleted s |}.

Definition hasId (id : jsstring) (s : Session) : bool := eqb (session_id s) id.

(** [prev.map(s => s.id === id ? f(s) : s)] *)
Definition mapSession (id : jsstring) (f : Session -> Session)
           (l : list Session) : list Session :=
  map (fun s => if hasId id s then f s else s) l.

(** The [sessions] prop of the sidebar. *)
Definition sidebarSessions (st : State) : list Session :=
  filter notDeleted (sessions st).

(** *** Effects

    An effect reads the state variables of the render it belongs to
    ([render]) and queues its updates on the state under construction
    ([st]); [localStorage] is read and written in place. *)

(** [useEffect(..., [user])]: session loading per user. *)
Definition loadEffect (env : Env) (render st : State) : State :=
  match user render with
  | None => st
  | Some u =>
      let userSessions :=
        UserService.getUserSessions (storage st) (user_id u) in
      if Nat.eqb (length userSessions) 0 then
        let newSession := newChat (newId env) (now env) in
        let st := issue (newId env) st in
        let st := setSessions [newSession] st in
        let st := setCurrentSessionId (Some (newId env)) st in
        let st := setMessages [] st in
        with_storage
          (UserService.saveUserSessions (storage st) (user_id u) [newSession])
          st
      else
        let st := setSessions userSessions st in
        match filter notDeleted userSessions with
        | first :: _ =>
            let st := setCurrentSessionId (Some (session_id first)) st in
            let st := setMessages (session_messages first) st in
            setActiveModule (session_activeModule first) st
        | [] =>
            let newSession := newChat (newId env) (now env) in
            let st := issue (newId env) st in
            let st := setSessions (userSessions ++ [newSession]) st in
            let st := setCurrentSessionId (Some (newId env)) st in
            setMessages [] st
        end
  end.

(** [useEffect(..., [sessions, user])]: session saving. *)
Definition saveEffect (render st : State) : State :=
  match user render with
  | Some u =>
      if Nat.ltb 0 (length (sessions render)) then
        with_storage
          (UserService.saveUserSessions (storage st) (user_id u)
                                        (sessions render))
          st
      else st
  | None => st
  end.

(** [useEffect(..., [messages, activeModule, currentSessionId, user])]:
    the current messages are written to the active session object. *)
Definition syncEffect (env : Env) (render st : State) : State :=
  match currentSessionId render, user render with
  | Some cur, Some _ =>
      if truthy cur && Nat.ltb 0 (length (messages render)) then
        setSessions
          (mapSession cur
                      (resync (messages render) (activeModule render)
                              (now env))
                      (sessions st))
          st
      else st
  | _, _ => st
  end.

(** The effects of one render, in the order of the source, each run when
    one of its dependencies changed. *)
Definition runEffects (env : Env) (render : State) : State :=
  let d := dirty render in
  let st := with_dirty clean render in
  let st := if d_user d then loadEffect env render st else st in
  let st := if d_sessions d || d_user d then saveEffect render st else st in
  if d_messages d || d_activeModule d || d_currentSessionId d || d_user d
  then syncEffect env render st
  else st.

(** Renders and effects until nothing is left to run: three rounds always
    suffice (see [commit_clean]). *)
Definition commit (env : Env) (st : State) : State :=
  runEffects env (runEffects env (runEffects env st)).

(** *** Session handlers

    A handler reads the state variables of the render it was created in
    ([cl], its closure) and queues updates on [st]. *)

Definition createNewSession (env : Env) (st : State) : State :=
  let newSession := newChat (newId env) (now env) in
  let st := issue (newId env) st in
  let st := setSessions (newSession :: sessions st) st in
  let st := setCurrentSessionId (Some (newId env)) st in
  let st := setMessages [] st in
  let st := setActiveModule GENERAL st in
  setSelectedFiles [] st.

Definition switchSession (cl st : State) (sessionId : jsstring) : State :=
  match find (hasId sessionId) (sessions cl) with
  | Some session =>
      let st := setCurrentSessionId (Some (session_id session)) st in
      let st := setMessagesTo (session_messages session) st in
      let st := setActiveModule (session_activeModule session) st in
      setSelectedFiles [] st
  | None => st
  end.

Definition handleRenameSession (st : State) (id newTitle : jsstring) : State :=
  setSessions (mapSession id (retitle newTitle) (sessions st)) st.

Definition handleDeleteSession (env : Env) (cl : State) (id : jsstring)
  : State :=
  let st := setSessions (mapSession id markDeleted (sessions cl)) cl in
  if sameId (currentSessionId cl) (Some id) then
    let remaining :=
      filter (fun s => negb (hasId id s) && notDeleted s) (sessions cl) in
    match remaining with
    | first :: _ => switchSession cl st (session_id first)
    | [] => createNewSession env st
    end
  else st.

Definition handleClearAll (env : Env) (cl : State) : State :=
  let st := setSessions (map markDeleted (sessions cl)) cl in
  match user cl with
  | Some _ =>
      let newSession := newChat (newId env) (now env) in
      let st := issue (newId env) st in
      let st := setSessions (newSession :: sessions st) st in
      let st := setCurrentSessionId (Some (newId env)) st in
      setMessages [] st
  | None => st
  end.

Definition handleLogout (cl : State) : State :=
  let st := with_storage (UserService.logout (storage cl)) cl in
  let st := setUser None st in
  let st := setSessions [] st in
  setMessages [] st.

(** *** Messages *)

(** The object spreads [{ ...msg, k: v, ... }] of the sources: the
    properties that are overwritten. [p_content] gets the old content, for
    [msg.content + chunk]; [p_downloadData] may set the property to
    undefined. *)
Record Patch : Type := {
  p_content : option (jsstring -> jsstring);
  p_isStreaming : option bool;
  p_mediaUrl : option jsstring;
  p_audioUrl : option jsstring;
  p_mediaType : option MediaType;
  p_reaction : option Reaction;
  p_feedback : option jsstring;
  p_downloadData : option (option DownloadData)
}.

Definition noPatch : Patch :=
  {| p_content := None; p_isStreaming := None; p_mediaUrl := None;
     p_audioUrl := None; p_mediaType := None; p_reaction := None;
     p_feedback := None; p_downloadData := None |}.

Definition override {A : Type} (new old : option A) : option A :=
  match new with
  | Some _ => new
  | None => old
  end.

Definition applyPatch (p : Patch) (msg : Message) : Message :=
  {| msg_id := msg_id msg;
     role := role msg;
     content := match p_content p with
                | Some f => f (content msg)
                | None => content msg
                end;
     timestamp := timestamp msg;
     isStreaming := override (p_isStreaming p) (isStreaming msg);
     mediaUrl := override (p_mediaUrl p) (mediaUrl msg);
     audioUrl := override (p_audioUrl p) (audioUrl msg);
     mediaType := override (p_mediaType p) (mediaType msg);
     attachments := attachments msg;
     reaction := override (p_reaction p) (reaction msg);
     feedback := override (p_feedback p) (feedback msg);
     downloadData := match p_downloadData p with
                     | Some d => d
                     | None => downloadData msg
                     end |}.

(** [prev.map(msg => msg.id === id ? { ...msg, ... } : msg)] *)
Definition patchMessages (id : jsstring) (p : Patch) (l : list Message)
  : list Message :=
  map (fun msg => if eqb (msg_id msg) id then applyPatch p msg else msg) l.

(** The patches of the sources. *)
Definition setContent (text : jsstring) : Patch :=
  {| p_content := Some (fun _ => text); p_isStreaming := None;
     p_mediaUrl := None; p_audioUrl := None; p_mediaType := None;
     p_reaction := None; p_feedback := None; p_downloadData := None |}.
Definition appendContent (chunk : jsstring) : Patch :=
  {| p_content := Some (fun old => old ++ chunk); p_isStreaming := None;
     p_mediaUrl := None; p_audioUrl := None; p_mediaType := None;
     p_reaction := None; p_feedback := None; p_downloadData := None |}.
Definition settle : Patch :=
  {| p_content := None; p_isStreaming := Some false;
     p_mediaUrl := None; p_audioUrl := None; p_mediaType := None;
     p_reaction := None; p_feedback := None; p_downloadData := None |}.
Definition settleWith (text : jsstring) : Patch :=
  {| p_content := Some (fun _ => text); p_isStreaming := Some false;
     p_mediaUrl := None; p_audioUrl := None; p_mediaType := None;
     p_reaction := None; p_feedback := None; p_downloadData := None |}.
Definition settleWithDownload (text : jsstring) (d : option DownloadData)
  : Patch :=
  {| p_content := Some (fun _ => text); p_isStreaming := Some false;
     p_mediaUrl := None; p_audioUrl := None; p_mediaType := None;
     p_reaction := None; p_feedback := None; p_downloadData := Some d |}.
Definition settleWithMedia (text url : jsstring) (t : MediaType) : Patch :=
  {| p_content := Some (fun _ => text); p_isStreaming := Some false;
     p_mediaUrl := Some url; p_audioUrl := None; p_mediaType := Some t;
     p_reaction := None; p_feedback := None; p_downloadData := None |}.
Definition settleWithAudio (text url : jsstring) : Patch :=
  {| p_content := Some (fun _ => text); p_isStreaming := Some false;
     p_mediaUrl := None; p_audioUrl := Some url; p_mediaType := Some audio;
     p_reaction := None; p_feedback := None; p_downloadData := None |}.
Definition attachMedia (url : jsstring) (t : MediaType) : Patch :=
  {| p_content := None; p_isStreaming := None;
     p_mediaUrl := Some url; p_audioUrl := None; p_mediaType := Some t;
     p_reaction := None; p_feedback := None; p_downloadData := None |}.
Definition attachAudio (url : jsstring) : Patch :=
  {| p_content := None; p_isStreaming := None;
     p_mediaUrl := None; p_audioUrl := Some url; p_mediaType := Some audio;
     p_reaction := None; p_feedback := None; p_downloadData := None |}.

(** A message as the handlers create it. *)
Definition userMessage (id text : jsstring) (t : Z)
           (files : list Attachment) : Message :=
  {| msg_id := id; role := USER; content := text; timestamp := t;
     isStreaming := None; mediaUrl := None; audioUrl := None;
     mediaType := None; attachments := Some files; reaction := None;
     feedback := None; downloadData := None |}.

Definition streamingMessage (id text : jsstring) (t : Z) : Message :=
  {| msg_id := id; role := MODEL; content := text; timestamp := t;
     isStreaming := Some true; mediaUrl := None; audioUrl := None;
     mediaType := None; attachments := None; reaction := None;
     feedback := None; downloadData := None |}.

(** What a handler does to the state between two awaits, one state update
    at a time. *)
Inductive action : Type :=
| Append (m : Message)
| PatchMsg (id : jsstring) (p : Patch)
| SetIsLoading (b : bool)
| SetInputValue (v : jsstring)
| SetSelectedFiles (files : list Attachment)
| SetToastMsg (t : option jsstring)
| SetFeedbackModal (m : bool * option jsstring).

Definition perform (a : action) (st : State) : State :=
  match a with
  | Append m => setMessages (messages st ++ [m]) st
  | PatchMsg id p => setMessages (patchMessages id p (messages st)) st
  | SetIsLoading b => setIsLoading b st
  | SetInputValue v => setInputValue v st
  | SetSelectedFiles files => setSelectedFiles files st
  | SetToastMsg t => setToastMsg t st
  | SetFeedbackModal m => setFeedbackModal m st
  end.

(** *** Reactions *)




(** *** Calls to the services *)

Definition settled := Title.settled.
Abbreviation Resolved := Title.Resolved.
Abbreviation Rejected := Title.Rejected.

(** A call of [sendMessageStream]: the chunks handed to [onChunk], in
    order, and the error the call ends with, if any. *)
Record StreamOutcome : Type := {
  chunks : list jsstring;
  failure : option jsstring
}.

Inductive call : Type :=
| ConvertWithILovePDF (fileDataUrl fileName tool publicKey secretKey : jsstring)
| SendMessageStream (message : jsstring) (context : option jsstring)
                    (attachments : option (list (jsstring * jsstring)))
| GenerateImage (prompt : jsstring) (size : option ImageSize)
| GenerateVideo (prompt : jsstring) (aspectRatio : AspectRatio)
                (image : option jsstring)
| GenerateSpeech (text : jsstring)
| GenerateChatTitle (message : jsstring).

(** A run of an async handler, in program order: the state updates it
    makes and the service calls it awaits. *)
Inductive item : Type :=
| Do (a : action)
| Await (c : call).

Definition actionsOf (run : list item) : list action :=
  flat_map (fun i => match i with Do a => [a] | Await _ => [] end) run.

Definition callsOf (run : list item) : list call :=
  flat_map (fun i => match i with Do _ => [] | Await c => [c] end) run.

Inductive TargetFormat : Type := PDF | EXCEL | WORD | PPT.

Definition formatName (f : TargetFormat) : jsstring :=
  match f with
  | PDF => js "PDF"
  | EXCEL => js "EXCEL"
  | WORD => js "WORD"
  | PPT => js "PPT"
  end.

Definition toolMap (f : TargetFormat) : jsstring :=
  match f with
  | EXCEL => js "pdfexcel"
  | WORD => js "pdfword"
  | PDF => js "officepdf"
  | PPT => js "pdfpowerpoint"
  end.

Definition sizeName (s : ImageSize) : jsstring :=
  match s with
  | size1K => js "1K"
  | size2K => js "2K"
  | size4K => js "4K"
  end.

Definition FENCE : jsstring := js "```".

(** What a run of [handleConvertAction] gets from outside: the values of
    [uuidv4()] and [Date.now()] (index 0 for the user message, [k + 1] for
    the message of file [k]) and, per file, how [convertWithILovePDF] and
    [sendMessageStream] end when they are called. *)
Record ConvertRun : Type := {
  c_uuid : nat -> jsstring;
  c_clock : nat -> Z;
  c_ilovepdf : nat -> settled DownloadData;
  c_stream : nat -> StreamOutcome
}.

Section Handlers.

(** [MODULES.find(m => m.id === id)?.contextParams]; the table [MODULES]
    is defined in [constants], outside the sources at hand. *)
Variable contextParams : TaskModule -> option jsstring.

(** The prompts of the text-only flow and of the fallback. *)
Definition textPrompt (f : TargetFormat) : jsstring :=
  match f with
  | EXCEL => js "Convert this text data strictly to CSV."
  | WORD => js "Convert this text to Markdown."
  | PDF => js "Convert this text to HTML."
  | PPT => js "Create presentation outline."
  end.

Definition fallbackPrompt (f : TargetFormat) : jsstring :=
  match f with
  | EXCEL =>
      js "Extract all tabular data from the attached file. Output strictly as CSV."
  | WORD => js "Extract content from the attached file into Markdown."
  | PDF => js "Analyze file and recreate as semantic HTML for printing."
  | PPT => js "Create presentation outline."
  end.

(** [downloadData] as the fallback computes it from the gathered text. *)
Definition fallbackDownload (f : TargetFormat) (file : Attachment)
           (gatheredText : jsstring) : option DownloadData :=
  let clean tag := trim (removeAll FENCE (removeAll (FENCE ++ tag) gatheredText)) in
  let base := stripExtension (att_name file) in
  match f with
  | EXCEL => Some {| fileName := base ++ js ".csv"; data := clean (js "csv");
                     mimeType := js "text/csv" |}
  | WORD => Some {| fileName := base ++ js ".md";
                    data := clean (js "markdown");
                    mimeType := js "text/markdown" |}
  | PDF => Some {| fileName := base ++ js ".pdf"; data := clean (js "html");
                   mimeType := js "text/html" |}
  | PPT => None
  end.

(** Step 2 of the loop body, the fallback. *)
Definition convertFallback (f : TargetFormat) (run : ConvertRun) (k : nat)
           (file : Attachment) (aiMsgId : jsstring) : list item :=
  [Do (PatchMsg aiMsgId
         (setContent (js "Converting " ++ att_name file ++ js " with AI...")));
   Await (SendMessageStream (fallbackPrompt f) (contextParams CONVERTER)
            (Some [(att_data file, att_type file)]))]
  ++ match failure (c_stream run k) with
     | None =>
         let gatheredText := concat (chunks (c_stream run k)) in
         [Do (PatchMsg aiMsgId
                (settleWithDownload
                   (js "Converted " ++ att_name file ++ js ".")
                   (fallbackDownload f file gatheredText)))]
     | Some _ =>
         [Do (PatchMsg aiMsgId
                (settleWith
                   (js "Failed to convert " ++ att_name file ++ js ".")))]
     end.

(** The loop body for the file of index [k]. *)
Definition convertFile (keys : Keys) (f : TargetFormat) (run : ConvertRun)
           (k : nat) (file : Attachment) : list item :=
  let aiMsgId := c_uuid run (S k) in
  Do (Append (streamingMessage aiMsgId
                (js "Processing " ++ att_name file ++ js "...")
                (c_clock run (S k))))
  :: if truthy (public keys) && truthy (toolMap f) then
       [Do (PatchMsg aiMsgId
              (setContent
                 (js "Converting " ++ att_name file ++ js " with iLovePDF...")));
        Await (ConvertWithILovePDF (att_data file) (att_name file) (toolMap f)
                 (public keys) (secret keys))]
       ++ match c_ilovepdf run k with
          | Resolved result =>
              [Do (PatchMsg aiMsgId
                     (settleWithDownload
                        (js "Successfully converted " ++ att_name file
                            ++ js " to " ++ fileName result ++ js ".")
                        (Some result)))]
          | Rejected _ => convertFallback f run k file aiMsgId
          end
     else convertFallback f run k file aiMsgId.

Fixpoint convertFiles (keys : Keys) (f : TargetFormat) (run : ConvertRun)
         (k : nat) (files : list Attachment) : list item :=
  match files with
  | [] => []
  | file :: rest =>
      convertFile keys f run k file ++ convertFiles keys f run (S k) rest
  end.

Definition isPDF (f : TargetFormat) : bool :=
  match f with PDF => true | _ => false end.

Definition handleConvertAction (cl : State) (run : ConvertRun)
           (targetFormat : TargetFormat) : list item :=
  let n := length (selectedFiles cl) in
  if Nat.eqb n 0 && negb (isPDF targetFormat)
     && negb (truthy (trim (inputValue cl)))
  then [Do (SetToastMsg (Some (js "Please upload files to convert.")))]
  else
    let userMsg :=
      userMessage (c_uuid run 0)
        (js "Convert "
            ++ (if Nat.ltb 0 n then decimal n ++ js " files" else js "content")
            ++ js " to " ++ formatName targetFormat)
        (c_clock run 0) (selectedFiles cl) in
    [Do (SetIsLoading true); Do (Append userMsg)]
    ++ if Nat.eqb n 0 then
         let aiMsgId := c_uuid run 1 in
         [Do (Append (streamingMessage aiMsgId
                        (js "Initializing text conversion...")
                        (c_clock run 1)));
          Await (SendMessageStream
                   (textPrompt targetFormat ++ [LF; LF] ++ inputValue cl)
                   (contextParams CONVERTER) None)]
         ++ map (fun chunk => Do (PatchMsg aiMsgId (appendContent chunk)))
                (chunks (c_stream run 0))
         ++ [Do (PatchMsg aiMsgId
                   (match failure (c_stream run 0) with
                    | None => settle
                    | Some _ => settleWith (js "Conversion failed.")
                    end));
             Do (SetIsLoading false); Do (SetInputValue [])]
       else
         [Do (SetSelectedFiles []); Do (SetInputValue [])]
         ++ convertFiles (ilovePdfKeys cl) targetFormat run 0 (selectedFiles cl)
         ++ [Do (SetIsLoading false)].

(** [parseMediaTags]. One attempt of [/{{TAG:\s*(.*?)}}/] at the start of
    [s]: the prompt captured and what follows the match. *)
Definition matchTagAt (opening s : jsstring) : option (jsstring * jsstring) :=
  if startsWith s opening
  then lazyUntilPair 125 (trimStart (skipn (length opening) s))
  else None.

(** [text.match] of that expression, and [text.replace(match[0], '')]: the
    first position with a match, the captured prompt and the text without
    the match. *)
Fixpoint findTag (opening s before : jsstring) : option (jsstring * jsstring) :=
  match s with
  | [] => None
  | c :: s' =>
      match matchTagAt opening s with
      | Some (prompt, after) => Some (prompt, before ++ after)
      | None => findTag opening s' (before ++ [c])
      end
  end.

Inductive MediaTag : Type := TagImage | TagVideo | TagAudio | TagText.

Record MediaCheck : Type := {
  tagType : MediaTag;
  tagPrompt : jsstring;
  cleanText : jsstring
}.

Definition parseMediaTags (text : jsstring) : MediaCheck :=
  match findTag (js "{{IMAGE:") text [] with
  | Some (prompt, clean) =>
      {| tagType := TagImage; tagPrompt := prompt; cleanText := clean |}
  | None =>
      match findTag (js "{{VIDEO:") text [] with
      | Some (prompt, clean) =>
          {| tagType := TagVideo; tagPrompt := prompt; cleanText := clean |}
      | None =>
          match findTag (js "{{AUDIO:") text [] with
          | Some (prompt, clean) =>
              {| tagType := TagAudio; tagPrompt := prompt;
                 cleanText := clean |}
          | None =>
              {| tagType := TagText; tagPrompt := []; cleanText := text |}
          end
      end
  end.

(** What a run of [handleSendMessage] gets from outside: identifiers and
    times (index 0 for the user message, 1 for the answer) and how each of
    the service calls ends when it is made. *)
Record SendRun : Type := {
  s_uuid : nat -> jsstring;
  s_clock : nat -> Z;
  s_stream : StreamOutcome;
  s_image : settled jsstring;
  s_video : settled jsstring;
  s_speech : settled jsstring
}.

(** The text gathered after each chunk. *)
Fixpoint gathered (acc : jsstring) (cs : list jsstring) : list jsstring :=
  match cs with
  | [] => []
  | c :: cs' => (acc ++ c) :: gathered (acc ++ c) cs'
  end.

Definition EXECUTION_FAILED : jsstring :=
  js "Execution failed. Please check your connection or API key.".

(** The default branch of [handleSendMessage], from the creation of the
    streaming message to the [finally] block. *)
Definition sendDefault (cl : State) (run : SendRun) (userMsgText : jsstring)
  : list item :=
  let aiMsgId := s_uuid run 1 in
  let caught := [Do (PatchMsg aiMsgId (settleWith EXECUTION_FAILED))] in
  let gatheredText := concat (chunks (s_stream run)) in
  let mediaCheck := parseMediaTags gatheredText in
  [Do (Append (streamingMessage aiMsgId [] (s_clock run 1)));
   Await (SendMessageStream userMsgText (contextParams (activeModule cl))
            (Some (map (fun f => (att_data f, att_type f))
                       (selectedFiles cl))))]
  ++ map (fun text => Do (PatchMsg aiMsgId (setContent text)))
         (gathered [] (chunks (s_stream run)))
  ++ match failure (s_stream run) with
     | Some _ => caught
     | None =>
         match tagType mediaCheck with
         | TagText => [Do (PatchMsg aiMsgId settle)]
         | TagImage =>
             [Do (PatchMsg aiMsgId (setContent (cleanText mediaCheck)));
              Await (GenerateImage (tagPrompt mediaCheck) None)]
             ++ match s_image run with
                | Resolved url =>
                    [Do (PatchMsg aiMsgId (attachMedia url image));
                     Do (PatchMsg aiMsgId settle)]
                | Rejected _ => caught
                end
         | TagVideo =>
             [Do (PatchMsg aiMsgId (setContent (cleanText mediaCheck)));
              Await (GenerateVideo (tagPrompt mediaCheck) ratio16x9 None)]
             ++ match s_video run with
                | Resolved url =>
                    [Do (PatchMsg aiMsgId (attachMedia url video));
                     Do (PatchMsg aiMsgId settle)]
                | Rejected _ => caught
                end
         | TagAudio =>
             [Do (PatchMsg aiMsgId (setContent (cleanText mediaCheck)));
              Await (GenerateSpeech (tagPrompt mediaCheck))]
             ++ match s_speech run with
                | Resolved url =>
                    [Do (PatchMsg aiMsgId (attachAudio url));
                     Do (PatchMsg aiMsgId settle)]
                | Rejected _ => caught
                end
         end
     end
  ++ [Do (SetSelectedFiles []); Do (SetIsLoading false)].

Definition handleSendMessage (cl : State) (run : SendRun)
           (forceExecution : bool) : list item :=
  let hasContent :=
    Nat.ltb 0 (length (trim (inputValue cl)))
    || Nat.ltb 0 (length (selectedFiles cl)) in
  if (negb hasContent && negb forceExecution) || isLoading cl then []
  else
    let userMsgText := trim (inputValue cl) in
    let aiMsgId := s_uuid run 1 in
    (if forceExecution then [] else [Do (SetInputValue [])])
    ++ [Do (SetIsLoading true)]
    ++ (if forceExecution then []
        else [Do (Append (userMessage (s_uuid run 0) userMsgText
                            (s_clock run 0) (selectedFiles cl)))])
    ++ (match currentSessionId cl with
        | Some cur =>
            match find (hasId cur) (sessions cl) with
            | Some currentSession =>
                if (eqb (title currentSession) (js "New Chat")
                    || Nat.eqb (length (session_messages currentSession)) 0)
                   && truthy userMsgText
                then [Await (GenerateChatTitle userMsgText)]
                else []
            | None => []
            end
        | None => []
        end)
    ++ match activeModule cl with
       | IMAGE_GEN =>
           [Do (Append (streamingMessage aiMsgId (js "Generating image...")
                          (s_clock run 1)));
            Await (GenerateImage userMsgText (Some (imageSize cl)));
            Do (PatchMsg aiMsgId
                  (match s_image run with
                   | Resolved url =>
                       settleWithMedia
                         (js "Here is your " ++ sizeName (imageSize cl)
                             ++ js " generated image for: " ++ [QUOTE]
                             ++ userMsgText ++ [QUOTE])
                         url image
                   | Rejected _ => settleWith (js "Failed to generate image.")
                   end));
            Do (SetIsLoading false)]
       | VIDEO_GEN =>
           [Do (Append (streamingMessage aiMsgId
                          (js "Generating video with Veo...")
                          (s_clock run 1)));
            Await (GenerateVideo userMsgText (videoAspectRatio cl)
                     (match selectedFiles cl with
                      | first :: _ => Some (att_data first)
                      | [] => None
                      end));
            Do (PatchMsg aiMsgId
                  (match s_video run with
                   | Resolved url =>
                       settleWithMedia (js "Video generated successfully!")
                                       url video
                   | Rejected _ => settleWith (js "Failed to generate video.")
                   end));
            Do (SetSelectedFiles []);
            Do (SetIsLoading false)]
       | TEXT_TO_SPEECH =>
           [Do (Append (streamingMessage aiMsgId (js "Generating speech...")
                          (s_clock run 1)));
            Await (GenerateSpeech userMsgText);
            Do (PatchMsg aiMsgId
                  (match s_speech run with
                   | Resolved url =>
                       settleWithAudio
                         (js "Audio generated for: " ++ [QUOTE] ++ userMsgText
                             ++ [QUOTE])
                         url
                   | Rejected _ => settleWith (js "Failed to generate speech.")
                   end));
            Do (SetIsLoading false)]
       | _ => sendDefault cl run userMsgText
       end.

End Handlers.

(** *** Accounts *)

Section Accounts.

Variable toLowerCase : jsstring -> jsstring.
Variable encodeURIComponent : jsstring -> option jsstring.

(** The mount effect: [getCurrentUser()]. *)
Definition mountEffect (st : State) : State :=
  match UserService.getCurrentUser (storage st) with
  | Some currentUser => setUser (Some currentUser) st
  | None => st
  end.

(** [handleCreateAccount] of the login screen, after its delay: [login],
    then [onLoginSuccess]. Nothing happens when [login] throws. [login]
    calls [uuidv4] when it finds no user with the email, and only then is
    the identifier handed out. *)
Definition handleCreateAccount (env : Env) (st : State) (email name : jsstring)
  : State :=
  if negb (truthy email) || negb (truthy name) then st
  else
    let st0 :=
      match find (UserService.sameEmail toLowerCase email)
                 (UserService.getUsers (storage st)) with
      | Some _ => st
      | None => issue (newId env) st
      end in
    match UserService.login toLowerCase encodeURIComponent (storage st)
                            email name (newId env) with
    | Some (u, ls) => setUser (Some u) (with_storage ls st0)
    | None => st0
    end.

(** [handleAccountSelect] of the login screen. *)
Definition handleAccountSelect (st : State) (userId : jsstring) : State :=
  match UserService.switchAccount (storage st) userId with
  | (Some u, ls) => setUser (Some u) (with_storage ls st)
  | (None, ls) => with_storage ls st
  end.

(** The [then] of [generateChatTitle] in [handleSendMessage]:
    [currentSessionId] is the one of the render the handler ran in. *)
Definition titleResolved (currentSessionId : option jsstring)
           (newTitle : jsstring) (st : State) : State :=
  setSessions
    (map (fun s => if sameId (Some (session_id s)) currentSessionId
                   then retitle newTitle s else s)
         (sessions st))
    st.

(** *** Steps of the component *)

Inductive event : Type :=
| NewSession
| SelectSession (sessionId : jsstring)
| RenameSession (id newTitle : jsstring)
| DeleteSession (id : jsstring)
| ClearAll
| Logout
| CreateAccount (email name : jsstring)
| AccountSelect (userId : jsstring)
| SelectModule (m : TaskModule)
| HandlerAction (a : action)
| TitleResolved (currentSessionId : option jsstring) (newTitle : jsstring)
| SaveKeys (keys : Keys)
| PickImageSize (s : ImageSize)
| PickAspectRatio (r : AspectRatio).

(** The updates an event queues. An [Append] carries a message whose id
    [uuidv4] has just returned. *)
Definition handle (env : Env) (ev : event) (st : State) : State :=
  match ev with
  | NewSession => createNewSession env st
  | SelectSession sessionId => switchSession st st sessionId
  | RenameSession id newTitle => handleRenameSession st id newTitle
  | DeleteSession id => handleDeleteSession env st id
  | ClearAll => handleClearAll env st
  | Logout => handleLogout st
  | CreateAccount email name =>
      handleCreateAccount (forLogin env) st email name
  | AccountSelect userId => handleAccountSelect st userId
  | SelectModule m => setActiveModule m st
  | HandlerAction (Append m) => issue (msg_id m) (perform (Append m) st)
  | HandlerAction a => perform a st
  | TitleResolved cur newTitle => titleResolved cur newTitle st
  | SaveKeys keys => setIlovePdfKeys keys st
  | PickImageSize s => setImageSize s st
  | PickAspectRatio r => setVideoAspectRatio r st
  end.

(** An event, then the renders and effects it triggers. *)
Definition step (env : Env) (ev : event) (st : State) : State :=
  commit env (handle env ev st).

End Accounts.


(** *** Renders and effects come to rest *)

(** Whether the synchronising effect has something to do in a render. *)
Definition syncRuns (st : State) : bool :=
  (d_messages (dirty st) || d_activeModule (dirty st)
   || d_currentSessionId (dirty st))
  && match currentSessionId st, user st with
     | Some cur, Some _ => truthy cur && Nat.ltb 0 (length (messages st))
     | _, _ => false
     end.

Definition syncedSessions (env : Env) (st : State) : list Session :=
  match currentSessionId st with
  | Some cur =>
      mapSession cur (resync (messages st) (activeModule st) (now env))
                 (sessions st)
  | None => sessions st
  end.

Definition saved (owner : option UserProfile) (ss : list Session)
           (ls : UserService.localStorage) : UserService.localStorage :=
  match owner with
  | Some u =>
      if Nat.ltb 0 (length ss)
      then UserService.saveUserSessions ls (user_id u) ss
      else ls
  | None => ls
  end.

(** Where the effects leave a state whose user did not change: the
    sessions are saved if they changed, the current messages are written
    to the active session if they (or the module or the selection)
    changed, and the sessions are then saved again. *)
Definition rest (env : Env) (st : State) : State :=
  let ss := if syncRuns st then syncedSessions env st else sessions st in
  let ls1 := if d_sessions (dirty st)
             then saved (user st) (sessions st) (storage st)
             else storage st in
  let ls2 := if syncRuns st then saved (user st) ss ls1 else ls1 in
  with_dirty clean (with_storage ls2 (with_sessions ss st)).

Arguments UserService.saveUserSessions : simpl never.
Arguments UserService.getUserSessions : simpl never.
Arguments UserService.logout : simpl never.
Arguments mapSession : simpl never.
Arguments truthy : simpl never.
Arguments messages_eq_dec : simpl never.
Arguments Message_eq_dec : simpl never.
Arguments TaskModule_eqb : simpl never.
Arguments sameId : simpl never.
Arguments hasId : simpl never.
Arguments syncRuns : simpl never.
Arguments syncedSessions : simpl never.

Ltac unfold_setters :=
  unfold setUser, setSessions, setCurrentSessionId, setActiveModule,
    setMessages, setMessagesTo, setInputValue, setIsLoading,
    setSelectedFiles, setToastMsg, setFeedbackModal, setIlovePdfKeys,
    setImageSize, setVideoAspectRatio, issue, mark in *.

Ltac split_match :=
  match goal with
  | |- context [match ?x with _ => _ end] => destruct x eqn:?
  end.

Lemma runEffects_at_rest (env : Env) (st : State) :
  dirty st = clean -> runEffects env st = st.
Proof. destruct st; cbn; intros ->; reflexivity. Qed.

Lemma saveEffect_saved (render st : State) :
  saveEffect render st
  = with_storage (saved (user render) (sessions render) (storage st)) st.
Proof.
  unfold saveEffect, saved. destruct st.
  destruct (user render); [destruct (Nat.ltb 0 _)|]; reflexivity.
Qed.

Lemma syncEffect_synced (env : Env) (render st : State) :
  syncEffect env render st
  = if match currentSessionId render, user render with
       | Some cur, Some _ =>
           truthy cur && Nat.ltb 0 (length (messages render))
       | _, _ => false
       end
    then setSessions
           (match currentSessionId render with
            | Some cur =>
                mapSession cur
                  (resync (messages render) (activeModule render) (now env))
                  (sessions st)
            | None => sessions st
            end) st
    else st.
Proof.
  unfold syncEffect.
  destruct (currentSessionId render) as [cur|], (user render);
    reflexivity.
Qed.

Lemma two_rounds (env : Env) (st : State) :
  d_user (dirty st) = false ->
  runEffects env (runEffects env st) = rest env st.
Proof.
  intros Hu. unfold rest, syncRuns, syncedSessions.
  unfold runEffects at 2. rewrite Hu, !orb_false_r.
  rewrite saveEffect_saved, syncEffect_synced.
  destruct st as [u ss cur am ms iv il isz var sf tm fm keys ls iss d].
  destruct d as [du ds dc da dm]. cbn in Hu. subst du.
  cbn [dirty user sessions currentSessionId messages activeModule storage
       d_sessions d_messages d_activeModule d_currentSessionId with_dirty
       with_storage].
  destruct (dm || da || dc); cbn [andb];
    [destruct (match cur with
               | Some c => match u with
                           | Some _ => truthy c && Nat.ltb 0 (length ms)
                           | None => false
                           end
               | None => false
               end)|];
    destruct ds; unfold runEffects; cbn;
      rewrite ?saveEffect_saved; reflexivity.
Qed.

Lemma rest_clean (env : Env) (st : State) : dirty (rest env st) = clean.
Proof. reflexivity. Qed.

Lemma commit_rest (env : Env) (st : State) :
  d_user (dirty st) = false -> commit env st = rest env st.
Proof.
  intros Hu. unfold commit. rewrite (two_rounds env st Hu).
  apply runEffects_at_rest, rest_clean.
Qed.

Lemma d_user_setCurrentSessionId (v : option jsstring) (st : State) :
  d_user (dirty (setCurrentSessionId v st)) = d_user (dirty st).
Proof. unfold setCurrentSessionId. cbn. now destruct (sameId _ _). Qed.

Lemma d_user_setActiveModule (v : TaskModule) (st : State) :
  d_user (dirty (setActiveModule v st)) = d_user (dirty st).
Proof. unfold setActiveModule. cbn. now destruct (TaskModule_eqb _ _). Qed.

Lemma d_user_loadEffect (env : Env) (render st : State) :
  d_user (dirty (loadEffect env render st)) = d_user (dirty st).
Proof.
  unfold loadEffect. destruct (user render) as [u|]; [|reflexivity].
  destruct (Nat.eqb _ 0).
  - cbn [dirty with_storage setMessages mark with_dirty mark_messages d_user
         with_messages].
    now rewrite d_user_setCurrentSessionId.
  - destruct (filter notDeleted _) as [|first rest'].
    + cbn [dirty setMessages mark with_dirty mark_messages d_user
           with_messages].
      now rewrite d_user_setCurrentSessionId.
    + rewrite d_user_setActiveModule.
      cbn [dirty setMessages mark with_dirty mark_messages d_user
           with_messages].
      now rewrite d_user_setCurrentSessionId.
Qed.

Lemma runEffects_user_clean (env : Env) (st : State) :
  d_user (dirty (runEffects env st)) = false.
Proof.
  unfold runEffects. rewrite saveEffect_saved, syncEffect_synced.
  assert (H0 : d_user (dirty (if d_user (dirty st)
                              then loadEffect env st (with_dirty clean st)
                              else with_dirty clean st)) = false).
  { destruct (d_user (dirty st)); [|reflexivity].
    now rewrite d_user_loadEffect. }
  repeat match goal with
         | |- context [if ?c then _ else _] =>
             lazymatch c with
             | d_user _ => fail
             | _ => destruct c
             end
         end; cbn; exact H0.
Qed.


Lemma d_user_setMessagesTo (v : list Message) (st : State) :
  d_user (dirty (setMessagesTo v st)) = d_user (dirty st).
Proof. unfold setMessagesTo. cbn. now destruct (messages_eq_dec _ _). Qed.

Lemma d_user_switchSession (cl st : State) (sessionId : jsstring) :
  d_user (dirty (switchSession cl st sessionId)) = d_user (dirty st).
Proof.
  unfold switchSession. destruct (find _ _); [|reflexivity].
  destruct st. unfold setSelectedFiles, setActiveModule, setMessagesTo,
    setCurrentSessionId. cbn.
  destruct (TaskModule_eqb _ _), (messages_eq_dec _ _), (sameId _ _);
    reflexivity.
Qed.

Lemma d_user_createNewSession (env : Env) (st : State) :
  d_user (dirty (createNewSession env st)) = d_user (dirty st).
Proof.
  destruct st. unfold createNewSession, setSelectedFiles, setActiveModule,
    setMessages, setCurrentSessionId, setSessions, issue, mark. cbn.
  destruct (TaskModule_eqb _ _), (sameId _ _); reflexivity.
Qed.

(** *** Facts about session lists *)

Lemma sameId_true (a b : option jsstring) : sameId a b = true <-> a = b.
Proof.
  destruct a as [x|], b as [y|]; unfold sameId;
    try (split; [discriminate | congruence]); [|tauto].
  rewrite eqb_eq. split; congruence.
Qed.

Lemma hasId_true (id : jsstring) (s : Session) :
  hasId id s = true <-> session_id s = id.
Proof. apply eqb_eq. Qed.

Lemma find_hasId (l : list Session) (s : Session) :
  NoDup (map session_id l) -> In s l ->
  find (hasId (session_id s)) l = Some s.
Proof.
  induction l as [|x l IH]; simpl; intros Hnd Hin; [contradiction|].
  inversion Hnd as [|? ? Hx Hnd']; subst.
  destruct Hin as [->|Hin].
  - unfold hasId. now rewrite eqb_refl.
  - destruct (hasId (session_id s) x) eqn:Hid.
    + apply hasId_true in Hid. exfalso. apply Hx. rewrite Hid.
      now apply in_map.
    + now apply IH.
Qed.

Lemma length_mapSession (id : jsstring) (f : Session -> Session)
      (l : list Session) :
  length (mapSession id f l) = length l.
Proof. apply length_map. Qed.

(** C5. In a state at rest with distinct session ids: deleting the active
    session while another non-deleted session remains makes the first of
    them the active one, with its messages and module loaded; the session
    array is the old one with the flag set on the sessions of that id
    (and, when the synchronising effect runs, the newly active session
    written back with its own messages and module), so the deleted session
    is flagged and kept and every other session keeps its id, title,
    messages, module and flag; deleting the active session when none
    remains creates a fresh empty session that becomes active; deleting
    another session changes the sessions with that id, by setting their
    flag, and the stored copy of the session array, and nothing else. *)
Theorem handleDeleteSession_selects
        (toLowerCase : jsstring -> jsstring)
        (encodeURIComponent : jsstring -> option jsstring)
        (env : Env) (st : State) (id : jsstring) :
  dirty st = clean ->
  NoDup (map session_id (sessions st)) ->
  let st' := step toLowerCase encodeURIComponent env (DeleteSession id) st in
  let remaining :=
    filter (fun s => negb (hasId id s) && notDeleted s) (sessions st) in
  (currentSessionId st = Some id ->
   forall first others, remaining = first :: others ->
     let flagged := mapSession id markDeleted (sessions st) in
     currentSessionId st' = Some (session_id first)
     /\ messages st' = session_messages first
     /\ activeModule st' = session_activeModule first
     /\ (sessions st' = flagged
         \/ sessions st'
            = mapSession (session_id first)
                         (resync (session_messages first)
                                 (session_activeModule first) (now env))
                         flagged)
     /\ forall s, In s (sessions st) ->
          (hasId id s = true -> In (markDeleted s) (sessions st'))
          /\ (hasId id s = false ->
              exists s', In s' (sessions st')
                         /\ session_id s' = session_id s
                         /\ title s' = title s
                         /\ session_messages s' = session_messages s
                         /\ session_activeModule s' = session_activeModule s
                         /\ isDeleted s' = isDeleted s))
  /\ (currentSessionId st = Some id -> remaining = [] ->
      currentSessionId st' = Some (newId env)
      /\ messages st' = []
      /\ activeModule st' = GENERAL
      /\ sessions st'
         = newChat (newId env) (now env)
           :: mapSession id markDeleted (sessions st))
  /\ (currentSessionId st <> Some id ->
      st' = with_storage
              (saved (user st) (mapSession id markDeleted (sessions st))
                     (storage st))
              (with_sessions (mapSession id markDeleted (sessions st)) st)
      /\ forall s, In s (sessions st) ->
           (hasId id s = false -> In s (sessions st'))
           /\ (hasId id s = true -> In (markDeleted s) (sessions st'))).
Proof.
  intros Hclean Hnd st' remaining. subst st'.
  unfold step, handle, handleDeleteSession. fold remaining.
  split; [|split].
  - intros Hcur first others Hrem.
    assert (Hsame : sameId (currentSessionId st) (Some id) = true)
      by now apply sameId_true.
    rewrite Hsame, Hrem.
    assert (Hin : In first (sessions st)).
    { assert (H : In first remaining) by (rewrite Hrem; now left).
      apply filter_In in H. tauto. }
    rewrite commit_rest
      by (rewrite d_user_switchSession; cbn; now rewrite Hclean).
    unfold switchSession. rewrite (find_hasId _ _ Hnd Hin).
    set (flagged := mapSession id markDeleted (sessions st)).
    split; [destruct st; reflexivity|].
    split; [destruct st; reflexivity|].
    split; [destruct st; reflexivity|].
    assert (Hss : sessions (rest env
                    (setSelectedFiles []
                       (setActiveModule (session_activeModule first)
                          (setMessagesTo (session_messages first)
                             (setCurrentSessionId (Some (session_id first))
                                (setSessions flagged st))))))
                  = flagged
                  \/ sessions (rest env
                    (setSelectedFiles []
                       (setActiveModule (session_activeModule first)
                          (setMessagesTo (session_messages first)
                             (setCurrentSessionId (Some (session_id first))
                                (setSessions flagged st))))))
                     = mapSession (session_id first)
                         (resync (session_messages first)
                                 (session_activeModule first) (now env))
                         flagged).
    { unfold rest. destruct (syncRuns _); [right|left].
      - destruct st; reflexivity.
      - destruct st; reflexivity. }
    split; [exact Hss|].
    assert (Hfirst : hasId id first = false).
    { assert (H : In first remaining) by (rewrite Hrem; now left).
      apply filter_In in H. destruct H as [_ H].
      apply andb_prop in H. destruct H as [H _].
      now apply negb_true_iff in H. }
    assert (Hflag : forall s, In s (sessions st) ->
                      In (if hasId id s then markDeleted s else s) flagged).
    { intros s Hs. unfold flagged, mapSession. apply in_map_iff. eauto. }
    intros s Hs. specialize (Hflag s Hs). split; intros Hid.
    + rewrite Hid in Hflag.
      destruct Hss as [-> | ->]; [exact Hflag|].
      unfold mapSession. apply in_map_iff. exists (markDeleted s).
      split; [|exact Hflag].
      replace (hasId (session_id first) (markDeleted s)) with false;
        [reflexivity|].
      symmetry. apply hasId_true in Hid.
      destruct (hasId (session_id first) (markDeleted s)) eqn:E;
        [|reflexivity].
      apply hasId_true in E. cbn [markDeleted session_id] in E.
      rewrite Hid in E. unfold hasId in Hfirst.
      rewrite <- E in Hfirst. now rewrite eqb_refl in Hfirst.
    + rewrite Hid in Hflag.
      destruct Hss as [-> | ->]; [exists s; auto 7|].
      destruct (hasId (session_id first) s) eqn:E.
      * apply hasId_true in E.
        assert (s = first).
        { pose proof (find_hasId _ _ Hnd Hs) as H1.
          pose proof (find_hasId _ _ Hnd Hin) as H2.
          rewrite E in H1. congruence. }
        subst s.
        exists (resync (session_messages first) (session_activeModule first)
                       (now env) first).
        split; [|cbn; auto 6].
        unfold mapSession. apply in_map_iff. exists first.
        split; [|exact Hflag].
        replace (hasId (session_id first) first) with true; [reflexivity|].
        symmetry. now apply hasId_true.
      * exists s. split; [|auto 6].
        unfold mapSession. apply in_map_iff. exists s.
        split; [now rewrite E | exact Hflag].
  - intros Hcur Hrem.
    assert (Hsame : sameId (currentSessionId st) (Some id) = true)
      by now apply sameId_true.
    rewrite Hsame, Hrem.
    rewrite commit_rest
      by (rewrite d_user_createNewSession; cbn; now rewrite Hclean).
    destruct st. unfold rest, syncRuns, createNewSession. unfold_setters.
    cbn. destruct user0; rewrite ?andb_false_r; repeat split; reflexivity.
  - intros Hcur.
    assert (Hsame : sameId (currentSessionId st) (Some id) = false).
    { destruct (sameId (currentSessionId st) (Some id)) eqn:E;
        [|reflexivity].
      apply sameId_true in E. contradiction. }
    rewrite Hsame.
    rewrite commit_rest by (cbn; now rewrite Hclean).
    destruct st. cbn in Hclean. subst.
    unfold rest, syncRuns. unfold_setters. cbn.
    split; [reflexivity|].
    intros s Hin. unfold mapSession. split; intros Hid.
    + apply in_map_iff. exists s. now rewrite Hid.
    + apply in_map_iff. exists s. now rewrite Hid.
Qed.

(** *** Sessions are kept *)

(** [s'] is the session [s] as it was, its flag and time stamp apart, and
    a flag that was set is still set. *)
Definition retained (s s' : Session) : Prop :=
  session_id s' = session_id s /\ title s' = title s
  /\ session_messages s' = session_messages s
  /\ session_activeModule s' = session_activeModule s
  /\ (isDeleted s' = Some true \/ isDeleted s' = isDeleted s).

Lemma retained_markDeleted (s : Session) : retained s (markDeleted s).
Proof. unfold retained. cbn. auto 6. Qed.

Lemma retained_refl (s : Session) : retained s s.
Proof. unfold retained. auto 6. Qed.

Lemma In_mapSession (id : jsstring) (f : Session -> Session)
      (l : list Session) (s : Session) :
  In s l -> In (if hasId id s then f s else s) (mapSession id f l).
Proof. intros H. unfold mapSession. apply in_map_iff. eauto. Qed.

Lemma NoDup_same_id (l : list Session) (s t : Session) :
  NoDup (map session_id l) -> In s l -> In t l ->
  session_id s = session_id t -> s = t.
Proof.
  induction l as [|x l IH]; simpl; intros Hnd Hs Ht Hid; [contradiction|].
  inversion Hnd as [|? ? Hx Hnd']; subst.
  destruct Hs as [->|Hs], Ht as [->|Ht]; auto.
  - exfalso. apply Hx. rewrite Hid. now apply in_map.
  - exfalso. apply Hx. rewrite <- Hid. now apply in_map.
Qed.

Lemma length_syncedSessions (env : Env) (st : State) :
  length (syncedSessions env st) = length (sessions st).
Proof.
  unfold syncedSessions. destruct (currentSessionId st); [|reflexivity].
  apply length_mapSession.
Qed.

Lemma rest_saved (env : Env) (st : State) (u : UserProfile) :
  user st = Some u -> d_sessions (dirty st) = true -> sessions st <> [] ->
  UserService.getUserSessions (storage (rest env st)) (user_id u)
  = sessions (rest env st).
Proof.
  intros Hu Hd Hne.
  assert (Hlen : Nat.ltb 0 (length (sessions st)) = true)
    by (destruct (sessions st); [congruence | reflexivity]).
  pose proof (length_syncedSessions env st) as Hsl.
  unfold rest, saved. rewrite Hu, Hd.
  destruct (syncRuns st); rewrite ?Hsl, Hlen;
    destruct st as [u0 ss cur am ms iv il isz var sf tm fm keys ls iss d];
    cbn; apply UserService.getUserSessions_save.
Qed.

Lemma not_listed (st : State) (s : Session) :
  isDeleted s = Some true -> ~ In s (sidebarSessions st).
Proof.
  intros Hdel Hin. unfold sidebarSessions in Hin.
  apply filter_In in Hin. destruct Hin as [_ Hnd].
  unfold notDeleted in Hnd. rewrite Hdel in Hnd. discriminate.
Qed.

Lemma syncRuns_no_messages (st : State) :
  messages st = [] -> syncRuns st = false.
Proof.
  intros H. unfold syncRuns. rewrite H.
  destruct (currentSessionId st), (user st); cbn;
    rewrite ?andb_false_r; reflexivity.
Qed.

Lemma syncRuns_clean (st : State) :
  d_messages (dirty st) = false -> d_activeModule (dirty st) = false ->
  d_currentSessionId (dirty st) = false -> syncRuns st = false.
Proof. intros H1 H2 H3. unfold syncRuns. now rewrite H1, H2, H3. Qed.

(** What [handleDeleteSession] queues in a state at rest. *)
Lemma handleDeleteSession_result (env : Env) (st : State) (id : jsstring) :
  dirty st = clean -> NoDup (map session_id (sessions st)) ->
  let h := handleDeleteSession env st id in
  user h = user st /\ d_user (dirty h) = false
  /\ d_sessions (dirty h) = true
  /\ ((sessions h = mapSession id markDeleted (sessions st)
       /\ (syncRuns h = true ->
           exists first, In first (sessions st)
             /\ currentSessionId h = Some (session_id first)
             /\ messages h = session_messages first
             /\ activeModule h = session_activeModule first))
      \/ (sessions h
          = newChat (newId env) (now env)
            :: mapSession id markDeleted (sessions st)
          /\ syncRuns h = false)).
Proof.
  intros Hclean Hnd h. subst h. unfold handleDeleteSession.
  destruct (sameId (currentSessionId st) (Some id)) eqn:Hcur.
  - destruct (filter _ (sessions st)) as [|first others] eqn:Hrem.
    + destruct st. cbn in Hclean. subst. unfold createNewSession.
      unfold_setters. cbn.
      repeat split; try reflexivity;
        try (destruct (TaskModule_eqb _ _), (sameId (Some _) _);
             reflexivity).
      right. split; [reflexivity|]. now apply syncRuns_no_messages.
    + assert (Hin : In first (sessions st)).
      { assert (H : In first (first :: others)) by now left.
        rewrite <- Hrem in H. apply filter_In in H. tauto. }
      unfold switchSession. rewrite (find_hasId _ _ Hnd Hin).
      destruct st. cbn in Hclean. subst. unfold_setters. cbn.
      repeat split; try reflexivity;
        try (destruct (TaskModule_eqb _ _), (messages_eq_dec _ _),
               (sameId (Some _) _); reflexivity).
      left. split; [reflexivity|]. intros _. exists first. cbn in Hin. auto.
  - destruct st. cbn in Hclean. subst. unfold_setters. cbn.
    repeat split; try reflexivity.
    left. split; [reflexivity|]. intros H.
    rewrite syncRuns_clean in H by reflexivity. discriminate.
Qed.

Lemma handleClearAll_result (env : Env) (st : State) (u : UserProfile) :
  dirty st = clean -> user st = Some u ->
  let h := handleClearAll env st in
  user h = Some u /\ d_user (dirty h) = false
  /\ d_sessions (dirty h) = true
  /\ sessions h = newChat (newId env) (now env)
                  :: map markDeleted (sessions st)
  /\ syncRuns h = false.
Proof.
  intros Hclean Hu h. subst h. unfold handleClearAll. rewrite Hu.
  destruct st. cbn in Hclean, Hu. subst. unfold_setters. cbn.
  repeat split; try reflexivity;
    try (destruct (sameId (Some _) _); reflexivity).
  now apply syncRuns_no_messages.
Qed.

(** The sessions an event is aimed at. *)
Definition aimedAt (ev : event) (s : Session) : Prop :=
  match ev with
  | DeleteSession id => hasId id s = true
  | ClearAll => True
  | _ => False
  end.

(** C3. In every state the sidebar gets no session whose flag is set.
    In a state at rest with a user and distinct session ids, delete and
    clear-all leave every session of the array in the array, with its id,
    title, messages and module, the sessions aimed at with their flag set
    and absent from the sidebar; and the array kept under the user's key
    in the store is that array. *)
Theorem deleted_sessions_hidden_and_kept
        (toLowerCase : jsstring -> jsstring)
        (encodeURIComponent : jsstring -> option jsstring)
        (env : Env) (st : State) (u : UserProfile) (ev : event) :
  (forall s, In s (sidebarSessions st) -> isDeleted s <> Some true)
  /\ (dirty st = clean -> user st = Some u -> sessions st <> [] ->
      NoDup (map session_id (sessions st)) ->
      (exists id, ev = DeleteSession id) \/ ev = ClearAll ->
      let st' := step toLowerCase encodeURIComponent env ev st in
      UserService.getUserSessions (storage st') (user_id u) = sessions st'
      /\ forall s, In s (sessions st) ->
           exists s', In s' (sessions st') /\ retained s s'
             /\ (aimedAt ev s ->
                 isDeleted s' = Some true /\ ~ In s' (sidebarSessions st'))).
Proof.
  split.
  - intros s Hin Hdel. exact (not_listed st s Hdel Hin).
  - intros Hclean Hu Hne Hnd Hev st'. subst st'. unfold step.
    destruct Hev as [[id ->] | ->]; cbn [handle].
    + destruct (handleDeleteSession_result env st id Hclean Hnd)
        as (Hu' & Hdu & Hds & Hshape).
      rewrite (commit_rest _ _ Hdu).
      split.
      * apply rest_saved; [congruence | exact Hds |].
        destruct Hshape as [[-> _] | [-> _]]; [|discriminate].
        intros H. apply (f_equal (@length _)) in H.
        rewrite length_mapSession in H. destruct (sessions st);
          [congruence | discriminate].
      * intros s Hin.
        pose proof (In_mapSession id markDeleted _ s Hin) as Hin1.
        set (s1 := if hasId id s then markDeleted s else s) in *.
        assert (Hret1 : retained s s1)
          by (subst s1; destruct (hasId id s);
              [apply retained_markDeleted | apply retained_refl]).
        assert (Hdel1 : hasId id s = true -> isDeleted s1 = Some true)
          by (intros E; subst s1; rewrite E; reflexivity).
        assert (Hsess : sessions (rest env (handleDeleteSession env st id))
                        = if syncRuns (handleDeleteSession env st id)
                          then syncedSessions env
                                 (handleDeleteSession env st id)
                          else sessions (handleDeleteSession env st id))
          by reflexivity.
        destruct Hshape as [[Hsh Hsync] | [Hsh Hsync]].
        -- destruct (syncRuns (handleDeleteSession env st id)) eqn:Hrun.
           ++ destruct (Hsync eq_refl) as (first & Hfirst & Hc & Hm & Ha).
              unfold syncedSessions in Hsess. rewrite Hc, Hm, Ha, Hsh in Hsess.
              pose proof (In_mapSession (session_id first)
                            (resync (session_messages first)
                                    (session_activeModule first) (now env))
                            _ s1 Hin1) as Hin2.
              eexists. split; [rewrite Hsess; exact Hin2|].
              destruct Hret1 as (Hid & Ht & Hm1 & Ha1 & Hd1).
              destruct (hasId (session_id first) s1) eqn:Hf.
              ** apply hasId_true in Hf.
                 assert (s = first)
                   by (apply (NoDup_same_id _ _ _ Hnd Hin Hfirst);
                       congruence).
                 subst first. split.
                 { unfold retained. cbn. auto 6. }
                 intros Haim.
                 split; [cbn; now apply Hdel1
                        | apply not_listed; cbn; now apply Hdel1].
              ** split; [unfold retained; auto 6|].
                 intros Haim. split; [now apply Hdel1|].
                 apply not_listed. now apply Hdel1.
           ++ exists s1. rewrite Hsess, Hsh. split; [exact Hin1|].
              split; [exact Hret1|].
              intros Haim. split; [now apply Hdel1|].
              apply not_listed. now apply Hdel1.
        -- rewrite Hsync in Hsess. exists s1. rewrite Hsess, Hsh.
           split; [right; exact Hin1|]. split; [exact Hret1|].
           intros Haim. split; [now apply Hdel1|].
           apply not_listed. now apply Hdel1.
    + destruct (handleClearAll_result env st u Hclean Hu)
        as (Hu' & Hdu & Hds & Hsh & Hsync).
      rewrite (commit_rest _ _ Hdu).
      split.
      * apply rest_saved; [exact Hu' | exact Hds |].
        rewrite Hsh. discriminate.
      * intros s Hin. exists (markDeleted s).
        assert (Hsess : sessions (rest env (handleClearAll env st))
                        = sessions (handleClearAll env st))
          by (unfold rest; rewrite Hsync; destruct (handleClearAll env st);
              reflexivity).
        rewrite Hsess, Hsh.
        split; [right; now apply in_map|].
        split; [apply retained_markDeleted|].
        intros _. split; [reflexivity|]. now apply not_listed.
Qed.

(** *** A settled message stays settled *)

(** No message of the list has the id [i] and is streaming. *)
Definition quietList (i : jsstring) (l : list Message) : Prop :=
  forall m, In m l -> msg_id m = i -> isStreaming m <> Some true.

Definition quietSessions (i : jsstring) (ss : list Session) : Prop :=
  forall s, In s ss -> quietList i (session_messages s).


Lemma quietList_nil (i : jsstring) : quietList i [].
Proof. intros m []. Qed.








Lemma quietSessions_newChat (i id : jsstring) (t : Z) :
  quietList i (session_messages (newChat id t)).
Proof. apply quietList_nil. Qed.

Lemma quietSessions_filter (i : jsstring) (f : Session -> bool)
      (ss : list Session) :
  quietSessions i ss -> quietSessions i (filter f ss).
Proof. intros H s Hin. apply filter_In in Hin. now apply H. Qed.














Lemma sessions_setCurrentSessionId (v : option jsstring) (st : State) :
  sessions (setCurrentSessionId v st) = sessions st.
Proof. destruct st. reflexivity. Qed.









(** *** What the handlers do to messages *)

Lemma actionsOf_app (r r' : list item) :
  actionsOf (r ++ r') = actionsOf r ++ actionsOf r'.
Proof. apply flat_map_app. Qed.

Lemma actionsOf_map_Do {A : Type} (f : A -> action) (l : list A) :
  actionsOf (map (fun x => Do (f x)) l) = map f l.
Proof.
  induction l as [|x l IH]; [reflexivity|].
  cbn. f_equal. exact IH.
Qed.







Section HandlerFacts.

Variable contextParams : TaskModule -> option jsstring.







End HandlerFacts.

(** *** Steps keep settled messages settled *)

Section Steps.

Variable contextParams : TaskModule -> option jsstring.
Variable toLowerCase : jsstring -> jsstring.
Variable encodeURIComponent : jsstring -> option jsstring.













End Steps.

(** *** The life of a streaming message within a handler run *)

(** What an update does to the [messages] array. *)
Definition applyAction (a : action) (l : list Message) : list Message :=
  match a with
  | Append m => l ++ [m]
  | PatchMsg id p => patchMessages id p l
  | _ => l
  end.

Lemma messages_perform (a : action) (st : State) :
  messages (perform a st) = applyAction a (messages st).
Proof. destruct a, st; reflexivity. Qed.

Fixpoint runActions (acts : list action) (l : list Message) : list Message :=
  match acts with
  | [] => l
  | a :: rest => runActions rest (applyAction a l)
  end.








Lemma eqb_sym (a b : jsstring) : eqb a b = eqb b a.
Proof.
  destruct (eqb a b) eqn:E1, (eqb b a) eqn:E2; try reflexivity.
  - apply eqb_eq in E1. subst. now rewrite eqb_refl in E2.
  - apply eqb_eq in E2. subst. now rewrite eqb_refl in E1.
Qed.












Lemma actionsOf_Do (a : action) (r : list item) :
  actionsOf (Do a :: r) = a :: actionsOf r.
Proof. reflexivity. Qed.

Lemma actionsOf_Await (c : call) (r : list item) :
  actionsOf (Await c :: r) = actionsOf r.
Proof. reflexivity. Qed.



Section Lifecycles.

Variable contextParams : TaskModule -> option jsstring.














Lemma eqb_neq (a b : jsstring) : a <> b -> eqb a b = false.
Proof.
  intros H. destruct (eqb a b) eqn:E; [|reflexivity].
  apply eqb_eq in E. contradiction.
Qed.


End Lifecycles.

(** *** The update that settles a message follows the end of a call *)













Section Served.

Variable contextParams : TaskModule -> option jsstring.









End Served.

(** *** A handler run among the other events *)

Section Runs.

Variable toLowerCase : jsstring -> jsstring.
Variable encodeURIComponent : jsstring -> option jsstring.

(** The events of a handler run: its state updates and, at each call it
    awaits, what the user does in the meantime. *)
Fixpoint eventsOf (user : call -> list event) (items : list item)
  : list event :=
  match items with
  | [] => []
  | Do a :: rest => HandlerAction a :: eventsOf user rest
  | Await c :: rest => user c ++ eventsOf user rest
  end.

(** Events in a row; [envs k] is what the [k]-th of them gets from
    outside. *)
Fixpoint runEvents (envs : nat -> Env) (k : nat) (evs : list event)
         (st : State) : State :=
  match evs with
  | [] => st
  | ev :: rest =>
      runEvents envs (S k) rest
                (step toLowerCase encodeURIComponent (envs k) ev st)
  end.


Definition writesMessages (a : action) : bool :=
  match a with
  | Append _ | PatchMsg _ _ => true
  | _ => false
  end.

(** Whether the synchronising effect writes the messages [l] to the
    active session. *)
Definition syncs (st : State) (l : list Message) : bool :=
  match currentSessionId st, user st with
  | Some cur, Some _ => truthy cur && Nat.ltb 0 (length l)
  | _, _ => false
  end.

Lemma eventsOf_alone (items : list item) :
  eventsOf (fun _ => []) items = map HandlerAction (actionsOf items).
Proof.
  induction items as [|[a|c] items IH]; [reflexivity| |].
  - rewrite actionsOf_Do. cbn [eventsOf map]. now rewrite IH.
  - rewrite actionsOf_Await. cbn [eventsOf app]. exact IH.
Qed.


(** One update of a handler, with the effects it triggers, in a state at
    rest. *)
Lemma step_HandlerAction (env : Env) (a : action) (st : State) :
  dirty st = clean ->
  let st' := step toLowerCase encodeURIComponent env (HandlerAction a) st in
  let l := applyAction a (messages st) in
  let sync := writesMessages a && syncs st l in
  messages st' = l
  /\ user st' = user st
  /\ currentSessionId st' = currentSessionId st
  /\ dirty st' = clean
  /\ sessions st'
     = (if sync
        then match currentSessionId st with
             | Some cur =>
                 mapSession cur (resync l (activeModule st) (now env))
                            (sessions st)
             | None => sessions st
             end
        else sessions st)
  /\ storage st'
     = (if sync then saved (user st) (sessions st') (storage st)
        else storage st).
Proof.
  intros Hd st' l sync. subst st' l sync. unfold step.
  destruct st as [u ss cur am ms iv il isz var sf tm fm keys ls iss d].
  cbn in Hd. subst d.
  rewrite commit_rest by (destruct a; reflexivity).
  unfold rest, syncRuns, syncedSessions, syncs.
  destruct a; cbn [handle perform writesMessages andb applyAction];
    unfold setMessages, issue, mark, setIsLoading, setInputValue,
      setSelectedFiles, setToastMsg, setFeedbackModal;
    cbn [dirty user sessions currentSessionId messages activeModule storage
         with_messages with_dirty with_issued with_isLoading with_inputValue
         with_selectedFiles with_toastMsg with_feedbackModal with_storage
         with_sessions mark_messages clean d_user d_sessions
         d_currentSessionId d_activeModule d_messages orb andb];
    repeat split; try reflexivity.
Qed.















End Runs.

(** *** A handler run while the display is left alone *)

Section Calm.

Variable toLowerCase : jsstring -> jsstring.
Variable encodeURIComponent : jsstring -> option jsstring.


















End Calm.


(** *** Example states *)

Definition ann_first : Message :=
  userMessage (js "m-1") (js "hello") 5 [].

Definition chatA : Session :=
  {| session_id := js "a"; title := js "Greetings";
     session_messages := [ann_first]; session_activeModule := WRITER;
     lastModified := 5; isDeleted := None |}.
Definition chatB : Session :=
  {| session_id := js "b"; title := js "Sums";
     session_messages := []; session_activeModule := BUSINESS_CALC;
     lastModified := 4; isDeleted := None |}.
Definition chatC : Session := markDeleted (newChat (js "c") 1).

(** A state at rest of the user [ann] with the given sessions, the first
    of which is [chatA], the active one. *)
Definition atRest (ss : list Session) : State :=
  {| user := Some UserService.ann; sessions := chatA :: ss;
     currentSessionId := Some (js "a"); activeModule := WRITER;
     messages := [ann_first]; inputValue := []; isLoading := false;
     imageSize := size1K; videoAspectRatio := ratio16x9;
     selectedFiles := []; toastMsg := None; feedbackModal := (false, None);
     ilovePdfKeys := {| public := []; secret := js "s" |};
     storage := UserService.store_ann;
     issued := [js "m-1"; js "a"; js "b"; js "c"]; dirty := clean |}.

Definition at7 : Env := {| now := 7; newId := js "n"; loginId := js "u" |}.

Lemma NoDup_abc : NoDup (map session_id [chatA; chatC; chatB]).
Proof.
  repeat constructor; simpl; intros H;
    repeat (destruct H as [H|H]; [discriminate H|]); exact H.
Qed.

Lemma handleDeleteSession_selects_witness :
  (let st' := step UserService.asciiLower Some at7 (DeleteSession (js "a"))
                   (atRest [chatC; chatB]) in
   currentSessionId st' = Some (js "b") /\ messages st' = []
   /\ activeModule st' = BUSINESS_CALC
   /\ In (markDeleted chatA) (sessions st'))
  /\ (let st' := step UserService.asciiLower Some at7 (DeleteSession (js "a"))
                      (atRest [chatC]) in
      currentSessionId st' = Some (js "n") /\ messages st' = []
      /\ activeModule st' = GENERAL
      /\ sessions st' = [newChat (js "n") 7; markDeleted chatA; chatC])
  /\ (let st' := step UserService.asciiLower Some at7 (DeleteSession (js "b"))
                      (atRest [chatC; chatB]) in
      sessions st' = [chatA; chatC; markDeleted chatB]
      /\ messages st' = [ann_first]
      /\ currentSessionId st' = Some (js "a")).
Proof.
  split; [|split].
  - destruct (handleDeleteSession_selects UserService.asciiLower Some at7
                (atRest [chatC; chatB]) (js "a") eq_refl NoDup_abc)
      as (H & _ & _).
    destruct (H eq_refl chatB [] eq_refl) as (H1 & H2 & H3 & _ & H5).
    split; [exact H1|]. split; [exact H2|]. split; [exact H3|].
    exact (proj1 (H5 chatA (or_introl eq_refl)) eq_refl).
  - destruct (handleDeleteSession_selects UserService.asciiLower Some at7
                (atRest [chatC]) (js "a") eq_refl)
      as (_ & H & _).
    + repeat constructor; simpl; intros H;
        repeat (destruct H as [H|H]; [discriminate H|]); exact H.
    + exact (H eq_refl eq_refl).
  - destruct (handleDeleteSession_selects UserService.asciiLower Some at7
                (atRest [chatC; chatB]) (js "b") eq_refl NoDup_abc)
      as (_ & _ & H).
    destruct H as [-> _]; [discriminate|].
    repeat split; reflexivity.
Defined.


Definition noContext (m : TaskModule) : option jsstring := None.

Definition ids (n : nat) : jsstring := repeat 120%N n.


Definition sendRun : SendRun :=
  {| s_uuid := ids; s_clock := fun _ => 9%Z;
     s_stream := {| chunks := [js "Hel"; js "lo"]; failure := None |};
     s_image := Rejected (js "unused"); s_video := Rejected (js "unused");
     s_speech := Rejected (js "unused") |}.

Definition deck : Attachment :=
  {| att_name := js "deck.pdf"; att_type := js "application/pdf";
     att_data := js "data:application/pdf;base64,JVBERg==" |}.

(** A state with one file selected and a public key configured. *)
Definition readyToConvert : State :=
  with_ilovePdfKeys {| public := js "project_public_1"; secret := js "s" |}
    (with_selectedFiles [deck] (atRest [chatB])).

(** The conversion service fails, the fallback stream succeeds. *)
Definition fallbackRun : ConvertRun :=
  {| c_uuid := ids; c_clock := fun _ => 9%Z;
     c_ilovepdf := fun _ => Rejected (js "Auth failed. Check Public Key.");
     c_stream := fun _ => {| chunks := [js "1. Intro"; js " 2. End"];
                             failure := None |} |}.

(** [ann] has typed a message in the chat [chatA]. *)
Definition typing : State := with_inputValue (js "hi") (atRest [chatB]).









Lemma deleted_sessions_hidden_and_kept_witness :
  let st' := step UserService.asciiLower Some at7 (DeleteSession (js "b"))
                  (atRest [chatC; chatB]) in
  UserService.getUserSessions (storage st') (js "id-1") = sessions st'
  /\ exists s', In s' (sessions st') /\ retained chatB s'
       /\ isDeleted s' = Some true /\ ~ In s' (sidebarSessions st').
Proof.
  destruct (deleted_sessions_hidden_and_kept UserService.asciiLower Some at7
              (atRest [chatC; chatB]) UserService.ann
              (DeleteSession (js "b")))
    as [_ H].
  destruct (H eq_refl eq_refl) as [Hstore Hkept].
  - discriminate.
  - exact NoDup_abc.
  - left. exists (js "b"). reflexivity.
  - split; [exact Hstore|].
    destruct (Hkept chatB) as (s' & Hin & Hret & Haim).
    + right. right. left. reflexivity.
    + exists s'. destruct (Haim eq_refl) as [Hdel Hhid]. auto.
Defined.

Section Conversion.

Variable contextParams : TaskModule -> option jsstring.

(** The service calls of one file, with a public key configured: the
    conversion service, and the fallback exactly when that call fails. *)
Lemma convertFile_calls (keys : Keys) (f : TargetFormat) (run : ConvertRun)
      (k : nat) (file : Attachment) :
  truthy (public keys) = true ->
  callsOf (convertFile contextParams keys f run k file)
  = ConvertWithILovePDF (att_data file) (att_name file) (toolMap f)
                        (public keys) (secret keys)
    :: match c_ilovepdf run k with
       | Resolved _ => []
       | Rejected _ =>
           [SendMessageStream (fallbackPrompt f) (contextParams CONVERTER)
                              (Some [(att_data file, att_type file)])]
       end.
Proof.
  intros Hkey. unfold convertFile, convertFallback. rewrite Hkey.
  replace (truthy (toolMap f)) with true by (destruct f; reflexivity).
  cbn [andb]. destruct (c_ilovepdf run k); [reflexivity|].
  destruct (failure (c_stream run k)); reflexivity.
Qed.

(** Every file of the list is processed, whatever happened to the files
    before it. *)
Lemma convertFiles_calls (keys : Keys) (f : TargetFormat) (run : ConvertRun)
      (files : list Attachment) :
  truthy (public keys) = true ->
  forall k,
    callsOf (convertFiles contextParams keys f run k files)
    = concat (map (fun '(j, file) =>
                     callsOf (convertFile contextParams keys f run j file))
                  (combine (seq k (length files)) files)).
Proof.
  intros Hkey. induction files as [|file files IH]; intros k;
    [reflexivity|].
  cbn [convertFiles length seq combine map concat].
  unfold callsOf at 1. rewrite flat_map_app. fold (callsOf (convertFile
    contextParams keys f run k file)).
  f_equal. apply IH.
Qed.

(** The fallback yields a download for the three formats it has a branch
    for. *)
Lemma fallbackDownload_some (f : TargetFormat) (file : Attachment)
      (gatheredText : jsstring) :
  f <> PPT -> fallbackDownload f file gatheredText <> None.
Proof. destruct f; [discriminate.. | congruence]. Qed.

(** C1, at the input where it fails. One file, a public key configured,
    target PPT: the conversion service is called first and fails, the
    fallback is called once and succeeds, and the message of the file ends
    settled with the content "Converted deck.pdf." and no download. *)
Theorem handleConvertAction_PPT_fallback_no_download :
  let r := handleConvertAction contextParams readyToConvert fallbackRun PPT in
  callsOf r
  = [ConvertWithILovePDF (att_data deck) (js "deck.pdf") (js "pdfpowerpoint")
                         (js "project_public_1") (js "s");
     SendMessageStream (js "Create presentation outline.")
                       (contextParams CONVERTER)
                       (Some [(att_data deck, att_type deck)])]
  /\ exists msg,
      In msg (runActions (actionsOf r) (messages readyToConvert))
      /\ msg_id msg = ids 1
      /\ isStreaming msg = Some false
      /\ content msg = js "Converted deck.pdf."
      /\ downloadData msg = None.
Proof.
  split; [reflexivity|].
  eexists. split.
  - vm_compute. right. right. left. reflexivity.
  - repeat split; reflexivity.
Qed.

End Conversion.

(** *** The store follows the sessions *)

Section Persistence.

Variable toLowerCase : jsstring -> jsstring.
Variable encodeURIComponent : jsstring -> option jsstring.

(** The events that keep the user: all but logging out and logging in. *)
Definition sessionEvent (ev : event) : bool :=
  match ev with
  | Logout | CreateAccount _ _ | AccountSelect _ => false
  | _ => true
  end.

(** The store holds the sessions of the state under the key of the user,
    and there is at least one session. *)
Definition persisted (u : UserProfile) (st : State) : Prop :=
  user st = Some u
  /\ UserService.getUserSessions (storage st) (user_id u) = sessions st
  /\ sessions st <> [].

Lemma mapSession_nonempty (id : jsstring) (f : Session -> Session)
      (l : list Session) :
  l <> [] -> mapSession id f l <> [].
Proof.
  intros Hne E. apply (f_equal (@length _)) in E.
  rewrite length_mapSession in E. destruct l; [congruence | discriminate].
Qed.

Lemma rest_persisted (env : Env) (h : State) (u : UserProfile) :
  user h = Some u -> sessions h <> [] ->
  (d_sessions (dirty h) = false -> syncRuns h = false ->
   UserService.getUserSessions (storage h) (user_id u) = sessions h) ->
  persisted u (rest env h).
Proof.
  intros Hu Hne Hold.
  pose proof (length_syncedSessions env h) as Hlen.
  assert (Hpos : Nat.ltb 0 (length (sessions h)) = true)
    by (destruct (sessions h); [congruence | reflexivity]).
  unfold persisted, rest, saved. rewrite Hu.
  destruct (syncRuns h) eqn:Hs.
  - rewrite Hlen, Hpos.
    destruct h as [u0 ss cur am ms iv il isz var sf tm fm keys ls iss d].
    cbn [user sessions storage with_dirty with_storage with_sessions] in *.
    split; [exact Hu|]. split; [apply UserService.getUserSessions_save|].
    intros E. rewrite E in Hlen. destruct ss; [congruence | discriminate].
  - destruct (d_sessions (dirty h)) eqn:Hd.
    + rewrite Hpos.
      destruct h as [u0 ss cur am ms iv il isz var sf tm fm keys ls iss d].
      cbn [user sessions storage with_dirty with_storage with_sessions] in *.
      split; [exact Hu|].
      split; [apply UserService.getUserSessions_save | exact Hne].
    + specialize (Hold eq_refl eq_refl).
      destruct h as [u0 ss cur am ms iv il isz var sf tm fm keys ls iss d].
      cbn [user sessions storage with_dirty with_storage with_sessions] in *.
      auto.
Qed.

Ltac session_facts :=
  repeat split;
  first [ reflexivity | discriminate | assumption
        | now apply mapSession_nonempty
        | (intros E; apply map_eq_nil in E; congruence)
        | (cbn [length]; rewrite ?length_mapSession, ?length_map; lia) ].

(** What a session event queues, as far as the store is concerned. *)
Lemma handle_sessionEvent (env : Env) (ev : event) (st : State) :
  dirty st = clean -> sessionEvent ev = true -> sessions st <> [] ->
  let h := handle toLowerCase encodeURIComponent env ev st in
  user h = user st /\ storage h = storage st /\ d_user (dirty h) = false
  /\ sessions h <> []
  /\ (d_sessions (dirty h) = false -> sessions h = sessions st)
  /\ length (sessions st) <= length (sessions h).
Proof.
  intros Hd Hev Hne h. subst h.
  destruct st as [u ss cur am ms iv il isz var sf tm fm keys ls iss d].
  cbn in Hd, Hne. subst d.
  destruct ev as [ |sessionId|id newTitle|id| | |email name
                  |userId|m|a|cur' newTitle|keys'|sz|r];
    try discriminate Hev; clear Hev; cbn [handle].
  - unfold createNewSession. unfold_setters. cbn.
    destruct (TaskModule_eqb _ _), (sameId _ _); session_facts.
  - unfold switchSession. cbn [sessions].
    destruct (find _ ss) as [s|]; [|session_facts].
    unfold_setters. cbn.
    destruct (TaskModule_eqb _ _), (messages_eq_dec _ _), (sameId _ _);
      session_facts.
  - unfold handleRenameSession. unfold_setters. cbn. session_facts.
  - unfold handleDeleteSession. cbn [currentSessionId sessions].
    destruct (sameId cur (Some id)).
    + destruct (filter _ ss) as [|first others].
      * unfold createNewSession. unfold_setters. cbn.
        destruct (TaskModule_eqb _ _), (sameId _ _); session_facts.
      * unfold switchSession. cbn [sessions].
        destruct (find _ ss) as [s|].
        -- unfold_setters. cbn.
           destruct (TaskModule_eqb _ _), (messages_eq_dec _ _),
             (sameId _ _); session_facts.
        -- unfold_setters. cbn. session_facts.
    + unfold_setters. cbn. session_facts.
  - unfold handleClearAll. cbn [user].
    destruct u as [u|]; unfold_setters; cbn.
    + destruct (sameId _ _); session_facts.
    + session_facts.
  - unfold_setters. cbn. destruct (TaskModule_eqb _ _); session_facts.
  - destruct a; cbn [perform]; unfold_setters; cbn; session_facts.
  - unfold titleResolved. unfold_setters. cbn. session_facts.
  - unfold_setters. cbn. session_facts.
  - unfold_setters. cbn. session_facts.
  - unfold_setters. cbn. session_facts.
Qed.

Lemma length_rest (env : Env) (st : State) :
  length (sessions (rest env st)) = length (sessions st).
Proof.
  pose proof (length_syncedSessions env st) as H.
  unfold rest. destruct (syncRuns st); destruct st; cbn in *; congruence.
Qed.

(** The ids of a session array, in order. *)
Definition sessionIds (ss : list Session) : list jsstring :=
  map session_id ss.

Lemma sessionIds_map (f : Session -> Session) (ss : list Session) :
  (forall s, session_id (f s) = session_id s) ->
  sessionIds (map f ss) = sessionIds ss.
Proof.
  intros Hf. unfold sessionIds. rewrite map_map.
  apply map_ext. exact Hf.
Qed.

Lemma sessionIds_mapSession (id : jsstring) (f : Session -> Session)
      (ss : list Session) :
  (forall s, session_id (f s) = session_id s) ->
  sessionIds (mapSession id f ss) = sessionIds ss.
Proof.
  intros Hf. unfold mapSession. apply sessionIds_map.
  intros s. destruct (hasId id s); [apply Hf | reflexivity].
Qed.

Lemma sessionIds_rest (env : Env) (st : State) :
  sessionIds (sessions (rest env st)) = sessionIds (sessions st).
Proof.
  assert (H : sessionIds (syncedSessions env st) = sessionIds (sessions st)).
  { unfold syncedSessions. destruct (currentSessionId st); [|reflexivity].
    now apply sessionIds_mapSession. }
  unfold rest. destruct (syncRuns st); destruct st; exact H || reflexivity.
Qed.

(** A session event keeps the sessions there are, in their order; what it
    adds, it puts in front. *)
Lemma handle_sessionEvent_ids (env : Env) (ev : event) (st : State) :
  sessionEvent ev = true ->
  exists added,
    sessionIds (sessions (handle toLowerCase encodeURIComponent env ev st))
    = added ++ sessionIds (sessions st).
Proof.
  intros Hev.
  assert (Hswitch : forall cl st0 sessionId,
             sessions (switchSession cl st0 sessionId) = sessions st0).
  { intros cl st0 sessionId. unfold switchSession.
    destruct (find _ _); destruct st0; reflexivity. }
  assert (Hnew : forall st0,
             sessions (createNewSession env st0)
             = newChat (newId env) (now env) :: sessions st0).
  { intros st0. destruct st0; reflexivity. }
  destruct ev as [ |sessionId|id newTitle|id| | |email name
                  |userId|m|a|cur' newTitle|keys'|sz|r];
    try discriminate Hev; clear Hev; cbn [handle].
  - exists [newId env]. now rewrite Hnew.
  - exists []. now rewrite Hswitch.
  - exists []. unfold handleRenameSession.
    replace (sessions (setSessions _ st))
      with (mapSession id (retitle newTitle) (sessions st))
      by (destruct st; reflexivity).
    now apply sessionIds_mapSession.
  - unfold handleDeleteSession.
    assert (Hdel : sessions (setSessions (mapSession id markDeleted
                                                     (sessions st)) st)
                   = mapSession id markDeleted (sessions st))
      by (destruct st; reflexivity).
    destruct (sameId _ _).
    + destruct (filter _ _) as [|first others].
      * exists [newId env]. rewrite Hnew, Hdel. cbn [sessionIds map app].
        f_equal. now apply sessionIds_mapSession.
      * exists []. rewrite Hswitch, Hdel. now apply sessionIds_mapSession.
    + exists []. rewrite Hdel. now apply sessionIds_mapSession.
  - unfold handleClearAll. destruct (user st) as [u0|].
    + exists [newId env].
      replace (sessions _)
        with (newChat (newId env) (now env) :: map markDeleted (sessions st))
        by (destruct st; reflexivity).
      cbn [sessionIds map app]. f_equal. now apply sessionIds_map.
    + exists [].
      replace (sessions _) with (map markDeleted (sessions st))
        by (destruct st; reflexivity).
      now apply sessionIds_map.
  - exists []. destruct st; reflexivity.
  - exists []. destruct a, st; reflexivity.
  - exists []. unfold titleResolved.
    replace (sessions (setSessions _ st))
      with (map (fun s => if sameId (Some (session_id s)) cur'
                          then retitle newTitle s else s) (sessions st))
      by (destruct st; reflexivity).
    apply sessionIds_map. intros s. now destruct (sameId _ _).
  - exists []. destruct st; reflexivity.
  - exists []. destruct st; reflexivity.
  - exists []. destruct st; reflexivity.
Qed.

(** X12. With a user logged in, the store follows the sessions: from a
    state at rest in which the store holds the sessions of the state
    under the user's key, every sequence of events that keep the user
    (sessions created, selected, renamed, deleted, all cleared, a module
    selected, the updates of the handlers, a generated title) ends at
    rest with the store holding the sessions of the state again, and the
    array has lost no session: the ids of the sessions there were are all
    still there, in their order, behind the ids of the sessions created in
    between, in the state and so in the store. *)
Theorem sessions_persisted (envs : nat -> Env) (u : UserProfile)
        (evs : list event) :
  forallb sessionEvent evs = true ->
  forall (k : nat) (st : State),
    dirty st = clean -> persisted u st ->
    let st' := runEvents toLowerCase encodeURIComponent envs k evs st in
    dirty st' = clean /\ persisted u st'
    /\ length (sessions st) <= length (sessions st')
    /\ (exists added,
          sessionIds (sessions st') = added ++ sessionIds (sessions st))
    /\ (exists added,
          sessionIds (UserService.getUserSessions (storage st') (user_id u))
          = added
              ++ sessionIds (UserService.getUserSessions (storage st)
                                                         (user_id u))).
Proof.
  assert (Hmain : forall evs,
    forallb sessionEvent evs = true ->
    forall (k : nat) (st : State),
      dirty st = clean -> persisted u st ->
      let st' := runEvents toLowerCase encodeURIComponent envs k evs st in
      dirty st' = clean /\ persisted u st'
      /\ length (sessions st) <= length (sessions st')
      /\ (exists added,
            sessionIds (sessions st') = added ++ sessionIds (sessions st))).
  2:{ intros Hall k st Hd Hp st'.
      destruct (Hmain evs Hall k st Hd Hp) as (H1 & H2 & H3 & H4).
      split; [exact H1|]. split; [exact H2|]. split; [exact H3|].
      split; [exact H4|].
      destruct Hp as (_ & -> & _). destruct H2 as (_ & H2 & _).
      fold st' in H2. rewrite H2. exact H4. }
  clear evs.
  induction evs as [|ev evs IH]; intros Hall k st Hd Hp.
  - cbn [runEvents]. split; [exact Hd|]. split; [exact Hp|].
    split; [lia|]. now exists [].
  - cbn [forallb] in Hall. apply andb_prop in Hall.
    destruct Hall as [Hev Hall]. cbn [runEvents].
    destruct Hp as (Hu & Hstore & Hne).
    destruct (handle_sessionEvent (envs k) ev st Hd Hev Hne)
      as (Hu' & Hls & Hdu & Hne' & Hsame & Hlen).
    unfold step. rewrite (commit_rest _ _ Hdu).
    assert (Hp' : persisted u
                    (rest (envs k)
                       (handle toLowerCase encodeURIComponent (envs k) ev
                               st))).
    { apply rest_persisted; [congruence | exact Hne'|].
      intros Hds _. rewrite Hls, (Hsame Hds). exact Hstore. }
    destruct (IH Hall (S k) _ (rest_clean _ _) Hp')
      as (Hd'' & Hp'' & Hl & added & Hids).
    split; [exact Hd''|]. split; [exact Hp''|].
    split; [rewrite length_rest in Hl; lia|].
    destruct (handle_sessionEvent_ids (envs k) ev st Hev) as [added' Hids'].
    exists (added ++ added').
    rewrite Hids, sessionIds_rest, Hids', app_assoc. reflexivity.
Qed.

(** X13. A handler's update of the message list, in a state at rest with
    a user and a current session of non-empty id, reaches the sessions and
    the store with the effects it triggers: every session with the
    current id then holds the new list and the active module, every other
    session is as it was, and the store holds the sessions. Without a
    user, or while the list is empty, sessions and store stay as they
    were. *)
Theorem message_update_synced (env : Env) (a : action) (st : State)
        (cur : jsstring) :
  dirty st = clean -> writesMessages a = true ->
  currentSessionId st = Some cur -> cur <> [] ->
  let st' := step toLowerCase encodeURIComponent env (HandlerAction a) st in
  messages st' = applyAction a (messages st)
  /\ (forall u, user st = Some u -> messages st' <> [] ->
        sessions st'
        = mapSession cur (resync (messages st') (activeModule st) (now env))
                     (sessions st)
        /\ (forall s', In s' (sessions st') -> session_id s' = cur ->
              session_messages s' = messages st'
              /\ session_activeModule s' = activeModule st)
        /\ (forall s, In s (sessions st) -> session_id s <> cur ->
              In s (sessions st'))
        /\ (sessions st <> [] ->
            UserService.getUserSessions (storage st') (user_id u)
            = sessions st'))
  /\ (user st = None \/ messages st' = [] ->
      sessions st' = sessions st /\ storage st' = storage st).
Proof.
  intros Hd Hw Hcur Hne st'. subst st'.
  destruct (step_HandlerAction toLowerCase encodeURIComponent env a st Hd)
    as (Em & Eu & Ec & _ & Es & El).
  rewrite Hw in Es, El. cbn [andb] in Es, El.
  unfold syncs in Es, El. rewrite Hcur in Es, El.
  assert (Htr : truthy cur = true) by (destruct cur; [congruence|reflexivity]).
  rewrite Htr in Es, El. cbn [andb] in Es, El. rewrite <- Em in Es, El.
  split; [exact Em|]. split.
  - intros u Hu Hmsg. rewrite Hu in Es, El.
    assert (Hpos : Nat.ltb 0 (length (messages (step toLowerCase
                     encodeURIComponent env (HandlerAction a) st))) = true).
    { destruct (messages (step toLowerCase encodeURIComponent env
                               (HandlerAction a) st));
        [congruence | reflexivity]. }
    rewrite Hpos in Es, El.
    split; [exact Es|]. split; [|split].
    + intros s' Hin Hid. rewrite Es in Hin. unfold mapSession in Hin.
      apply in_map_iff in Hin. destruct Hin as (s & <- & Hin).
      destruct (hasId cur s) eqn:Hh; [cbn; auto|].
      apply hasId_true in Hid. congruence.
    + intros s Hin Hid. rewrite Es.
      pose proof (In_mapSession cur
                    (resync (messages (step toLowerCase encodeURIComponent
                                            env (HandlerAction a) st))
                            (activeModule st) (now env)) _ s Hin) as H.
      destruct (hasId cur s) eqn:Hh; [|exact H].
      apply hasId_true in Hh. congruence.
    + intros Hss. rewrite El. unfold saved.
      replace (Nat.ltb 0 (length (sessions (step toLowerCase
                 encodeURIComponent env (HandlerAction a) st)))) with true.
      * apply UserService.getUserSessions_save.
      * rewrite Es, length_mapSession. destruct (sessions st);
          [congruence | reflexivity].
  - intros [Hu|Hmsg].
    + rewrite Hu in Es, El. auto.
    + rewrite Hmsg in Es, El. cbn [length Nat.ltb Nat.leb] in Es, El.
      destruct (user st); auto.
Qed.





(** *** Logging in *)

(** What a session holds, its time stamp apart. *)
Definition contentOf (t : Session)
  : jsstring * jsstring * list Message * TaskModule * option bool :=
  (session_id t, title t, session_messages t, session_activeModule t,
   isDeleted t).

(** The state the login screen is shown in. *)
Definition loggedOut (st : State) : Prop :=
  user st = None /\ sessions st = [] /\ messages st = [] /\ dirty st = clean.

Lemma commit_user (env : Env) (st : State) :
  commit env st = rest env (runEffects env st).
Proof. unfold commit. apply two_rounds, runEffects_user_clean. Qed.

Lemma with_storage_same (st : State) : with_storage (storage st) st = st.
Proof. destruct st. reflexivity. Qed.

Lemma contentOf_resync (l : list Session) (s : Session) (t : Z) :
  NoDup (map session_id l) -> In s l ->
  map contentOf
      (mapSession (session_id s)
         (resync (session_messages s) (session_activeModule s) t) l)
  = map contentOf l.
Proof.
  intros Hl Hs. unfold mapSession. rewrite map_map.
  apply map_ext_in. intros x Hx.
  destruct (hasId (session_id s) x) eqn:Hh; [|reflexivity].
  apply hasId_true in Hh. rewrite (NoDup_same_id l x s Hl Hx Hs Hh).
  reflexivity.
Qed.

Ltac state_fields :=
  cbn [dirty user sessions currentSessionId messages activeModule storage
       inputValue isLoading selectedFiles issued
       with_user with_messages with_dirty with_storage with_sessions
       with_activeModule with_currentSessionId with_issued
       with_selectedFiles with_inputValue with_isLoading
       mark_user mark_messages mark_sessions mark_activeModule
       mark_currentSessionId clean d_user d_sessions d_currentSessionId
       d_activeModule d_messages orb andb].

(** The first render after a login, with its effects. *)
Lemma runEffects_login (env : Env) (st1 : State) (u : UserProfile)
      (ls : UserService.localStorage) :
  loggedOut st1 ->
  let h := setUser (Some u) (with_storage ls st1) in
  runEffects env h = loadEffect env h (with_dirty clean h).
Proof.
  intros (Hu & Hs & Hm & Hd) h. subst h.
  destruct st1 as [u0 ss cur am ms iv il isz var sf tm fm keys ls0 iss d].
  cbn in Hu, Hs, Hm, Hd. subst u0 ss ms d.
  unfold runEffects. unfold setUser, mark.
  cbn [dirty with_dirty with_user with_storage mark_user clean d_user
       d_sessions d_messages d_activeModule d_currentSessionId orb].
  rewrite saveEffect_saved, syncEffect_synced.
  unfold saved.
  cbn [user sessions messages currentSessionId with_dirty with_user
       with_storage length Nat.ltb Nat.leb].
  replace (match cur with
           | Some c => truthy c && false
           | None => false
           end) with false
    by (destruct cur; [now rewrite andb_false_r | reflexivity]).
  apply with_storage_same.
Qed.

(** What the effects make of a login when the store holds sessions for
    the user, one of them not deleted. *)
Lemma login_loads (env : Env) (st1 : State) (u : UserProfile)
      (ls : UserService.localStorage) (first : Session)
      (others : list Session) :
  loggedOut st1 ->
  filter notDeleted (UserService.getUserSessions ls (user_id u))
  = first :: others ->
  NoDup (map session_id (UserService.getUserSessions ls (user_id u))) ->
  let st2 := commit env (setUser (Some u) (with_storage ls st1)) in
  user st2 = Some u
  /\ currentSessionId st2 = Some (session_id first)
  /\ messages st2 = session_messages first
  /\ activeModule st2 = session_activeModule first
  /\ map contentOf (sessions st2)
     = map contentOf (UserService.getUserSessions ls (user_id u))
  /\ UserService.getUserSessions (storage st2) (user_id u) = sessions st2
  /\ dirty st2 = clean.
Proof.
  intros Hout Hfirst Hnd st2. subst st2.
  rewrite commit_user, (runEffects_login env st1 u ls Hout).
  destruct Hout as (Hu & Hs & Hm & Hd).
  destruct st1 as [u0 ss cur am ms iv il isz var sf tm fm keys ls0 iss d].
  cbn in Hu, Hs, Hm, Hd. subst u0 ss ms d.
  set (stored := UserService.getUserSessions ls (user_id u)) in *.
  assert (Hin : In first stored).
  { assert (H : In first (filter notDeleted stored))
      by (rewrite Hfirst; left; reflexivity).
    now apply filter_In in H. }
  assert (Hlen : Nat.eqb (length stored) 0 = false)
    by (destruct stored; [destruct Hin | reflexivity]).
  assert (Hpos : Nat.ltb 0 (length stored) = true)
    by (destruct stored; [destruct Hin | reflexivity]).
  pose proof (contentOf_resync stored first (now env) Hnd Hin) as Hmap.
  unfold loadEffect, setUser, mark.
  cbn [user storage with_dirty with_user with_storage].
  fold stored. rewrite Hlen, Hfirst.
  unfold rest, syncRuns, syncedSessions, saved.
  unfold_setters. state_fields. rewrite Hpos.
  destruct (TaskModule_eqb _ _), (sameId _ _); state_fields;
    destruct (truthy (session_id first) &&
              Nat.ltb 0 (length (session_messages first)));
    state_fields; rewrite ?length_mapSession, ?Hpos;
    repeat split; try reflexivity; try exact Hmap;
      apply UserService.getUserSessions_save.
Qed.

Lemma step_Logout (env : Env) (st : State) :
  dirty st = clean ->
  let st1 := step toLowerCase encodeURIComponent env Logout st in
  loggedOut st1 /\ storage st1 = UserService.logout (storage st).
Proof.
  intros Hd st1. subst st1.
  destruct st as [u ss cur am ms iv il isz var sf tm fm keys ls iss d].
  cbn in Hd. subst d. unfold step, loggedOut. cbn [handle].
  rewrite commit_user. unfold handleLogout, runEffects. unfold_setters.
  state_fields. rewrite saveEffect_saved, syncEffect_synced.
  unfold loadEffect, saved, rest, syncRuns. state_fields.
  destruct cur; state_fields; repeat split; reflexivity.
Qed.

(** X16. Logging out and in again brings the sessions back. From a state
    at rest whose sessions the store holds, with distinct session ids, a
    session that is not deleted, and the user registered under an id no
    other user has: after [handleLogout] the state has no user, no
    session and no message, while the store still holds the sessions;
    after [handleAccountSelect] with the user's id, the user is logged in,
    the sessions are those of before with their titles, messages, modules
    and flags, the first one that is not deleted is active with its
    messages on display, and the store holds the sessions. *)
Theorem logout_login_restores (env1 env2 : Env) (st : State)
        (u : UserProfile) (first : Session) (others : list Session) :
  dirty st = clean -> persisted u st ->
  In u (UserService.getUsers (storage st)) ->
  NoDup (map user_id (UserService.getUsers (storage st))) ->
  NoDup (map session_id (sessions st)) ->
  filter notDeleted (sessions st) = first :: others ->
  let st1 := step toLowerCase encodeURIComponent env1 Logout st in
  let st2 := step toLowerCase encodeURIComponent env2
                  (AccountSelect (user_id u)) st1 in
  loggedOut st1
  /\ UserService.getUserSessions (storage st1) (user_id u) = sessions st
  /\ user st2 = Some u
  /\ currentSessionId st2 = Some (session_id first)
  /\ messages st2 = session_messages first
  /\ activeModule st2 = session_activeModule first
  /\ map contentOf (sessions st2) = map contentOf (sessions st)
  /\ persisted u st2.
Proof.
  intros Hd (Hu & Hstore & Hne) Hin Hids Hnd Hfirst st1 st2.
  destruct (step_Logout env1 st Hd) as (Hout & Hls). fold st1 in Hout, Hls.
  assert (Hkept : UserService.getUserSessions (storage st1) (user_id u)
                  = sessions st)
    by (rewrite Hls, UserService.getUserSessions_logout; exact Hstore).
  split; [exact Hout|]. split; [exact Hkept|].
  set (ls' := base.insert UserService.CURRENT_USER_KEY
                (UserService.Raw (user_id u)) (storage st1)).
  assert (Hsw : UserService.switchAccount (storage st1) (user_id u)
                = (Some u, ls')).
  { unfold UserService.switchAccount.
    rewrite Hls, UserService.getUsers_logout,
      (UserService.find_user_id _ _ Hids Hin), <- Hls.
    reflexivity. }
  assert (Hst2 : st2 = commit env2 (setUser (Some u) (with_storage ls' st1))).
  { unfold st2, step. cbn [handle]. unfold handleAccountSelect.
    now rewrite Hsw. }
  assert (Hget : UserService.getUserSessions ls' (user_id u) = sessions st)
    by (unfold ls'; rewrite UserService.getUserSessions_set_current;
        exact Hkept).
  destruct (login_loads env2 st1 u ls' first others Hout)
    as (H1 & H2 & H3 & H4 & H5 & H6 & H7);
    [now rewrite Hget | now rewrite Hget|].
  rewrite <- Hst2, Hget in *.
  repeat split; try assumption.
  intros E. rewrite E in H5. destruct (sessions st); [congruence|].
  discriminate H5.
Qed.

(** The state of the component before its first render. [secretKey]
    stands for the constant [ILOVEPDF_SECRET_KEY]. *)
Definition initialState (secretKey : jsstring)
           (ls : UserService.localStorage) : State :=
  {| user := None; sessions := []; currentSessionId := None;
     activeModule := GENERAL; messages := []; inputValue := [];
     isLoading := false; imageSize := size1K; videoAspectRatio := ratio16x9;
     selectedFiles := []; toastMsg := None; feedbackModal := (false, None);
     ilovePdfKeys := {| public := []; secret := secretKey |};
     storage := ls; issued := []; dirty := clean |}.

(** X17. Loading the page again brings the sessions back, too. With the
    store of a state [st] as in X16 in which [getCurrentUser] returns the
    user, the mount effect and the effects it triggers lead the initial
    state to one with that user logged in, the sessions of [st] with
    their titles, messages, modules and flags, and the first session that
    is not deleted active. When [getCurrentUser] returns [null], the
    initial state stays: the login screen. *)
Theorem reload_restores (env : Env) (secretKey : jsstring) (st : State)
        (u : UserProfile) (first : Session) (others : list Session) :
  (persisted u st ->
   UserService.getCurrentUser (storage st) = Some u ->
   NoDup (map session_id (sessions st)) ->
   filter notDeleted (sessions st) = first :: others ->
   let st2 := commit env (mountEffect (initialState secretKey (storage st))) in
   user st2 = Some u
   /\ currentSessionId st2 = Some (session_id first)
   /\ messages st2 = session_messages first
   /\ activeModule st2 = session_activeModule first
   /\ map contentOf (sessions st2) = map contentOf (sessions st)
   /\ persisted u st2)
  /\ (UserService.getCurrentUser (storage st) = None ->
      commit env (mountEffect (initialState secretKey (storage st)))
      = initialState secretKey (storage st)).
Proof.
  split.
  - intros (Hu & Hstore & Hne) Hcur Hnd Hfirst st2.
    assert (Hst2 : st2 = commit env
                           (setUser (Some u)
                              (with_storage (storage st)
                                 (initialState secretKey (storage st))))).
    { unfold st2, mountEffect. cbn [storage initialState]. rewrite Hcur.
      reflexivity. }
    destruct (login_loads env (initialState secretKey (storage st)) u
                          (storage st) first others)
      as (H1 & H2 & H3 & H4 & H5 & H6 & H7);
      [repeat split | now rewrite Hstore | now rewrite Hstore|].
    rewrite <- Hst2, Hstore in *.
    repeat split; try assumption.
    intros E. rewrite E in H5. destruct (sessions st); [congruence|].
    discriminate H5.
  - intros Hcur. unfold mountEffect. cbn [storage initialState].
    rewrite Hcur. unfold commit.
    now rewrite !runEffects_at_rest.
Qed.

(** X18. The first login of a user. From the login screen, with an email
    no registered user has (up to case) and a name [encodeURIComponent]
    accepts, neither empty, and no session stored under the new id:
    [handleCreateAccount] and the effects it triggers register the user,
    log the user in and create one session, titled New Chat and empty,
    which is active and stored; the active module stays what it was.
    With an empty email or name nothing happens. *)
Theorem first_login (env1 env2 : Env) (st1 : State)
        (email name encoded : jsstring) :
  (loggedOut st1 -> email <> [] -> name <> [] ->
   find (UserService.sameEmail toLowerCase email)
        (UserService.getUsers (storage st1)) = None ->
   encodeURIComponent name = Some encoded ->
   UserService.getUserSessions (storage st1) (newId env1) = [] ->
   let st2 := commit env2 (handleCreateAccount toLowerCase encodeURIComponent
                             env1 st1 email name) in
   exists u,
     user st2 = Some u /\ user_id u = newId env1 /\ user_name u = name
     /\ user_email u = email
     /\ UserService.getUsers (storage st2)
        = UserService.getUsers (storage st1) ++ [u]
     /\ UserService.currentUserId (storage st2) = Some (newId env1)
     /\ sessions st2 = [newChat (newId env2) (now env2)]
     /\ currentSessionId st2 = Some (newId env2)
     /\ messages st2 = []
     /\ activeModule st2 = activeModule st1
     /\ UserService.getUserSessions (storage st2) (newId env1)
        = sessions st2)
  /\ (email = [] \/ name = [] ->
      handleCreateAccount toLowerCase encodeURIComponent env1 st1 email name
      = st1).
Proof.
  split.
  - intros Hout Hemail Hname Hfind Henc Hnone st2.
    set (u := {| user_id := newId env1; user_name := name;
                 user_email := email;
                 user_avatar :=
                   js "https://ui-avatars.com/api/?name=" ++ encoded
                   ++ js "&background=0ea5e9&color=fff&rounded=true&bold=true"
              |}).
    set (ls' := base.insert UserService.CURRENT_USER_KEY
                  (UserService.Raw (newId env1))
                  (UserService.saveUsers (storage st1)
                     (UserService.getUsers (storage st1) ++ [u]))).
    assert (Hlogin : UserService.login toLowerCase encodeURIComponent
                       (storage st1) email name (newId env1)
                     = Some (u, ls')).
    { unfold UserService.login, UserService.avatarUrl.
      rewrite Hfind, Henc. reflexivity. }
    assert (Hget : UserService.getUserSessions ls' (newId env1) = [])
      by (rewrite (UserService.getUserSessions_login _ _ _ _ _ _ _ _ _
                     Hlogin); exact Hnone).
    assert (Husers : UserService.getUsers ls'
                     = UserService.getUsers (storage st1) ++ [u]).
    { unfold ls'.
      rewrite (UserService.getUsers_insert_other _ _ _
                 UserService.users_key_not_current).
      apply UserService.getUsers_saveUsers. }
    exists u. subst st2. unfold handleCreateAccount.
    replace (truthy email) with true
      by (destruct email; [congruence | reflexivity]).
    replace (truthy name) with true
      by (destruct name; [congruence | reflexivity]).
    cbn [negb orb]. rewrite Hlogin, Hfind.
    destruct Hout as (Hu & Hs & Hm & Hd).
    destruct st1 as [u0 ss cur am ms iv il isz var sf tm fm keys ls0 iss d].
    cbn in Hu, Hs, Hm, Hd. subst u0 ss ms d.
    cbn [storage] in *.
    rewrite commit_user.
    change (setUser (Some u) (with_storage ls' (issue (newId env1) ?s)))
      with (setUser (Some u) (with_storage ls' (issue (newId env1) s))).
    unfold runEffects. unfold_setters. state_fields.
    rewrite saveEffect_saved, syncEffect_synced.
    unfold loadEffect. unfold_setters. state_fields.
    change (user_id u) with (newId env1).
    rewrite Hget. cbn [length Nat.eqb]. unfold saved, rest, syncRuns.
    state_fields. cbn [length Nat.ltb Nat.leb].
    replace (match cur with
             | Some c => truthy c && false
             | None => false
             end) with false
      by (destruct cur; [now rewrite andb_false_r | reflexivity]).
    state_fields.
    destruct (sameId (Some (newId env2)) cur); state_fields;
      rewrite ?andb_false_r; state_fields; cbn [length Nat.ltb Nat.leb];
      state_fields.
    all: unfold saved; cbn [length Nat.ltb Nat.leb];
      change (user_id u) with (newId env1).
    all: repeat split; try reflexivity.
    all: unfold UserService.saveUserSessions;
      repeat rewrite ?(UserService.getUsers_insert_other _ _ _
                         (UserService.users_key_not_sessions (newId env1))),
        ?(UserService.currentUserId_insert_other _ _ _
            (UserService.current_key_not_sessions (newId env1)));
      try exact Husers;
      try (unfold ls'; apply UserService.currentUserId_insert);
      apply UserService.getUserSessions_save.
  - intros H. unfold handleCreateAccount.
    destruct H as [-> | ->]; [reflexivity|].
    now rewrite orb_true_r.
Qed.


End Persistence.

(** *** Example runs *)

(** [ann] at rest in [chatA], with her two chats in the store. *)
Definition atHome : State :=
  with_storage
    (UserService.saveUserSessions UserService.store_ann (js "id-1")
                                  [chatA; chatB])
    (atRest [chatB]).

Lemma atHome_persisted : persisted UserService.ann atHome.
Proof.
  split; [reflexivity|].
  split; [apply UserService.getUserSessions_save | discriminate].
Qed.

Lemma NoDup_ab : NoDup (map session_id [chatA; chatB]).
Proof.
  repeat constructor; simpl; intros H;
    repeat (destruct H as [H|H]; [discriminate H|]); exact H.
Qed.

Lemma sessions_persisted_witness :
  persisted UserService.ann
            (runEvents UserService.asciiLower Some (fun _ => at7) 0
                       [NewSession; RenameSession (js "b") (js "Totals");
                        DeleteSession (js "n")]
                       atHome).
Proof.
  apply (sessions_persisted UserService.asciiLower Some (fun _ => at7)
           UserService.ann
           [NewSession; RenameSession (js "b") (js "Totals");
            DeleteSession (js "n")] eq_refl 0 atHome eq_refl
           atHome_persisted).
Defined.

Definition ann_second : Message := userMessage (js "m-2") (js "bye") 6 [].

Lemma message_update_synced_witness :
  let st' := step UserService.asciiLower Some at7
                  (HandlerAction (Append ann_second)) atHome in
  messages st' = [ann_first; ann_second]
  /\ sessions st'
     = mapSession (js "a") (resync [ann_first; ann_second] WRITER 7)
                  [chatA; chatB]
  /\ UserService.getUserSessions (storage st') (js "id-1") = sessions st'.
Proof.
  destruct (message_update_synced UserService.asciiLower Some at7
              (Append ann_second) atHome (js "a") eq_refl eq_refl eq_refl)
    as (Hm & Hs & _); [discriminate|].
  split; [exact Hm|].
  destruct (Hs UserService.ann eq_refl) as (H1 & _ & _ & H4).
  - rewrite Hm. discriminate.
  - rewrite Hm in H1. split; [exact H1|]. apply H4. discriminate.
Defined.



Lemma atHome_users : UserService.getUsers (storage atHome) = [UserService.ann].
Proof. reflexivity. Qed.

Lemma logout_login_restores_witness :
  let st1 := step UserService.asciiLower Some at7 Logout atHome in
  let st2 := step UserService.asciiLower Some at7 (AccountSelect (js "id-1"))
                  st1 in
  user st1 = None /\ sessions st1 = []
  /\ user st2 = Some UserService.ann
  /\ currentSessionId st2 = Some (js "a") /\ messages st2 = [ann_first]
  /\ map contentOf (sessions st2) = map contentOf [chatA; chatB].
Proof.
  destruct (logout_login_restores UserService.asciiLower Some at7 at7 atHome
              UserService.ann chatA [chatB] eq_refl atHome_persisted)
    as ((H1 & H2 & _) & _ & H3 & H4 & H5 & _ & H7 & _).
  - rewrite atHome_users. left. reflexivity.
  - rewrite atHome_users. repeat constructor. intros [].
  - exact NoDup_ab.
  - reflexivity.
  - repeat split; assumption.
Defined.

Lemma reload_restores_witness :
  let st2 := commit at7 (mountEffect (initialState (js "s") (storage atHome)))
  in
  user st2 = Some UserService.ann
  /\ currentSessionId st2 = Some (js "a") /\ messages st2 = [ann_first]
  /\ map contentOf (sessions st2) = map contentOf [chatA; chatB].
Proof.
  destruct (proj1 (reload_restores at7 (js "s") atHome UserService.ann chatA
                     [chatB]) atHome_persisted eq_refl NoDup_ab eq_refl)
    as (H1 & H2 & H3 & _ & H5 & _).
  repeat split; assumption.
Defined.

Lemma first_login_witness :
  let st2 := commit at7
               (handleCreateAccount UserService.asciiLower Some
                  {| now := 3; newId := js "id-1"; loginId := js "id-1" |}
                  (initialState (js "s") UserService.emptyStorage)
                  (js "Ann@X.org") (js "Ann")) in
  exists u,
    user st2 = Some u /\ user_id u = js "id-1"
    /\ sessions st2 = [newChat (js "n") 7]
    /\ UserService.getUserSessions (storage st2) (js "id-1") = sessions st2.
Proof.
  destruct (proj1 (first_login UserService.asciiLower Some
                     {| now := 3; newId := js "id-1"; loginId := js "id-1" |} at7
                     (initialState (js "s") UserService.emptyStorage)
                     (js "Ann@X.org") (js "Ann") (js "Ann")))
    as (u & H1 & H2 & _ & _ & _ & _ & H7 & _ & _ & _ & H11);
    [repeat split | discriminate | discriminate | reflexivity | reflexivity
    | apply UserService.getUserSessions_empty |].
  exists u. repeat split; assumption.
Defined.


(** *** What a handler run leaves in the conversation *)

(** No message of the list has the identifier. *)
Definition fresh (id : jsstring) (l : list Message) : bool :=
  forallb (fun m => negb (eqb (msg_id m) id)) l.

Lemma fresh_app (id : jsstring) (l l' : list Message) :
  fresh id (l ++ l') = fresh id l && fresh id l'.
Proof. apply forallb_app. Qed.

Lemma patchMessages_fresh (id : jsstring) (p : Patch) (l : list Message) :
  fresh id l = true -> patchMessages id p l = l.
Proof.
  induction l as [|m l IH]; intros H; [reflexivity|].
  cbn [fresh forallb] in H. apply andb_prop in H. destruct H as [Hm H].
  apply negb_true_iff in Hm. cbn [patchMessages map]. rewrite Hm.
  f_equal. now apply IH.
Qed.

Lemma patchMessages_last (id : jsstring) (p : Patch) (l : list Message)
      (m : Message) :
  fresh id l = true -> msg_id m = id ->
  patchMessages id p (l ++ [m]) = l ++ [applyPatch p m].
Proof.
  intros Hl Hm. unfold patchMessages. rewrite map_app.
  fold (patchMessages id p l). rewrite (patchMessages_fresh _ _ _ Hl).
  cbn [map]. rewrite Hm, eqb_refl. reflexivity.
Qed.

Lemma runActions_app (a b : list action) (l : list Message) :
  runActions (a ++ b) l = runActions b (runActions a l).
Proof.
  revert l. induction a as [|x a IH]; intros l; [reflexivity|].
  cbn [app runActions]. apply IH.
Qed.

Lemma last_cons {A : Type} (x d : A) (l : list A) :
  last (x :: l) d = last l x.
Proof.
  revert x d. induction l as [|y l IH]; intros x d; [reflexivity|].
  change (last (x :: y :: l) d) with (last (y :: l) d).
  now rewrite !IH.
Qed.

(** Successive [content: text] updates of the last message leave the last
    text. *)
Lemma runActions_setContent (id : jsstring) (l : list Message)
      (texts : list jsstring) :
  fresh id l = true ->
  forall m, msg_id m = id ->
    runActions (map (fun t => PatchMsg id (setContent t)) texts) (l ++ [m])
    = l ++ [applyPatch (setContent (last texts (content m))) m].
Proof.
  intros Hl. induction texts as [|t texts IH]; intros m Hm.
  - destruct m; reflexivity.
  - cbn [map runActions applyAction].
    rewrite (patchMessages_last _ _ _ _ Hl Hm).
    rewrite IH by (destruct m; exact Hm).
    rewrite last_cons. destruct m; reflexivity.
Qed.

(** Successive [content: msg.content + chunk] updates of the last message
    append the chunks in order. *)
Lemma runActions_appendContent (id : jsstring) (l : list Message)
      (cs : list jsstring) :
  fresh id l = true ->
  forall m, msg_id m = id ->
    runActions (map (fun c => PatchMsg id (appendContent c)) cs) (l ++ [m])
    = l ++ [applyPatch (setContent (content m ++ concat cs)) m].
Proof.
  intros Hl. induction cs as [|c cs IH]; intros m Hm.
  - cbn [map runActions concat]. rewrite app_nil_r. destruct m; reflexivity.
  - cbn [map runActions applyAction].
    rewrite (patchMessages_last _ _ _ _ Hl Hm).
    rewrite IH by (destruct m; exact Hm).
    destruct m. cbn. now rewrite <- app_assoc.
Qed.

Lemma last_gathered (acc : jsstring) (cs : list jsstring) :
  last (gathered acc cs) acc = acc ++ concat cs.
Proof.
  revert acc. induction cs as [|c cs IH]; intros acc.
  - cbn. now rewrite app_nil_r.
  - cbn [gathered concat]. rewrite last_cons, IH. now rewrite <- app_assoc.
Qed.

(** A message of the assistant that is no longer streaming. *)
Definition settledMessage (id text : jsstring) (t : Z) : Message :=
  {| msg_id := id; role := MODEL; content := text; timestamp := t;
     isStreaming := Some false; mediaUrl := None; audioUrl := None;
     mediaType := None; attachments := None; reaction := None;
     feedback := None; downloadData := None |}.

Section HandlerResults.

Variable contextParams : TaskModule -> option jsstring.

Lemma sendDefault_result (cl : State) (run : SendRun) (text : jsstring)
      (l : list Message) :
  fresh (s_uuid run 1) l = true ->
  failure (s_stream run) <> None
  \/ tagType (parseMediaTags (concat (chunks (s_stream run)))) = TagText ->
  runActions (actionsOf (sendDefault contextParams cl run text)) l
  = l ++ [settledMessage (s_uuid run 1)
            (match failure (s_stream run) with
             | Some _ => EXECUTION_FAILED
             | None => concat (chunks (s_stream run))
             end)
            (s_clock run 1)].
Proof.
  intros Hl Hcase. unfold sendDefault.
  cbn [app]. rewrite actionsOf_Do, actionsOf_Await, !actionsOf_app.
  rewrite actionsOf_map_Do.
  cbn [runActions applyAction]. rewrite !runActions_app.
  rewrite (runActions_setContent _ _ _ Hl) by reflexivity.
  rewrite last_gathered. cbn [app content streamingMessage].
  destruct (failure (s_stream run)) as [e|].
  - cbn [actionsOf flat_map app runActions applyAction].
    rewrite (patchMessages_last _ _ _ _ Hl) by reflexivity. reflexivity.
  - destruct Hcase as [H|H]; [congruence|]. rewrite H.
    cbn [actionsOf flat_map app runActions applyAction].
    rewrite (patchMessages_last _ _ _ _ Hl) by reflexivity. reflexivity.
Qed.

(** X19. A message sent in a module without a generator of its own, when
    the answer carries no media tag or the stream fails: the run appends the
    user's message (unless the execution is forced) and one settled message
    of the assistant, whose content is the chunks of the stream in order,
    or the failure text when the stream fails; partial text is discarded
    then. *)
Theorem handleSendMessage_default_result (cl : State) (run : SendRun)
        (forceExecution : bool) (l : list Message) :
  let asked :=
    if forceExecution then []
    else [userMessage (s_uuid run 0) (trim (inputValue cl)) (s_clock run 0)
                      (selectedFiles cl)] in
  handleSendMessage contextParams cl run forceExecution <> [] ->
  activeModule cl <> IMAGE_GEN ->
  activeModule cl <> VIDEO_GEN ->
  activeModule cl <> TEXT_TO_SPEECH ->
  fresh (s_uuid run 1) (l ++ asked) = true ->
  failure (s_stream run) <> None
  \/ tagType (parseMediaTags (concat (chunks (s_stream run)))) = TagText ->
  runActions (actionsOf (handleSendMessage contextParams cl run forceExecution))
             l
  = l ++ asked
      ++ [settledMessage (s_uuid run 1)
            (match failure (s_stream run) with
             | Some _ => EXECUTION_FAILED
             | None => concat (chunks (s_stream run))
             end)
            (s_clock run 1)].
Proof.
  intros asked. unfold handleSendMessage.
  destruct (_ || isLoading cl); [congruence|].
  intros _ Hi Hv Hs Hl Hcase.
  rewrite !actionsOf_app, !runActions_app.
  assert (Hpre :
    runActions
      (actionsOf (if forceExecution then []
                  else [Do (Append (userMessage (s_uuid run 0)
                                      (trim (inputValue cl)) (s_clock run 0)
                                      (selectedFiles cl)))]))
      (runActions (actionsOf [Do (SetIsLoading true)])
         (runActions (actionsOf (if forceExecution then []
                                 else [Do (SetInputValue [])])) l))
    = l ++ asked).
  { unfold asked. destruct forceExecution; cbn; [now rewrite app_nil_r|].
    reflexivity. }
  rewrite Hpre.
  assert (Htitle : forall r0,
    runActions
      (actionsOf
         (match currentSessionId cl with
          | Some cur =>
              match find (hasId cur) (sessions cl) with
              | Some currentSession =>
                  if (eqb (title currentSession) (js "New Chat")
                      || Nat.eqb (length (session_messages currentSession)) 0)
                     && truthy (trim (inputValue cl))
                  then [Await (GenerateChatTitle (trim (inputValue cl)))]
                  else []
              | None => []
              end
          | None => []
          end)) r0 = r0).
  { intros r0. destruct (currentSessionId cl); [|reflexivity].
    destruct (find _ _); [|reflexivity]. destruct (_ && _); reflexivity. }
  rewrite Htitle. rewrite (app_assoc l asked).
  destruct (activeModule cl); try congruence;
    apply (sendDefault_result _ _ _ _ Hl Hcase).
Qed.

End HandlerResults.

Section ConversionResults.

Variable contextParams : TaskModule -> option jsstring.

(** X20. A conversion of typed text (no file selected; the target is PDF or
    the input is not blank): one call of the model, with the prompt of the
    target format followed by the input as typed, and two messages more, the
    request and one settled message of the assistant. Its content is the
    placeholder followed by the chunks of the stream, or the failure text
    when the stream fails. *)
Theorem handleConvertAction_text_result (cl : State) (run : ConvertRun)
        (f : TargetFormat) (l : list Message) :
  let request :=
    userMessage (c_uuid run 0) (js "Convert content to " ++ formatName f)
                (c_clock run 0) [] in
  let r := handleConvertAction contextParams cl run f in
  selectedFiles cl = [] ->
  f = PDF \/ trim (inputValue cl) <> [] ->
  fresh (c_uuid run 1) (l ++ [request]) = true ->
  callsOf r
  = [SendMessageStream (textPrompt f ++ [LF; LF] ++ inputValue cl)
                       (contextParams CONVERTER) None]
  /\ runActions (actionsOf r) l
     = l ++ [request;
             settledMessage (c_uuid run 1)
               (match failure (c_stream run 0) with
                | None => js "Initializing text conversion..."
                            ++ concat (chunks (c_stream run 0))
                | Some _ => js "Conversion failed."
                end)
               (c_clock run 1)].
Proof.
  intros request r Hfiles Hguard Hl. unfold r, handleConvertAction.
  rewrite Hfiles. cbn [length Nat.eqb Nat.ltb Nat.leb andb].
  replace (negb (isPDF f) && negb (truthy (trim (inputValue cl))))
    with false.
  2:{ destruct Hguard as [->|H]; [reflexivity|].
      destruct (trim (inputValue cl)); [congruence|].
      now rewrite andb_false_r. }
  split.
  - cbn [app callsOf flat_map]. unfold callsOf.
    rewrite flat_map_app.
    replace (flat_map _ (map _ (chunks (c_stream run 0)))) with (@nil call)
      by (induction (chunks (c_stream run 0)); [reflexivity | assumption]).
    reflexivity.
  - cbn [app]. rewrite !actionsOf_Do, actionsOf_Await, actionsOf_app.
    rewrite actionsOf_map_Do.
    cbn [runActions applyAction]. rewrite runActions_app.
    change (js "Convert " ++ js "content" ++ js " to " ++ formatName f)
      with (js "Convert content to " ++ formatName f).
    fold request.
    rewrite (runActions_appendContent _ _ _ Hl) by reflexivity.
    cbn [actionsOf flat_map app runActions applyAction].
    rewrite (patchMessages_last _ _ _ _ Hl) by reflexivity.
    rewrite <- app_assoc.
    destruct (failure (c_stream run 0)); reflexivity.
Qed.

(** The message a converted file ends as. *)
Definition fileResult (keys : Keys) (f : TargetFormat) (run : ConvertRun)
           (k : nat) (file : Attachment) : Message :=
  let viaModel :=
    match failure (c_stream run k) with
    | None =>
        (js "Converted " ++ att_name file ++ js ".",
         fallbackDownload f file (concat (chunks (c_stream run k))))
    | Some _ => (js "Failed to convert " ++ att_name file ++ js ".", None)
    end in
  let outcome :=
    if truthy (public keys) then
      match c_ilovepdf run k with
      | Resolved result =>
          (js "Successfully converted " ++ att_name file ++ js " to "
              ++ fileName result ++ js ".",
           Some result)
      | Rejected _ => viaModel
      end
    else viaModel in
  {| msg_id := c_uuid run (S k); role := MODEL; content := fst outcome;
     timestamp := c_clock run (S k); isStreaming := Some false;
     mediaUrl := None; audioUrl := None; mediaType := None;
     attachments := None; reaction := None; feedback := None;
     downloadData := snd outcome |}.

Lemma convertFallback_result (f : TargetFormat) (run : ConvertRun) (k : nat)
      (file : Attachment) (l : list Message) (m : Message) :
  fresh (c_uuid run (S k)) l = true ->
  msg_id m = c_uuid run (S k) ->
  runActions (actionsOf (convertFallback contextParams f run k file
                                         (c_uuid run (S k))))
             (l ++ [m])
  = l ++ [applyPatch
            (match failure (c_stream run k) with
             | None =>
                 settleWithDownload
                   (js "Converted " ++ att_name file ++ js ".")
                   (fallbackDownload f file
                                     (concat (chunks (c_stream run k))))
             | Some _ =>
                 settleWith (js "Failed to convert " ++ att_name file
                                ++ js ".")
             end) m].
Proof.
  intros Hl Hm. unfold convertFallback.
  cbn [app]. rewrite actionsOf_Do, actionsOf_Await.
  cbn [runActions applyAction].
  rewrite (patchMessages_last _ _ _ _ Hl Hm).
  assert (Hm' : msg_id (applyPatch
                          (setContent (js "Converting " ++ att_name file
                                          ++ js " with AI...")) m)
                = c_uuid run (S k)) by (destruct m; exact Hm).
  destruct (failure (c_stream run k));
    cbn [actionsOf flat_map app runActions applyAction];
    rewrite (patchMessages_last _ _ _ _ Hl Hm');
    destruct m; reflexivity.
Qed.

Lemma convertFile_result (keys : Keys) (f : TargetFormat) (run : ConvertRun)
      (k : nat) (file : Attachment) (l : list Message) :
  fresh (c_uuid run (S k)) l = true ->
  runActions (actionsOf (convertFile contextParams keys f run k file)) l
  = l ++ [fileResult keys f run k file].
Proof.
  intros Hl. unfold convertFile, fileResult.
  rewrite actionsOf_Do. cbn [runActions applyAction].
  replace (truthy (toolMap f)) with true by (destruct f; reflexivity).
  rewrite andb_true_r. destruct (truthy (public keys)).
  - cbn [app]. rewrite actionsOf_Do, actionsOf_Await.
    cbn [runActions applyAction].
    rewrite (patchMessages_last _ _ _ _ Hl) by reflexivity.
    destruct (c_ilovepdf run k) as [result|e].
    + cbn [actionsOf flat_map app runActions applyAction].
      rewrite (patchMessages_last _ _ _ _ Hl) by reflexivity. reflexivity.
    + rewrite (convertFallback_result _ _ _ _ _ _ Hl) by reflexivity.
      destruct (failure (c_stream run k)); reflexivity.
  - rewrite (convertFallback_result _ _ _ _ _ _ Hl) by reflexivity.
    destruct (failure (c_stream run k)); reflexivity.
Qed.

Lemma fresh_snoc (id : jsstring) (l : list Message) (m : Message) :
  fresh id l = true -> msg_id m <> id -> fresh id (l ++ [m]) = true.
Proof.
  intros Hl Hm. rewrite fresh_app, Hl. cbn [fresh forallb andb].
  rewrite (eqb_neq _ _ Hm). reflexivity.
Qed.

Lemma convertFiles_result (keys : Keys) (f : TargetFormat) (run : ConvertRun)
      (files : list Attachment) :
  (forall j k, c_uuid run j = c_uuid run k -> j = k) ->
  forall k l,
    (forall j, k <= j -> fresh (c_uuid run (S j)) l = true) ->
    runActions (actionsOf (convertFiles contextParams keys f run k files)) l
    = l ++ map (fun '(j, file) => fileResult keys f run j file)
               (combine (seq k (length files)) files).
Proof.
  intros Hinj. induction files as [|file files IH]; intros k l Hl.
  - cbn. now rewrite app_nil_r.
  - cbn [convertFiles length seq combine map].
    rewrite actionsOf_app, runActions_app.
    rewrite (convertFile_result _ _ _ _ _ _ (Hl k (le_n k))).
    rewrite IH.
    + now rewrite <- app_assoc.
    + intros j Hj. apply fresh_snoc; [apply Hl; lia|].
      cbn [fileResult msg_id]. intros E. apply Hinj in E. lia.
Qed.

(** X21. A conversion of selected files, the identifiers drawn being
    distinct and new: the run appends the request and then, for each file
    in order, exactly one settled message. A file the conversion service
    converts ends with its download; a file it fails on, or any file when
    no public key is configured, ends as the model's answer decides; a
    failure does not stop the files after it. *)
Theorem handleConvertAction_files_result (cl : State) (run : ConvertRun)
        (f : TargetFormat) (l : list Message) :
  let files := selectedFiles cl in
  let request :=
    userMessage (c_uuid run 0)
      (js "Convert " ++ decimal (length files) ++ js " files to "
          ++ formatName f)
      (c_clock run 0) files in
  files <> [] ->
  (forall j k, c_uuid run j = c_uuid run k -> j = k) ->
  (forall k, fresh (c_uuid run (S k)) l = true) ->
  runActions (actionsOf (handleConvertAction contextParams cl run f)) l
  = l ++ request
      :: map (fun '(k, file) => fileResult (ilovePdfKeys cl) f run k file)
             (combine (seq 0 (length files)) files).
Proof.
  intros files request Hfiles Hinj Hl. unfold handleConvertAction.
  fold files. destruct files as [|file rest] eqn:E; [congruence|].
  cbn [length Nat.eqb Nat.ltb Nat.leb andb].
  cbn [app]. rewrite !actionsOf_Do, actionsOf_app.
  cbn [runActions applyAction]. rewrite runActions_app.
  rewrite (convertFiles_result _ _ _ _ Hinj).
  - cbn [actionsOf flat_map app runActions applyAction].
    rewrite <- (app_assoc l). unfold request.
    rewrite <- (app_assoc (decimal _)). reflexivity.
  - intros j _. apply fresh_snoc; [apply Hl|].
    cbn [userMessage msg_id]. intros E'. apply Hinj in E'. discriminate.
Qed.

(** X22. Without a public key the conversion service is never called: each
    selected file goes to the model once, in order, with the prompt of the
    target format and the file attached. *)
Theorem handleConvertAction_no_key_calls (cl : State) (run : ConvertRun)
        (f : TargetFormat) :
  selectedFiles cl <> [] ->
  public (ilovePdfKeys cl) = [] ->
  callsOf (handleConvertAction contextParams cl run f)
  = map (fun file =>
           SendMessageStream (fallbackPrompt f) (contextParams CONVERTER)
                             (Some [(att_data file, att_type file)]))
        (selectedFiles cl).
Proof.
  intros Hfiles Hkey. unfold handleConvertAction.
  destruct (selectedFiles cl) as [|file rest] eqn:E; [congruence|].
  cbn [length Nat.eqb andb app]. clear E Hfiles.
  unfold callsOf. cbn [flat_map app]. rewrite flat_map_app.
  cbn [flat_map app]. rewrite app_nil_r.
  generalize 0. induction (file :: rest) as [|x files IH]; intros k;
    [reflexivity|].
  cbn [convertFiles map]. rewrite flat_map_app, IH. clear IH.
  unfold convertFile, convertFallback. rewrite Hkey.
  cbn [truthy andb flat_map app].
  destruct (failure (c_stream run k)); reflexivity.
Qed.

End ConversionResults.

(** *** Media tags *)

Lemma findTag_none (opening s before : jsstring) :
  includes s opening = false -> findTag opening s before = None.
Proof.
  revert before. induction s as [|c s IH]; intros before H; [reflexivity|].
  cbn [includes] in H. apply orb_false_iff in H. destruct H as [Hs H].
  cbn [findTag]. unfold matchTagAt. rewrite Hs. now apply IH.
Qed.

Lemma findTag_skip (o0 : N) (o pre s before : jsstring) :
  includes1 pre o0 = false ->
  findTag (o0 :: o) (pre ++ s) before = findTag (o0 :: o) s (before ++ pre).
Proof.
  unfold includes1. revert before.
  induction pre as [|c pre IH]; intros before H.
  - now rewrite app_nil_r.
  - cbn [existsb] in H. apply orb_false_iff in H. destruct H as [Hc H].
    cbn [app findTag]. unfold matchTagAt. cbn [startsWith]. rewrite Hc.
    cbn [andb]. rewrite (IH _ H), <- app_assoc. reflexivity.
Qed.

Definition startsWithSpace (s : jsstring) : bool :=
  match s with
  | c :: _ => isWhiteSpace c
  | [] => false
  end.

Lemma skipn_opening (p s : jsstring) : skipn (length p) (p ++ s) = s.
Proof. induction p as [|c p IH]; [reflexivity | exact IH]. Qed.

Lemma findTag_here (o0 : N) (o ws prompt after before : jsstring) :
  forallb isWhiteSpace ws = true ->
  startsWithSpace prompt = false ->
  includes1 prompt 125 = false ->
  forallb (fun c => negb (isLineTerminator c)) prompt = true ->
  findTag (o0 :: o) ((o0 :: o) ++ ws ++ prompt ++ js "}}" ++ after) before
  = Some (prompt, before ++ after).
Proof.
  intros Hws Hp Hbrace Hlt.
  change ((o0 :: o) ++ ws ++ prompt ++ js "}}" ++ after)
    with (o0 :: (o ++ ws ++ prompt ++ js "}}" ++ after)).
  cbn [findTag]. unfold matchTagAt.
  change (o0 :: (o ++ ws ++ prompt ++ js "}}" ++ after))
    with ((o0 :: o) ++ ws ++ prompt ++ js "}}" ++ after).
  rewrite Formatter.startsWith_app, skipn_opening.
  rewrite (Formatter.trimStart_spaces _ _ Hws).
  replace (trimStart (prompt ++ js "}}" ++ after))
    with (prompt ++ js "}}" ++ after).
  2:{ destruct prompt as [|c prompt]; [reflexivity|].
      cbn [startsWithSpace] in Hp. cbn [app trimStart]. now rewrite Hp. }
  change (js "}}" ++ after) with (125%N :: 125%N :: after).
  rewrite (Formatter.lazyUntilPair_found _ _ _ Hbrace Hlt). reflexivity.
Qed.

Lemma findTag_tag (o0 : N) (o before ws prompt after : jsstring) :
  includes1 before o0 = false ->
  forallb isWhiteSpace ws = true ->
  startsWithSpace prompt = false ->
  includes1 prompt 125 = false ->
  forallb (fun c => negb (isLineTerminator c)) prompt = true ->
  findTag (o0 :: o) (before ++ (o0 :: o) ++ ws ++ prompt ++ js "}}" ++ after)
          []
  = Some (prompt, before ++ after).
Proof.
  intros Hb Hws Hp Hbrace Hlt. rewrite (findTag_skip _ _ _ _ _ Hb).
  now apply findTag_here.
Qed.

(** X23. [parseMediaTags]. A text in which none of the three openings
    occurs is plain text and is kept as it is. A text whose first brace
    opens an image tag yields the tag's prompt, without the white space
    after the colon, and the text without the tag; what follows the tag,
    other tags included, stays in the text. A video tag is found the same
    way when no image tag opens anywhere in the text, an audio tag when
    neither of the other two does. *)
Theorem parseMediaTags_cases :
  (forall text,
      includes text (js "{{IMAGE:") = false ->
      includes text (js "{{VIDEO:") = false ->
      includes text (js "{{AUDIO:") = false ->
      parseMediaTags text
      = {| tagType := TagText; tagPrompt := []; cleanText := text |})
  /\ (forall before ws prompt after,
         let tagged opening :=
           before ++ opening ++ ws ++ prompt ++ js "}}" ++ after in
         let found t :=
           {| tagType := t; tagPrompt := prompt;
              cleanText := before ++ after |} in
         includes1 before 123 = false ->
         forallb isWhiteSpace ws = true ->
         startsWithSpace prompt = false ->
         includes1 prompt 125 = false ->
         forallb (fun c => negb (isLineTerminator c)) prompt = true ->
         parseMediaTags (tagged (js "{{IMAGE:")) = found TagImage
         /\ (includes (tagged (js "{{VIDEO:")) (js "{{IMAGE:") = false ->
             parseMediaTags (tagged (js "{{VIDEO:")) = found TagVideo)
         /\ (includes (tagged (js "{{AUDIO:")) (js "{{IMAGE:") = false ->
             includes (tagged (js "{{AUDIO:")) (js "{{VIDEO:") = false ->
             parseMediaTags (tagged (js "{{AUDIO:")) = found TagAudio)).
Proof.
  split.
  - intros text Hi Hv Ha. unfold parseMediaTags.
    now rewrite (findTag_none _ _ _ Hi), (findTag_none _ _ _ Hv),
      (findTag_none _ _ _ Ha).
  - intros before ws prompt after tagged found Hb Hws Hp Hbrace Hlt.
    pose proof (fun o => findTag_tag 123 o before ws prompt after
                                     Hb Hws Hp Hbrace Hlt) as Htag.
    unfold tagged, found. split; [|split].
    + unfold parseMediaTags.
      change (js "{{IMAGE:") with (123%N :: js "{IMAGE:").
      now rewrite Htag.
    + intros Hi. unfold parseMediaTags.
      rewrite (findTag_none _ _ _ Hi).
      change (js "{{VIDEO:") with (123%N :: js "{VIDEO:").
      now rewrite Htag.
    + intros Hi Hv. unfold parseMediaTags.
      rewrite (findTag_none _ _ _ Hi), (findTag_none _ _ _ Hv).
      change (js "{{AUDIO:") with (123%N :: js "{AUDIO:").
      now rewrite Htag.
Qed.

Lemma parseMediaTags_cases_witness :
  parseMediaTags (js "All done.")
  = {| tagType := TagText; tagPrompt := []; cleanText := js "All done." |}
  /\ parseMediaTags (js "Sure. {{IMAGE: a red fox}} Enjoy {{VIDEO: x}}")
     = {| tagType := TagImage; tagPrompt := js "a red fox";
          cleanText := js "Sure.  Enjoy {{VIDEO: x}}" |}
  /\ parseMediaTags (js "Sure. {{VIDEO: a red fox}} Enjoy {{VIDEO: x}}")
     = {| tagType := TagVideo; tagPrompt := js "a red fox";
          cleanText := js "Sure.  Enjoy {{VIDEO: x}}" |}
  /\ parseMediaTags (js "{{AUDIO:hello}}")
     = {| tagType := TagAudio; tagPrompt := js "hello"; cleanText := [] |}.
Proof.
  destruct parseMediaTags_cases as [Htext Htag].
  split; [|split; [|split]].
  - apply (Htext (js "All done.")); reflexivity.
  - apply (Htag (js "Sure. ") (js " ") (js "a red fox")
                (js " Enjoy {{VIDEO: x}}")); reflexivity.
  - apply (Htag (js "Sure. ") (js " ") (js "a red fox")
                (js " Enjoy {{VIDEO: x}}")); reflexivity.
  - apply (Htag [] [] (js "hello") []); reflexivity.
Defined.

(** *** The loading flag *)




Section Loading.

Variable contextParams : TaskModule -> option jsstring.




End Loading.

(** Concrete runs. *)
Lemma ids_distinct (j k : nat) : ids j = ids k -> j = k.
Proof.
  intros H. apply (f_equal (@length N)) in H. unfold ids in H.
  now rewrite !repeat_length in H.
Qed.

Lemma ids_fresh (k : nat) : fresh (ids (S k)) [ann_first] = true.
Proof. reflexivity. Qed.

(** A file is selected and no public key is configured. *)
Definition withoutKey : State := with_selectedFiles [deck] (atRest [chatB]).

Lemma handleSendMessage_default_result_witness :
  runActions (actionsOf (handleSendMessage noContext typing sendRun false))
             [ann_first]
  = [ann_first; userMessage (ids 0) (js "hi") 9 [];
     settledMessage (ids 1) (js "Hello") 9].
Proof.
  apply (handleSendMessage_default_result noContext typing sendRun false
                                          [ann_first]).
  - vm_compute. discriminate.
  - discriminate.
  - discriminate.
  - discriminate.
  - reflexivity.
  - right. reflexivity.
Defined.

Lemma handleConvertAction_text_result_witness :
  let r := handleConvertAction noContext typing fallbackRun WORD in
  callsOf r
  = [SendMessageStream (js "Convert this text to Markdown." ++ [LF; LF]
                           ++ js "hi") None None]
  /\ runActions (actionsOf r) [ann_first]
     = [ann_first; userMessage (ids 0) (js "Convert content to WORD") 9 [];
        settledMessage (ids 1)
          (js "Initializing text conversion...1. Intro 2. End") 9].
Proof.
  apply (handleConvertAction_text_result noContext typing fallbackRun WORD
                                         [ann_first]).
  - reflexivity.
  - right. vm_compute. discriminate.
  - reflexivity.
Defined.

Lemma handleConvertAction_files_result_witness :
  runActions (actionsOf (handleConvertAction noContext readyToConvert
                                             fallbackRun EXCEL))
             [ann_first]
  = [ann_first;
     userMessage (ids 0) (js "Convert 1 files to EXCEL") 9 [deck];
     fileResult (ilovePdfKeys readyToConvert) EXCEL fallbackRun 0 deck].
Proof.
  apply (handleConvertAction_files_result noContext readyToConvert
                                          fallbackRun EXCEL [ann_first]).
  - discriminate.
  - exact ids_distinct.
  - exact ids_fresh.
Defined.

Lemma handleConvertAction_no_key_calls_witness :
  callsOf (handleConvertAction noContext withoutKey fallbackRun EXCEL)
  = [SendMessageStream
       (js "Extract all tabular data from the attached file. Output strictly as CSV.")
       None (Some [(att_data deck, att_type deck)])].
Proof.
  apply (handleConvertAction_no_key_calls noContext withoutKey fallbackRun
                                          EXCEL).
  - discriminate.
  - reflexivity.
Defined.

End App.

(* ===================================================================== *)
(** ** What the generative and the conversion services send *)
(* ===================================================================== *)

Module Gemini.
Import Js Types.

Definition COMMA : N := 44.

(** A part of a request: [{ text }] or [{ inlineData: { mimeType, data } }]. *)
Inductive Part : Type :=
| TextPart (text : jsstring)
| InlineData (mime payload : jsstring).

(** [data.split(',')[1] || data] *)
Definition base64Data (d : jsstring) : jsstring :=
  match split1 COMMA d with
  | _ :: second :: _ => or_else second d
  | _ => d
  end.

(** The URL [generateImage] and [editImage] return for an inline part of
    the answer. *)
Definition imageUrl (mime payload : jsstring) : jsstring :=
  js "data:" ++ mime ++ js ";base64," ++ payload.

(** The attachments of a call, as pairs of data and type. *)
Definition inlineParts (atts : list (jsstring * jsstring)) : list Part :=
  map (fun '(d, mime) => InlineData mime (base64Data d)) atts.

(** [messageParts] of [sendMessageStream]. *)
Definition messageParts (message : jsstring) (context : option jsstring)
           (attachments : option (list (jsstring * jsstring))) : list Part :=
  let text :=
    match context with
    | Some (c :: context') =>
        [TextPart (js "[SYSTEM NOTE: " ++ (c :: context') ++ js "]"
                      ++ [LF; LF] ++ js "User Request: " ++ message)]
    | _ => if eqb (trim message) [] then [] else [TextPart message]
    end in
  let files :=
    match attachments with
    | Some atts => inlineParts atts
    | None => []
    end in
  match text ++ files with
  | [] => [TextPart (js " ")]
  | parts => parts
  end.

(** The [message] property of the request: a string or an array of
    parts. *)
Inductive Request : Type :=
| Plain (text : jsstring)
| Parts (parts : list Part).

Definition requestMessage (parts : list Part) : Request :=
  match parts with
  | [TextPart text] => Plain text
  | _ => Parts parts
  end.

(** One entry of the history handed to the chat. *)
Record Content : Type := {
  content_role : jsstring;
  content_parts : list Part
}.

Definition hasAttachments (msg : Message) : bool :=
  match attachments msg with
  | Some atts => Nat.ltb 0 (length atts)
  | None => false
  end.

Definition hasMedia (msg : Message) : bool :=
  match mediaUrl msg with
  | Some url => truthy url
  | None => false
  end.

(** The filter of [initializeChat]. *)
Definition keeps (msg : Message) : bool :=
  (truthy (content msg) && negb (eqb (trim (content msg)) []))
  || hasAttachments msg || hasMedia msg.

Definition textContent (msg : Message) : jsstring :=
  or_else (content msg)
          (if hasAttachments msg then js "Sent attachments"
           else if hasMedia msg then js "Generated media"
           else js "...").

Definition toContent (msg : Message) : Content :=
  {| content_role := match role msg with
                     | USER => js "user"
                     | _ => js "model"
                     end;
     content_parts :=
       TextPart (textContent msg)
       :: match attachments msg with
          | Some atts =>
              map (fun att => InlineData (att_type att)
                                         (base64Data (att_data att))) atts
          | None => []
          end |}.

(** [historyContent] of [initializeChat]: undefined for an absent or empty
    history. *)
Definition historyContent (history : option (list Message))
  : option (list Content) :=
  match history with
  | Some (m :: h) => Some (map toContent (filter keeps (m :: h)))
  | _ => None
  end.

(** The file name [convertWithILovePDF] gives its result. *)
Definition resultFilename (name tool : jsstring) : jsstring :=
  js "converted_" ++ hd [] (split1 DOT name) ++ js "."
     ++ (if eqb tool (js "pdfexcel") then js "xlsx"
         else if eqb tool (js "pdfword") then js "docx"
         else js "pdf").

Lemma split1_none (sep : N) (s : jsstring) :
  includes1 s sep = false -> split1 sep s = [s].
Proof.
  unfold includes1. induction s as [|c s IH]; intros H; [reflexivity|].
  cbn [existsb] in H. apply orb_false_iff in H. destruct H as [Hc H].
  rewrite N.eqb_sym in Hc. cbn [split1]. rewrite Hc, (IH H). reflexivity.
Qed.

(** X25. The payload of an inline part. A string without a comma is sent as
    it is; of a data URL, the part after the comma is sent, and the whole
    URL when that part is empty. The URL [generateImage] returns gives back
    the payload it was built from. *)
Theorem base64Data_cases :
  (forall d, includes1 d COMMA = false -> base64Data d = d)
  /\ (forall header payload,
         includes1 header COMMA = false ->
         includes1 payload COMMA = false ->
         base64Data (header ++ COMMA :: payload)
         = match payload with
           | [] => header ++ [COMMA]
           | _ => payload
           end)
  /\ (forall mime payload,
         includes1 mime COMMA = false ->
         includes1 payload COMMA = false ->
         payload <> [] ->
         base64Data (imageUrl mime payload) = payload).
Proof.
  assert (Hurl : forall header payload,
             includes1 header COMMA = false ->
             includes1 payload COMMA = false ->
             base64Data (header ++ COMMA :: payload)
             = match payload with
               | [] => header ++ [COMMA]
               | _ => payload
               end).
  { intros header payload Hh Hp. unfold base64Data.
    rewrite (Formatter.split1_piece _ _ _ Hh), (split1_none _ _ Hp).
    destruct payload; reflexivity. }
  split; [|split].
  - intros d H. unfold base64Data. now rewrite (split1_none _ _ H).
  - exact Hurl.
  - intros mime payload Hm Hp Hne. unfold imageUrl.
    change (js ";base64," ++ payload)
      with (js ";base64" ++ COMMA :: payload).
    rewrite app_assoc, app_assoc.
    rewrite Hurl; [destruct payload; congruence | | exact Hp].
    unfold includes1 in *. rewrite !existsb_app, Hm. reflexivity.
Qed.

Lemma base64Data_cases_witness :
  base64Data (js "JVBERg==") = js "JVBERg=="
  /\ base64Data (js "data:application/pdf;base64,JVBERg==") = js "JVBERg=="
  /\ base64Data (js "data:text/plain;base64,") = js "data:text/plain;base64,"
  /\ base64Data (imageUrl (js "image/png") (js "iVBORw0KGgo="))
     = js "iVBORw0KGgo=".
Proof.
  destruct base64Data_cases as (Hraw & Hurl & Himage).
  split; [|split; [|split]].
  - apply Hraw. reflexivity.
  - apply (Hurl (js "data:application/pdf;base64") (js "JVBERg=="));
      reflexivity.
  - apply (Hurl (js "data:text/plain;base64") []); reflexivity.
  - apply Himage; [reflexivity | reflexivity | discriminate].
Defined.

Definition isInline (p : Part) : bool :=
  match p with
  | InlineData _ _ => true
  | TextPart _ => false
  end.

Lemma filter_inlineParts (atts : list (jsstring * jsstring)) :
  filter isInline (inlineParts atts) = inlineParts atts.
Proof.
  induction atts as [|[d mime] atts IH]; [reflexivity|].
  cbn [inlineParts map filter isInline]. f_equal. exact IH.
Qed.

Definition provided (context : option jsstring) : bool :=
  match context with
  | Some c => truthy c
  | None => false
  end.

Definition attached (attachments : option (list (jsstring * jsstring)))
  : list (jsstring * jsstring) :=
  match attachments with
  | Some atts => atts
  | None => []
  end.

Lemma request_text (x : jsstring) (atts : list (jsstring * jsstring)) :
  (exists text, requestMessage (TextPart x :: inlineParts atts) = Plain text)
  <-> atts = [].
Proof.
  split.
  - intros [text H]. destruct atts as [|[d mime] atts]; [reflexivity|].
    discriminate H.
  - intros ->. exists x. reflexivity.
Qed.

(** The parts when a text part is pushed. *)
Lemma parts_with_text (x : jsstring) (atts : list (jsstring * jsstring))
      (P : Prop) :
  x <> js " " -> ~ P ->
  let parts := TextPart x :: inlineParts atts in
  parts <> []
  /\ filter isInline parts = inlineParts atts
  /\ (parts = [TextPart (js " ")] <-> P /\ atts = [])
  /\ ((exists text, requestMessage parts = Plain text) <-> atts = []).
Proof.
  intros Hx HP parts. unfold parts. split; [discriminate|].
  split; [apply filter_inlineParts|]. split; [|apply request_text].
  split.
  - intros H. injection H as H _. contradiction.
  - intros [H _]. contradiction.
Qed.

(** The parts when no text part is pushed. *)
Lemma parts_without_text (atts : list (jsstring * jsstring)) :
  let parts := match inlineParts atts with
               | [] => [TextPart (js " ")]
               | p :: ps => p :: ps
               end in
  parts <> []
  /\ filter isInline parts = inlineParts atts
  /\ (parts = [TextPart (js " ")] <-> atts = [])
  /\ ((exists text, requestMessage parts = Plain text) <-> atts = []).
Proof.
  destruct atts as [|[d mime] atts].
  - cbn. split; [discriminate|]. split; [reflexivity|].
    split; [tauto|]. split; [reflexivity|]. intros _. eexists. reflexivity.
  - cbn [inlineParts map]. fold (inlineParts atts).
    split; [discriminate|].
    split; [cbn [filter isInline]; now rewrite filter_inlineParts|].
    split; (split; [|discriminate]).
    + discriminate.
    + intros [text H]. cbn in H. destruct (inlineParts atts); discriminate H.
Qed.

(** X26. The request of [sendMessageStream] is never empty and carries
    every attachment, in order. It is the single space exactly when there
    is no context, the message is blank and nothing is attached; it is sent
    as a plain string exactly when nothing is attached. *)
Theorem messageParts_request (message : jsstring) (context : option jsstring)
        (attachments : option (list (jsstring * jsstring))) :
  let parts := messageParts message context attachments in
  parts <> []
  /\ filter isInline parts = inlineParts (attached attachments)
  /\ (parts = [TextPart (js " ")]
      <-> (provided context = false /\ trim message = [])
          /\ attached attachments = [])
  /\ ((exists text, requestMessage parts = Plain text)
      <-> attached attachments = []).
Proof.
  assert (Hatt : match attachments with
                 | Some atts => inlineParts atts
                 | None => []
                 end = inlineParts (attached attachments))
    by (destruct attachments; reflexivity).
  unfold messageParts. rewrite Hatt. clear Hatt.
  set (atts := attached attachments). clearbody atts.
  assert (Hplain :
    provided context = false ->
    let parts := match (if eqb (trim message) [] then []
                        else [TextPart message]) ++ inlineParts atts with
                 | [] => [TextPart (js " ")]
                 | p :: ps => p :: ps
                 end in
    parts <> []
    /\ filter isInline parts = inlineParts atts
    /\ (parts = [TextPart (js " ")]
        <-> (provided context = false /\ trim message = []) /\ atts = [])
    /\ ((exists text, requestMessage parts = Plain text) <-> atts = [])).
  { intros Hc. destruct (eqb (trim message) []) eqn:E.
    - apply eqb_eq in E. cbn [app].
      destruct (parts_without_text atts) as (H1 & H2 & H3 & H4).
      split; [exact H1|]. split; [exact H2|]. split; [|exact H4].
      rewrite H3. tauto.
    - assert (Hne : trim message <> [])
        by (intros H; rewrite H in E; discriminate E).
      cbn [app]. apply parts_with_text.
      + intros ->. apply Hne. reflexivity.
      + tauto. }
  destruct context as [[|c context']|].
  - apply Hplain. reflexivity.
  - cbn [app]. apply parts_with_text; [discriminate|].
    cbn [provided truthy]. intros [H _]. discriminate H.
  - apply Hplain. reflexivity.
Qed.

(** *** The history handed to the chat *)

Lemma textContent_kept (msg : Message) :
  keeps msg = true ->
  textContent msg <> []
  /\ textContent msg
     = if truthy (content msg) then content msg
       else if hasAttachments msg then js "Sent attachments"
            else js "Generated media".
Proof.
  unfold keeps, textContent, or_else. intros H.
  destruct (content msg) as [|c text].
  - destruct (hasAttachments msg); [split; [discriminate | reflexivity]|].
    change (hasMedia msg = true) in H. rewrite H.
    split; [discriminate | reflexivity].
  - split; [discriminate | reflexivity].
Qed.

Lemma toContent_inline (msg : Message) :
  forallb isInline (tl (content_parts (toContent msg))) = true.
Proof.
  cbn [toContent content_parts tl].
  destruct (attachments msg) as [atts|]; [|reflexivity].
  induction atts as [|att atts IH]; [reflexivity | exact IH].
Qed.

(** X27. The history [initializeChat] hands to the chat. Every entry starts
    with a text part that is not empty and continues with inline parts
    only; the text is the content of the message or, when that is empty,
    the note for attachments or the note for media, never the third
    placeholder. A history whose messages are all dropped is handed over as
    an empty array, an empty or absent history as undefined. *)
Theorem historyContent_entries :
  (forall history entries entry,
      historyContent history = Some entries ->
      In entry entries ->
      exists msg text rest,
        keeps msg = true
        /\ entry = toContent msg
        /\ content_parts entry = TextPart text :: rest
        /\ text <> []
        /\ text = (if truthy (content msg) then content msg
                   else if hasAttachments msg then js "Sent attachments"
                        else js "Generated media")
        /\ forallb isInline rest = true)
  /\ (forall msg history,
         forallb (fun m => negb (keeps m)) (msg :: history) = true ->
         historyContent (Some (msg :: history)) = Some [])
  /\ historyContent (Some []) = None
  /\ historyContent None = None.
Proof.
  split; [|split; [|split; reflexivity]].
  - intros history entries entry H Hin.
    destruct history as [[|m h]|]; try discriminate H.
    assert (E : entries = map toContent (filter keeps (m :: h)))
      by (unfold historyContent in H; congruence).
    rewrite E in Hin. clear H E.
    apply in_map_iff in Hin. destruct Hin as (msg & <- & Hin).
    apply filter_In in Hin. destruct Hin as [_ Hk].
    destruct (textContent_kept msg Hk) as [Hne Ht].
    exists msg, (textContent msg), (tl (content_parts (toContent msg))).
    split; [exact Hk|]. split; [reflexivity|]. split; [reflexivity|].
    split; [exact Hne|]. split; [exact Ht | apply toContent_inline].
  - intros msg history H. cbn [historyContent]. f_equal.
    induction (msg :: history) as [|m l IH]; [reflexivity|].
    cbn [forallb] in H. apply andb_prop in H. destruct H as [Hm H].
    apply negb_true_iff in Hm. cbn [filter]. rewrite Hm. now apply IH.
Qed.

Lemma historyContent_entries_witness :
  exists msg text rest,
    keeps msg = true
    /\ toContent (App.userMessage (js "m-2") [] 6 [App.deck]) = toContent msg
    /\ content_parts (toContent (App.userMessage (js "m-2") [] 6 [App.deck]))
       = TextPart text :: rest
    /\ text <> []
    /\ text = (if truthy (content msg) then content msg
               else if hasAttachments msg then js "Sent attachments"
                    else js "Generated media")
    /\ forallb isInline rest = true.
Proof.
  apply (proj1 historyContent_entries
               (Some [App.ann_first;
                      App.userMessage (js "m-2") [] 6 [App.deck]])
               [toContent App.ann_first;
                toContent (App.userMessage (js "m-2") [] 6 [App.deck])]).
  - reflexivity.
  - right. left. reflexivity.
Defined.

(** *** The name of a converted file *)

(** X28. The file [convertWithILovePDF] returns is named after the part of
    the original name before its first dot, with the extension xlsx for a
    conversion to Excel, docx for a conversion to Word, and pdf for the
    other two targets, the presentation included. *)
Theorem resultFilename_cases (f : App.TargetFormat) (base rest : jsstring) :
  includes1 base DOT = false ->
  let ext := match f with
             | App.EXCEL => js "xlsx"
             | App.WORD => js "docx"
             | App.PDF | App.PPT => js "pdf"
             end in
  resultFilename (base ++ DOT :: rest) (App.toolMap f)
  = js "converted_" ++ base ++ js "." ++ ext
  /\ resultFilename base (App.toolMap f)
     = js "converted_" ++ base ++ js "." ++ ext.
Proof.
  intros Hbase ext. unfold resultFilename.
  rewrite (Formatter.split1_piece _ _ _ Hbase), (split1_none _ _ Hbase).
  cbn [hd]. destruct f; split; reflexivity.
Qed.

Lemma resultFilename_cases_witness :
  resultFilename (js "slides.v2.pdf") (js "pdfpowerpoint")
  = js "converted_slides.pdf"
  /\ resultFilename (js "slides") (js "pdfpowerpoint")
     = js "converted_slides.pdf".
Proof.
  apply (resultFilename_cases App.PPT (js "slides") (js "v2.pdf")).
  reflexivity.
Defined.

End Gemini.
